(** * profit-monopoly: the safety supervisor, the pending-tx store, the
    flash-loan planner and the numeric kernel, embedded from the Python
    sources under [mevbot/] and checked against the specification.

    Conventions of the embedding.
    - Python objects with mutable attributes become records; a method is a
      function on the record, and a method that can raise runs in the small
      state-and-exception monad [Py.M].
    - A [Decimal] is the rational it denotes, and its arithmetic is that
      of the default context, module [Decimal]: every sum, difference,
      product, quotient, negation and absolute value is the exact result
      rounded half-even to 28 significant digits, or the exception that
      the context traps.  Comparisons are exact.
    - A reading of the wall clock is the rational it denotes.
    - [float] and numpy [float64] values that enter arithmetic are
      IEEE-754 binary64 numbers, module [Float64]: every operation is the
      exact rational result rounded to nearest, ties to even.  Arrays that
      are only compared and indexed hold the rationals they denote.
    - Every call of [time.time()] is an input of the operation that makes
      it; collaborators that are handed to a class by its constructor (the
      relay client, the chain client) are inputs as well. *)

From Stdlib Require Import ZArith QArith Qround Qabs Qpower List String Bool Lia Lqa Sorted.
From Stdlib Require Import Floats.SpecFloat.
From stdpp Require Import gmap strings list fin_maps.

Set Implicit Arguments.
Unset Strict Implicit.

(** ** Exceptions and state *)

Module Py.

Inductive exn : Type :=
| KeyError
| ValueError
| ArithmeticError
| IndexError
| AttributeError
| OverflowError.

Inductive outcome (A : Type) : Type :=
| Val (a : A)
| Exc (e : exn).

Arguments Val {A} a.
Arguments Exc {A} e.

Definition M (St A : Type) : Type := St -> outcome A * St.

Definition ret {St A} (a : A) : M St A := fun s => (Val a, s).

Definition raise {St A} (e : exn) : M St A := fun s => (Exc e, s).

Definition bind {St A B} (c : M St A) (k : A -> M St B) : M St B :=
  fun s =>
    match c s with
    | (Val a, s') => k a s'
    | (Exc e, s') => (Exc e, s')
    end.

Definition gets {St A} (f : St -> A) : M St A := fun s => (Val (f s), s).

Definition modify {St} (f : St -> St) : M St unit := fun s => (Val tt, f s).

(** [try: c except Exception: h] keeps the state the body reached. *)
Definition try_except {St A} (c : M St A) (h : exn -> M St A) : M St A :=
  fun s =>
    match c s with
    | (Val a, s') => (Val a, s')
    | (Exc e, s') => h e s'
    end.

(** [d[k]] on a key that may be absent. *)
Definition subscript {St A} (o : option A) : M St A :=
  match o with
  | Some a => ret a
  | None => raise KeyError
  end.

(** A helper that returns [None] on the inputs where the Python raises. *)
Definition or_raise {St A} (e : exn) (o : option A) : M St A :=
  match o with
  | Some a => ret a
  | None => raise e
  end.

End Py.

Declare Scope py_scope.
Delimit Scope py_scope with py.
Notation "'let*' x ':=' c 'in' k" := (Py.bind c (fun x => k))
  (at level 10, x name, c at level 100, k at level 200) : py_scope.
Notation "'exec' c 'in' k" := (Py.bind c (fun _ => k))
  (at level 10, c at level 100, k at level 200) : py_scope.

(** Comparisons of [Decimal]s and of clock readings. *)
Definition Qgeb (x y : Q) : bool := Qle_bool y x.
Definition Qgtb (x y : Q) : bool := negb (Qle_bool x y).
Definition Qltb (x y : Q) : bool := negb (Qle_bool y x).

(** ** IEEE-754 binary64, the [float] of Python and the [float64] of numpy *)

Module Float64.
Local Open Scope Q_scope.

(** A finite value is the rational it denotes; the sign of a zero is not
    recorded (it can only show in the sign of a quotient by zero). *)
Inductive t : Type :=
| Fin (q : Q)
| Inf (negative : bool)
| NaN.

(** Nearest integer, ties to even. *)
Definition rne (x : Q) : Z :=
  let f := Qfloor x in
  match Qcompare (x - inject_Z f) (1 # 2) with
  | Lt => f
  | Gt => (f + 1)%Z
  | Eq => if Z.even f then f else (f + 1)%Z
  end.

(** The binary exponent of a positive rational: [2^k <= x < 2^(k+1)]. *)
Definition ilog2 (x : Q) : Z :=
  let k := (Z.log2 (Qnum x) - Z.log2 (Zpos (Qden x)))%Z in
  if Qle_bool (2 ^ k) x then k else (k - 1)%Z.

(** The exponent of the last place: 53 significant bits, and no finer
    than the subnormal spacing [2^-1074]. *)
Definition ulp_exponent (x : Q) : Z := Z.max (ilog2 x - 52) (-1074).

(** A positive rational rounded to the binary64 grid. *)
Definition round_pos (x : Q) : Q :=
  inject_Z (rne (x / 2 ^ ulp_exponent x)) * 2 ^ ulp_exponent x.

(** Round to nearest, ties to even; a magnitude that rounds to [2^1024]
    or more overflows to an infinity. *)
Definition RN (x : Q) : t :=
  match Qcompare x 0 with
  | Eq => Fin 0
  | Gt => let v := round_pos x in
          if Qle_bool (2 ^ 1024) v then Inf false else Fin (Qred v)
  | Lt => let v := round_pos (- x) in
          if Qle_bool (2 ^ 1024) v then Inf true else Fin (Qred (- v))
  end.

Definition is_negative (q : Q) : bool := negb (Qle_bool 0 q).

Definition fadd (x y : t) : t :=
  match x, y with
  | Fin a, Fin b => RN (a + b)
  | Fin _, Inf s => Inf s
  | Inf s, Fin _ => Inf s
  | Inf s1, Inf s2 => if Bool.eqb s1 s2 then Inf s1 else NaN
  | _, _ => NaN
  end.

Definition fopp (x : t) : t :=
  match x with
  | Fin a => Fin (- a)
  | Inf s => Inf (negb s)
  | NaN => NaN
  end.

Definition fsub (x y : t) : t := fadd x (fopp y).

Definition fmul (x y : t) : t :=
  match x, y with
  | Fin a, Fin b => RN (a * b)
  | Fin a, Inf s => if Qeq_bool a 0 then NaN else Inf (xorb s (is_negative a))
  | Inf s, Fin b => if Qeq_bool b 0 then NaN else Inf (xorb s (is_negative b))
  | Inf s1, Inf s2 => Inf (xorb s1 s2)
  | _, _ => NaN
  end.

(** Division as numpy does it: a zero divisor gives an infinity or a
    NaN, not an exception. *)
Definition fdiv (x y : t) : t :=
  match x, y with
  | Fin a, Fin b =>
      if Qeq_bool b 0 then (if Qeq_bool a 0 then NaN else Inf (is_negative a))
      else RN (a / b)
  | Fin _, Inf _ => Fin 0
  | Inf s, Fin b => Inf (xorb s (is_negative b))
  | _, _ => NaN
  end.

(** Comparisons; every comparison with a NaN is false. *)
Definition fle (x y : t) : bool :=
  match x, y with
  | Fin a, Fin b => Qle_bool a b
  | Fin _, Inf s => negb s
  | Inf s, Fin _ => s
  | Inf s1, Inf s2 => s1 || negb s2
  | _, _ => false
  end.

Definition flt (x y : t) : bool :=
  match x, y with
  | Fin a, Fin b => negb (Qle_bool b a)
  | Fin _, Inf s => negb s
  | Inf s, Fin _ => s
  | Inf s1, Inf s2 => s1 && negb s2
  | _, _ => false
  end.

(** [float(n)] of a Python int: [None] stands for [OverflowError]. *)
Definition of_Z (n : Z) : option t :=
  match RN (inject_Z n) with
  | Fin q => Some (Fin q)
  | _ => None
  end.

(** [int(x)]: truncation toward zero; [None] stands for the exception
    raised on an infinity or a NaN. *)
Definition to_Z (x : t) : option Z :=
  match x with
  | Fin q => Some (Z.quot (Qnum q) (Zpos (Qden q)))
  | _ => None
  end.

(** A decimal literal of the source text. *)
Definition literal (q : Q) : t := RN q.

(** The value of a float of the Standard Library's specification of
    IEEE-754, for comparison. *)
Definition of_spec_float (x : spec_float) : t :=
  match x with
  | S754_zero _ => Fin 0
  | S754_infinity s => Inf s
  | S754_nan => NaN
  | S754_finite s m e =>
      Fin (Qred ((if s then - inject_Z (Zpos m) else inject_Z (Zpos m)) * 2 ^ e))
  end.

End Float64.

(** ** Python's [decimal.Decimal] under the default context *)

Module Decimal.
Local Open Scope Q_scope.

(** The default context: 28 significant digits, round half to even,
    exponents from [Emin = -999999] to [Emax = 999999], and the traps
    [Overflow], [DivisionByZero] and [InvalidOperation] set.  A finite
    [Decimal] is the rational it denotes; its constructor is exact and
    every arithmetic operation returns the exact result rounded to the
    context, or raises ([None]). *)
Definition prec : Z := 28.
Definition Emax : Z := 999999.
Definition Etiny : Z := -1000026.

(** The number of decimal digits of a positive integer. *)
Fixpoint digits_from (fuel : nat) (n : Z) : Z :=
  match fuel with
  | O => 0
  | S fuel' => if (n <? 10)%Z then 1 else (1 + digits_from fuel' (n / 10))%Z
  end.

Definition digits (n : Z) : Z := digits_from (S (Z.to_nat (Z.log2 n))) n.

(** The decimal exponent of a positive rational:
    [10^k <= x < 10^(k+1)]. *)
Definition ilog10 (x : Q) : Z :=
  let k := (digits (Qnum x) - digits (Zpos (Qden x)))%Z in
  if Qle_bool (10 ^ k) x then k else (k - 1)%Z.

(** The exponent of the last digit kept: 28 significant digits, and no
    finer than the subnormal quantum [10^Etiny]. *)
Definition quantum (x : Q) : Z := Z.max (ilog10 (Qabs x) - (prec - 1)) Etiny.

(** Rounding to the context; a result beyond [Emax] raises [Overflow]. *)
Definition round (x : Q) : option Q :=
  if Qeq_bool x 0 then Some 0
  else
    let e := quantum x in
    let r := inject_Z (Float64.rne (x / 10 ^ e)) * 10 ^ e in
    if Qeq_bool r 0 then Some 0
    else if (Emax <? ilog10 (Qabs r))%Z then None
    else Some (Qred r).

Definition add (x y : Q) : option Q := round (x + y).
Definition sub (x y : Q) : option Q := round (x - y).
Definition mul (x y : Q) : option Q := round (x * y).

(** A zero divisor raises [DivisionByZero], or [InvalidOperation] for
    [0 / 0]. *)
Definition div (x y : Q) : option Q :=
  if Qeq_bool y 0 then None else round (x / y).

(** Unary minus and [abs] round their operand to the context as well. *)
Definition neg (x : Q) : option Q := round (- x).
Definition abs (x : Q) : option Q := round (Qabs x).

End Decimal.

(** ** mevbot/core/safety/circuit_breaker.py *)

Module CircuitBreaker.
Import Py.
Local Open Scope Q_scope.
Local Open Scope py_scope.

(** The reason handed to [trigger_breaker].  The source builds it with
    f-strings; a constructor stands for the literal text and carries the
    interpolated quantities. *)
Inductive Reason : Type :=
| PositionSizeLimitExceeded (total cap : Q)
| GasPriceTooHigh (price cap : Q)
| DailyGasSpendWouldBeExceeded
| ProfitBelowMinimumThreshold (profit floor : Q)
| SlippageTooHigh (slippage cap : Q)
| MaximumDailyLossExceeded
| PositionLimitExceeded
| DailyGasSpendLimitExceeded
| EmergencyShutdownActivated
| Message (text : string).

Record PositionLimit : Type := {
  max_size : Q;
  current_size : Q }.

Record GasLimit : Type := {
  max_price_gwei : Q;
  max_daily_spend : Q;
  current_daily_spend : Q }.

Record ProfitMetrics : Type := {
  min_profit_threshold : Q;
  max_daily_loss : Q;
  current_daily_pnl : Q }.

(** The attributes of a [CircuitBreaker]; the two intervals are the values
    [config.get] yields (defaults 86400 and 60). *)
Record t : Type := {
  metrics_reset_interval : Q;
  health_check_interval : Q;
  enabled : bool;
  triggered : bool;
  trigger_reason : option Reason;
  position_limit : PositionLimit;
  gas_limit : GasLimit;
  profit_metrics : ProfitMetrics;
  tx_window : Q;
  max_tx_per_window : Z;
  tx_timestamps : list Q;
  max_slippage : Q;
  last_health_check : Q;
  last_metrics_reset : Q }.

(** The configuration keys [__init__] reads. *)
Record Config : Type := {
  cfg_max_position_size : Q;
  cfg_max_gas_price_gwei : Q;
  cfg_max_daily_gas_spend : Q;
  cfg_min_profit_threshold : Q;
  cfg_max_daily_loss : Q;
  cfg_tx_rate_window : Q;
  cfg_max_tx_per_window : Z;
  cfg_max_slippage : Q;
  cfg_metrics_reset_interval : Q;
  cfg_health_check_interval : Q }.

Definition init (config : Config) (now : Q) : t := {|
  metrics_reset_interval := cfg_metrics_reset_interval config;
  health_check_interval := cfg_health_check_interval config;
  enabled := true;
  triggered := false;
  trigger_reason := None;
  position_limit := {| max_size := cfg_max_position_size config; current_size := 0 |};
  gas_limit := {| max_price_gwei := cfg_max_gas_price_gwei config;
                  max_daily_spend := cfg_max_daily_gas_spend config;
                  current_daily_spend := 0 |};
  profit_metrics := {| min_profit_threshold := cfg_min_profit_threshold config;
                       max_daily_loss := cfg_max_daily_loss config;
                       current_daily_pnl := 0 |};
  tx_window := cfg_tx_rate_window config;
  max_tx_per_window := cfg_max_tx_per_window config;
  tx_timestamps := [];
  max_slippage := cfg_max_slippage config;
  last_health_check := now;
  last_metrics_reset := now |}.

(** Attribute assignments. *)
Definition set_trigger (b : bool) (r : option Reason) (s : t) : t := {|
  metrics_reset_interval := metrics_reset_interval s;
  health_check_interval := health_check_interval s;
  enabled := enabled s;
  triggered := b;
  trigger_reason := r;
  position_limit := position_limit s;
  gas_limit := gas_limit s;
  profit_metrics := profit_metrics s;
  tx_window := tx_window s;
  max_tx_per_window := max_tx_per_window s;
  tx_timestamps := tx_timestamps s;
  max_slippage := max_slippage s;
  last_health_check := last_health_check s;
  last_metrics_reset := last_metrics_reset s |}.

Definition set_current_size (q : Q) (s : t) : t := {|
  metrics_reset_interval := metrics_reset_interval s;
  health_check_interval := health_check_interval s;
  enabled := enabled s;
  triggered := triggered s;
  trigger_reason := trigger_reason s;
  position_limit := {| max_size := max_size (position_limit s); current_size := q |};
  gas_limit := gas_limit s;
  profit_metrics := profit_metrics s;
  tx_window := tx_window s;
  max_tx_per_window := max_tx_per_window s;
  tx_timestamps := tx_timestamps s;
  max_slippage := max_slippage s;
  last_health_check := last_health_check s;
  last_metrics_reset := last_metrics_reset s |}.

Definition set_current_daily_spend (q : Q) (s : t) : t := {|
  metrics_reset_interval := metrics_reset_interval s;
  health_check_interval := health_check_interval s;
  enabled := enabled s;
  triggered := triggered s;
  trigger_reason := trigger_reason s;
  position_limit := position_limit s;
  gas_limit := {| max_price_gwei := max_price_gwei (gas_limit s);
                  max_daily_spend := max_daily_spend (gas_limit s);
                  current_daily_spend := q |};
  profit_metrics := profit_metrics s;
  tx_window := tx_window s;
  max_tx_per_window := max_tx_per_window s;
  tx_timestamps := tx_timestamps s;
  max_slippage := max_slippage s;
  last_health_check := last_health_check s;
  last_metrics_reset := last_metrics_reset s |}.

Definition set_current_daily_pnl (q : Q) (s : t) : t := {|
  metrics_reset_interval := metrics_reset_interval s;
  health_check_interval := health_check_interval s;
  enabled := enabled s;
  triggered := triggered s;
  trigger_reason := trigger_reason s;
  position_limit := position_limit s;
  gas_limit := gas_limit s;
  profit_metrics := {| min_profit_threshold := min_profit_threshold (profit_metrics s);
                       max_daily_loss := max_daily_loss (profit_metrics s);
                       current_daily_pnl := q |};
  tx_window := tx_window s;
  max_tx_per_window := max_tx_per_window s;
  tx_timestamps := tx_timestamps s;
  max_slippage := max_slippage s;
  last_health_check := last_health_check s;
  last_metrics_reset := last_metrics_reset s |}.

Definition set_tx_timestamps (l : list Q) (s : t) : t := {|
  metrics_reset_interval := metrics_reset_interval s;
  health_check_interval := health_check_interval s;
  enabled := enabled s;
  triggered := triggered s;
  trigger_reason := trigger_reason s;
  position_limit := position_limit s;
  gas_limit := gas_limit s;
  profit_metrics := profit_metrics s;
  tx_window := tx_window s;
  max_tx_per_window := max_tx_per_window s;
  tx_timestamps := l;
  max_slippage := max_slippage s;
  last_health_check := last_health_check s;
  last_metrics_reset := last_metrics_reset s |}.

Definition set_last_health_check (q : Q) (s : t) : t := {|
  metrics_reset_interval := metrics_reset_interval s;
  health_check_interval := health_check_interval s;
  enabled := enabled s;
  triggered := triggered s;
  trigger_reason := trigger_reason s;
  position_limit := position_limit s;
  gas_limit := gas_limit s;
  profit_metrics := profit_metrics s;
  tx_window := tx_window s;
  max_tx_per_window := max_tx_per_window s;
  tx_timestamps := tx_timestamps s;
  max_slippage := max_slippage s;
  last_health_check := q;
  last_metrics_reset := last_metrics_reset s |}.

Definition set_last_metrics_reset (q : Q) (s : t) : t := {|
  metrics_reset_interval := metrics_reset_interval s;
  health_check_interval := health_check_interval s;
  enabled := enabled s;
  triggered := triggered s;
  trigger_reason := trigger_reason s;
  position_limit := position_limit s;
  gas_limit := gas_limit s;
  profit_metrics := profit_metrics s;
  tx_window := tx_window s;
  max_tx_per_window := max_tx_per_window s;
  tx_timestamps := tx_timestamps s;
  max_slippage := max_slippage s;
  last_health_check := last_health_check s;
  last_metrics_reset := q |}.

(** The keys of the transaction dict that [validate_transaction] reads;
    [None] is an absent key, the values are amounts in wei. *)
Record Tx : Type := {
  tx_value : option Z;
  tx_gasPrice : option Z;
  tx_gas : option Z;
  tx_expected_profit : option Z;
  tx_expected_price : option Z;
  tx_actual_price : option Z }.

(** [Web3.from_wei(number, unit)] of the web3 package: zero is returned
    as it is, a number outside [0, 2^256-1] raises [ValueError], anything
    else is divided exactly by the unit. *)
Definition ether : positive := (10 ^ 18)%positive.
Definition gwei : positive := (10 ^ 9)%positive.

Definition from_wei (number : Z) (unit : positive) : option Q :=
  if (number =? 0)%Z then Some 0
  else if ((number <? 0) || (2 ^ 256 - 1 <? number))%Z then None
  else Some (number # unit).

(** The three clock readings of one [validate_transaction]: in
    [_check_system_health], in [_check_tx_rate], and when the accepted
    transaction is recorded. *)
Record Clock : Type := {
  now_health : Q;
  now_rate : Q;
  now_record : Q }.

Definition trigger_breaker (reason : Reason) : M t unit :=
  modify (set_trigger true (Some reason)).

Definition reset_breaker (now : Q) (s : t) : t :=
  set_last_metrics_reset now
    (set_current_daily_pnl 0
      (set_current_daily_spend 0
        (set_current_size 0
          (set_tx_timestamps []
            (set_trigger false None s))))).

Definition when {St} (b : bool) (c : M St unit) : M St unit :=
  if b then c else ret tt.

(** An operation on [Decimal]s; what the context traps is an
    [ArithmeticError] of Python. *)
Definition decimal {St} (result : option Q) : M St Q :=
  or_raise ArithmeticError result.

Definition _check_system_health (current_time : Q) : M t unit :=
  let* s := gets id in
  if Qgeb (current_time - last_metrics_reset s) (metrics_reset_interval s) then
    modify (fun s => set_last_metrics_reset current_time
                      (set_tx_timestamps []
                        (set_current_daily_pnl 0
                          (set_current_daily_spend 0
                            (set_current_size 0 s)))))
  else if Qgeb (current_time - last_health_check s) (health_check_interval s) then
    exec when (Qgtb (current_size (position_limit s)) (max_size (position_limit s)))
              (trigger_breaker PositionLimitExceeded) in
    let* loss_limit := decimal (Decimal.neg (max_daily_loss (profit_metrics s))) in
    exec when (Qle_bool (current_daily_pnl (profit_metrics s)) loss_limit)
              (trigger_breaker MaximumDailyLossExceeded) in
    exec when (Qgtb (current_daily_spend (gas_limit s)) (max_daily_spend (gas_limit s)))
              (trigger_breaker DailyGasSpendLimitExceeded) in
    modify (set_last_health_check current_time)
  else ret tt.

Definition _check_position_size (value : Q) : M t bool :=
  let* s := gets id in
  let* total := decimal (Decimal.add (current_size (position_limit s)) value) in
  if Qgtb total (max_size (position_limit s)) then
    exec trigger_breaker (PositionSizeLimitExceeded total (max_size (position_limit s))) in
    ret false
  else ret true.

Definition _check_gas_limits (gas_price gas : Q) : M t bool :=
  let* s := gets id in
  if Qgtb gas_price (max_price_gwei (gas_limit s)) then
    exec trigger_breaker (GasPriceTooHigh gas_price (max_price_gwei (gas_limit s))) in
    ret false
  else
    let* product := decimal (Decimal.mul gas_price gas) in
    let* gas_cost := decimal (Decimal.div product 1000000000) in
    let* total := decimal (Decimal.add (current_daily_spend (gas_limit s)) gas_cost) in
    if Qgtb total (max_daily_spend (gas_limit s)) then
      exec trigger_breaker DailyGasSpendWouldBeExceeded in
      ret false
    else
      let* spend := decimal (Decimal.add (current_daily_spend (gas_limit s)) gas_cost) in
      exec modify (set_current_daily_spend spend) in
      ret true.

Definition _check_tx_rate (current_time : Q) : M t bool :=
  exec modify (fun s =>
    set_tx_timestamps
      (List.filter (fun t0 => Qle_bool (current_time - t0) (tx_window s))
                   (tx_timestamps s)) s) in
  let* s := gets id in
  if (max_tx_per_window s <=? Z.of_nat (List.length (tx_timestamps s)))%Z then ret false
  else ret true.

Definition _check_profit_threshold (expected_profit : Q) : M t bool :=
  let* s := gets id in
  if Qltb expected_profit (min_profit_threshold (profit_metrics s)) then
    exec trigger_breaker (ProfitBelowMinimumThreshold expected_profit
                            (min_profit_threshold (profit_metrics s))) in
    ret false
  else ret true.

Definition _check_slippage (expected_price actual_price : Q) : M t bool :=
  let* difference := decimal (Decimal.sub actual_price expected_price) in
  let* magnitude := decimal (Decimal.abs difference) in
  let* slippage := decimal (Decimal.div magnitude expected_price) in
  let* s := gets id in
  if Qgtb slippage (max_slippage s) then
    exec trigger_breaker (SlippageTooHigh slippage (max_slippage s)) in
    ret false
  else ret true.

Definition record_profit_loss (amount : Q) : M t unit :=
  let* s := gets id in
  let* total := decimal (Decimal.add (current_daily_pnl (profit_metrics s)) amount) in
  exec modify (set_current_daily_pnl total) in
  let* loss_limit := decimal (Decimal.neg (max_daily_loss (profit_metrics s))) in
  when (Qle_bool total loss_limit) (trigger_breaker MaximumDailyLossExceeded).

Definition emergency_shutdown : M t unit :=
  trigger_breaker EmergencyShutdownActivated.

(** The four quantities read from the dict before any check runs. *)
Record Details : Type := {
  value : Q;
  gas_price : Q;
  gas : Q;
  expected_profit : Q }.

Definition transaction_details (tx : Tx) : M t Details :=
  let* wei := subscript (tx_value tx) in
  let* value := or_raise ValueError (from_wei wei ether) in
  let* gas_price := match tx_gasPrice tx with
                    | Some p => or_raise ValueError (from_wei p gwei)
                    | None => ret 0
                    end in
  let gas := inject_Z (default 21000%Z (tx_gas tx)) in
  let* expected_profit := or_raise ValueError
                            (from_wei (default 0%Z (tx_expected_profit tx)) ether) in
  ret {| value := value; gas_price := gas_price; gas := gas;
         expected_profit := expected_profit |}.

Definition slippage_check (tx : Tx) : M t bool :=
  match tx_expected_price tx, tx_actual_price tx with
  | Some e, Some a =>
      let* expected_price := or_raise ValueError (from_wei e ether) in
      let* actual_price := or_raise ValueError (from_wei a ether) in
      _check_slippage expected_price actual_price
  | _, _ => ret true
  end.

Definition validate_checks (tx : Tx) (clk : Clock) : M t bool :=
  exec _check_system_health (now_health clk) in
  let* trig := gets triggered in
  if trig then ret false else
  let* d := transaction_details tx in
  let* ok := _check_position_size (value d) in
  if negb ok then ret false else
  let* ok := _check_gas_limits (gas_price d) (gas d) in
  if negb ok then ret false else
  let* ok := _check_tx_rate (now_rate clk) in
  if negb ok then ret false else
  let* ok := _check_profit_threshold (expected_profit d) in
  if negb ok then ret false else
  let* ok := slippage_check tx in
  if negb ok then ret false else
  exec modify (fun s => set_tx_timestamps (tx_timestamps s ++ [now_record clk]) s) in
  let* s := gets id in
  let* size := decimal (Decimal.add (current_size (position_limit s)) (value d)) in
  exec modify (set_current_size size) in
  ret true.

Definition validate_transaction (tx : Tx) (clk : Clock) (s : t) : bool * t :=
  if negb (enabled s) then (false, s)
  else
    match try_except (validate_checks tx clk) (fun _ => ret false) s with
    | (Val b, s') => (b, s')
    | (Exc _, s') => (false, s')
    end.

(** A run of calls, each with its own clock readings. *)
Fixpoint validate_all (calls : list (Tx * Clock)) (s : t) : list bool * t :=
  match calls with
  | [] => ([], s)
  | (tx, clk) :: rest =>
      let (b, s1) := validate_transaction tx clk s in
      let (bs, s2) := validate_all rest s1 in
      (b :: bs, s2)
  end.

(** The state in which the checks of one call run: what the health check
    at the head of [validate_transaction] leaves. *)
Definition after_health (clk : Clock) (s : t) : t :=
  snd (_check_system_health (now_health clk) s).

(** The breakers of the supervisor that [validate_transaction] consults,
    and for each the condition under which its check is evaluated and
    found violated.  [s1] is the state the health check leaves; the
    daily-loss condition is evaluated inside the health check itself. *)
Inductive Breaker : Type :=
| PositionSize | GasPrice | DailyGas | TxRate | MinProfit | Slippage | DailyLoss.

(** The gas cost of a transaction, the slippage of a price pair and
    the loss limit as the checks compute them; [None] when an operation
    raises. *)
Definition gas_cost (d : Details) : option Q :=
  product ← Decimal.mul (gas_price d) (gas d);
  Decimal.div product 1000000000.

Definition slippage (expected_price actual_price : Q) : option Q :=
  difference ← Decimal.sub actual_price expected_price;
  magnitude ← Decimal.abs difference;
  Decimal.div magnitude expected_price.

Definition loss_limit (s : t) : option Q :=
  Decimal.neg (max_daily_loss (profit_metrics s)).

(** A computed quantity is beyond its cap, or within it; one whose
    computation raised is neither. *)
Definition exceeds (x : option Q) (cap : Q) : bool :=
  match x with
  | Some v => Qgtb v cap
  | None => false
  end.

Definition within (x : option Q) (cap : Q) : bool :=
  match x with
  | Some v => negb (Qgtb v cap)
  | None => false
  end.

Definition slippage_exceeded (tx : Tx) (s : t) : bool :=
  match tx_expected_price tx, tx_actual_price tx with
  | Some e, Some a =>
      match from_wei e ether, from_wei a ether with
      | Some pe, Some pa => exceeds (slippage pe pa) (max_slippage s)
      | _, _ => false
      end
  | _, _ => false
  end.

(** The health check at the head of a call came to its end. *)
Definition health_completes (clk : Clock) (s : t) : bool :=
  match fst (_check_system_health (now_health clk) s) with
  | Val _ => true
  | Exc _ => false
  end.

Definition fires (b : Breaker) (tx : Tx) (clk : Clock) (s : t) : bool :=
  match b with
  | DailyLoss =>
      negb (Qgeb (now_health clk - last_metrics_reset s) (metrics_reset_interval s))
      && Qgeb (now_health clk - last_health_check s) (health_check_interval s)
      && match loss_limit s with
         | Some limit => Qle_bool (current_daily_pnl (profit_metrics s)) limit
         | None => false
         end
  | _ =>
      let s1 := after_health clk s in
      health_completes clk s && negb (triggered s1) &&
      match fst (transaction_details tx s1) with
      | Exc _ => false
      | Val d =>
          let size := Decimal.add (current_size (position_limit s1)) (value d) in
          let position := exceeds size (max_size (position_limit s1)) in
          let position_ok := within size (max_size (position_limit s1)) in
          let price := Qgtb (gas_price d) (max_price_gwei (gas_limit s1)) in
          let spend :=
            cost ← gas_cost d;
            Decimal.add (current_daily_spend (gas_limit s1)) cost in
          let daily := exceeds spend (max_daily_spend (gas_limit s1)) in
          let daily_ok := within spend (max_daily_spend (gas_limit s1)) in
          let rate :=
            (max_tx_per_window s1 <=?
             Z.of_nat (List.length
                         (List.filter
                            (fun t0 => Qle_bool (now_rate clk - t0) (tx_window s1))
                            (tx_timestamps s1))))%Z in
          let profit :=
            Qltb (expected_profit d) (min_profit_threshold (profit_metrics s1)) in
          match b with
          | PositionSize => position
          | GasPrice => position_ok && price
          | DailyGas => position_ok && negb price && daily
          | TxRate => position_ok && negb price && daily_ok && rate
          | MinProfit =>
              position_ok && negb price && daily_ok && negb rate && profit
          | Slippage =>
              position_ok && negb price && daily_ok && negb rate
              && negb profit && slippage_exceeded tx s1
          | DailyLoss => false
          end
      end
  end.

(** A check of the call, or a conversion of an amount, raised; the
    handler of [validate_transaction] turns that into [False]. *)
Definition raises (tx : Tx) (clk : Clock) (s : t) : bool :=
  match fst (validate_checks tx clk s) with
  | Val _ => false
  | Exc _ => true
  end.

(** The sentence of the specification, for one breaker: when the breaker
    fires in a call, the call leaves the breaker triggered with a reason. *)
Definition trips_globally (b : Breaker) : Prop :=
  forall (s : t) (tx : Tx) (clk : Clock),
    enabled s = true ->
    fires b tx clk s = true ->
    triggered (snd (validate_transaction tx clk s)) = true /\
    trigger_reason (snd (validate_transaction tx clk s)) <> None.

(** The timestamps that [_check_tx_rate] keeps at time [now]. *)
Definition in_window (now : Q) (s : t) : list Q :=
  List.filter (fun t0 => Qle_bool (now - t0) (tx_window s)) (tx_timestamps s).

(** The limits a breaker runs with, read back as a configuration. *)
Definition limits (s : t) : Config := {|
  cfg_max_position_size := max_size (position_limit s);
  cfg_max_gas_price_gwei := max_price_gwei (gas_limit s);
  cfg_max_daily_gas_spend := max_daily_spend (gas_limit s);
  cfg_min_profit_threshold := min_profit_threshold (profit_metrics s);
  cfg_max_daily_loss := max_daily_loss (profit_metrics s);
  cfg_tx_rate_window := tx_window s;
  cfg_max_tx_per_window := max_tx_per_window s;
  cfg_max_slippage := max_slippage s;
  cfg_metrics_reset_interval := metrics_reset_interval s;
  cfg_health_check_interval := health_check_interval s |}.

(** The methods of the breaker that the rest of the bot and the
    test-suite call, and a run of such calls on one breaker. *)
Inductive Call : Type :=
| Validate (tx : Tx) (clk : Clock)
| RecordProfitLoss (amount : Q)
| ResetBreaker (now : Q)
| EmergencyShutdown.

Definition call (c : Call) (s : t) : t :=
  match c with
  | Validate tx clk => snd (validate_transaction tx clk s)
  | RecordProfitLoss amount => snd (record_profit_loss amount s)
  | ResetBreaker now => reset_breaker now s
  | EmergencyShutdown => snd (emergency_shutdown s)
  end.

Definition run (calls : list Call) (s : t) : t :=
  fold_left (fun acc c => call c acc) calls s.

(** The counters are within their limits. *)
Definition within_limits (s : t) : Prop :=
  current_size (position_limit s) <= max_size (position_limit s) /\
  current_daily_spend (gas_limit s) <= max_daily_spend (gas_limit s) /\
  (Z.of_nat (List.length (tx_timestamps s)) <= max_tx_per_window s)%Z.

Definition nonnegative_limits (c : Config) : Prop :=
  0 <= cfg_max_position_size c /\
  0 <= cfg_max_daily_gas_spend c /\
  (0 <= cfg_max_tx_per_window c)%Z.

(** The two reasons that [_check_system_health] gives for a counter
    found beyond its limit. *)
Definition counter_reason (r : option Reason) : bool :=
  match r with
  | Some PositionLimitExceeded | Some DailyGasSpendLimitExceeded => true
  | _ => false
  end.

(** The running totals of a sequence of profit-and-loss records on top of
    the total [pnl], as [record_profit_loss] adds them up; a sum that
    raises leaves the total as it was. *)
Fixpoint running_totals (pnl : Q) (amounts : list Q) : list Q :=
  match amounts with
  | [] => []
  | a :: rest =>
      match Decimal.add pnl a with
      | Some total => total :: running_totals total rest
      | None => running_totals pnl rest
      end
  end.

End CircuitBreaker.

(** ** mevbot/core/safety/coordinator.py *)

Module Coordinator.
Local Open Scope Z_scope.

(** [EmergencyLevel] of emergency_manager.py. *)
Inductive EmergencyLevel : Type := INFO | WARNING | CRITICAL | FATAL.

(** [total_prevented_loss], a float that only the periodic metrics task
    writes, is left out. *)
Record SafetyMetrics : Type := {
  total_transactions : Z;
  failed_transactions : Z;
  emergency_events : Z;
  circuit_breaks : Z;
  last_incident_time : option Q;
  current_risk_level : string }.

(** The coordinator as far as incidents and the whitelist go: its
    metrics, the [contract_whitelist] of its configuration ([[]] when the
    key is absent), the [shutdown_triggered] flag of its emergency manager,
    and whether the process has left through [os._exit]. *)
Record t : Type := {
  contract_whitelist : list string;
  metrics : SafetyMetrics;
  shutdown_triggered : bool;
  exited : bool }.

Definition init (whitelist : list string) : t := {|
  contract_whitelist := whitelist;
  metrics := {| total_transactions := 0; failed_transactions := 0;
                emergency_events := 0; circuit_breaks := 0;
                last_incident_time := None; current_risk_level := "LOW" |};
  shutdown_triggered := false;
  exited := false |}.

Definition set_metrics (m : SafetyMetrics) (s : t) : t := {|
  contract_whitelist := contract_whitelist s;
  metrics := m;
  shutdown_triggered := shutdown_triggered s;
  exited := exited s |}.

Definition set_current_risk_level (level : string) (m : SafetyMetrics) : SafetyMetrics := {|
  total_transactions := total_transactions m;
  failed_transactions := failed_transactions m;
  emergency_events := emergency_events m;
  circuit_breaks := circuit_breaks m;
  last_incident_time := last_incident_time m;
  current_risk_level := level |}.

Definition count_incident (now : Q) (m : SafetyMetrics) : SafetyMetrics := {|
  total_transactions := total_transactions m;
  failed_transactions := failed_transactions m;
  emergency_events := emergency_events m + 1;
  circuit_breaks := circuit_breaks m;
  last_incident_time := Some now;
  current_risk_level := current_risk_level m |}.

Definition level_weights (level : EmergencyLevel) : Z :=
  match level with
  | INFO => 1
  | WARNING => 2
  | CRITICAL => 3
  | FATAL => 4
  end.

Definition _update_risk_level (incident_level : EmergencyLevel)
    (m : SafetyMetrics) : SafetyMetrics :=
  let weight := level_weights incident_level in
  if 3 <=? weight then set_current_risk_level "HIGH" m
  else if weight =? 2 then set_current_risk_level "MEDIUM" m
  else set_current_risk_level "LOW" m.

(** [EmergencyManager.trigger_shutdown]: a second shutdown returns at
    once; the first one runs the notifications (whose failures are
    swallowed) and leaves the process when the level is [FATAL]. *)
Definition trigger_shutdown (level : EmergencyLevel) (s : t) : t :=
  if shutdown_triggered s then s
  else {|
    contract_whitelist := contract_whitelist s;
    metrics := metrics s;
    shutdown_triggered := true;
    exited := match level with FATAL => true | _ => false end |}.

(** [record_incident]; a process that has exited records nothing. *)
Definition record_incident (level : EmergencyLevel) (now : Q) (s : t) : t :=
  if exited s then s
  else
    let s1 := set_metrics (count_incident now (metrics s)) s in
    let s2 := set_metrics (_update_risk_level level (metrics s1)) s1 in
    match level with
    | CRITICAL | FATAL => trigger_shutdown level s2
    | _ => s2
    end.

(** Recording an ordered history of incidents. *)
Definition replay (history : list (EmergencyLevel * Q)) (s : t) : t :=
  fold_left (fun acc incident => record_incident (fst incident) (snd incident) acc)
            history s.

(** The risk level as the specification derives it from a history: the
    highest severity ever seen decides. *)
Definition derived_risk_level (history : list (EmergencyLevel * Q)) : string :=
  if existsb (fun i => match fst i with CRITICAL | FATAL => true | _ => false end) history
  then "HIGH"
  else if existsb (fun i => match fst i with WARNING => true | _ => false end) history
  then "MEDIUM"
  else "LOW".

(** The risk level that one incident alone stands for. *)
Definition risk_of_level (level : EmergencyLevel) : string :=
  match level with
  | CRITICAL | FATAL => "HIGH"
  | WARNING => "MEDIUM"
  | INFO => "LOW"
  end.

(** Truth value of a string: only the empty string is false. *)
Definition truthy (a : string) : bool :=
  match a with
  | EmptyString => false
  | _ => true
  end.

(** [_validate_contract_interaction]; [tx_to] is the value under ['to'],
    [None] when the key is absent or holds [None]. *)
Definition _validate_contract_interaction (s : t) (tx_to : option string) : bool :=
  match tx_to with
  | Some contract_address =>
      if truthy contract_address then
        if bool_decide (contract_address ∈ contract_whitelist s) then true else false
      else true
  | None => true
  end.

(** The levels that [record_incident] hands to the emergency manager, and
    the first incident of a history that has such a level. *)
Definition severe (level : EmergencyLevel) : bool :=
  match level with
  | CRITICAL | FATAL => true
  | _ => false
  end.

Definition first_severe (history : list (EmergencyLevel * Q)) : option EmergencyLevel :=
  match List.find (fun i => severe (fst i)) history with
  | Some i => Some (fst i)
  | None => None
  end.

End Coordinator.

(** ** mevbot/core/safety/coordinator.py: the validation of transactions *)

Module SafetyCoordinator.
Import Py.
Local Open Scope Q_scope.
Local Open Scope py_scope.

(** A running [SafetyCoordinator] as far as [validate_transaction] goes:
    the state of module [Coordinator], the circuit breaker it owns, and the
    [max_gas_price_gwei] of its own configuration (1000 when the key is
    absent), which is not the limit of the breaker. *)
Record t : Type := {
  coordinator : Coordinator.t;
  circuit_breaker : CircuitBreaker.t;
  max_gas_price_gwei : Q }.

Definition set_circuit_breaker (b : CircuitBreaker.t) (s : t) : t := {|
  coordinator := coordinator s;
  circuit_breaker := b;
  max_gas_price_gwei := max_gas_price_gwei s |}.

Definition set_metrics (m : Coordinator.SafetyMetrics) (s : t) : t := {|
  coordinator := Coordinator.set_metrics m (coordinator s);
  circuit_breaker := circuit_breaker s;
  max_gas_price_gwei := max_gas_price_gwei s |}.

Definition count_circuit_break (m : Coordinator.SafetyMetrics) : Coordinator.SafetyMetrics := {|
  Coordinator.total_transactions := Coordinator.total_transactions m;
  Coordinator.failed_transactions := Coordinator.failed_transactions m;
  Coordinator.emergency_events := Coordinator.emergency_events m;
  Coordinator.circuit_breaks := (Coordinator.circuit_breaks m + 1)%Z;
  Coordinator.last_incident_time := Coordinator.last_incident_time m;
  Coordinator.current_risk_level := Coordinator.current_risk_level m |}.

Definition count_transaction (m : Coordinator.SafetyMetrics) : Coordinator.SafetyMetrics := {|
  Coordinator.total_transactions := (Coordinator.total_transactions m + 1)%Z;
  Coordinator.failed_transactions := Coordinator.failed_transactions m;
  Coordinator.emergency_events := Coordinator.emergency_events m;
  Coordinator.circuit_breaks := Coordinator.circuit_breaks m;
  Coordinator.last_incident_time := Coordinator.last_incident_time m;
  Coordinator.current_risk_level := Coordinator.current_risk_level m |}.

(** [_validate_gas_price]: ['gasPrice'] is read with a subscript, so a
    dict without the key raises, and the handler of the method answers
    [False]. *)
Definition _validate_gas_price (s : t) (tx : CircuitBreaker.Tx) : bool :=
  match try_except
          (let* wei := subscript (CircuitBreaker.tx_gasPrice tx) in
           let* gas_price :=
             or_raise ValueError (CircuitBreaker.from_wei wei CircuitBreaker.gwei) in
           if Qgtb gas_price (max_gas_price_gwei s) then ret false else ret true)
          (fun _ => ret false) tt with
  | (Val b, _) => b
  | (Exc _, _) => false
  end.

(** [validate_transaction] of the coordinator.  [tx] holds the keys of
    the dict that the breaker reads, [tx_to] the value under ['to'].  None
    of the three checks lets an exception out, so the handler of the
    method is never entered. *)
Definition validate_transaction (tx : CircuitBreaker.Tx) (tx_to : option string)
    (clk : CircuitBreaker.Clock) (s : t) : bool * t :=
  let (ok, breaker) := CircuitBreaker.validate_transaction tx clk (circuit_breaker s) in
  let s1 := set_circuit_breaker breaker s in
  if negb ok then
    (false, set_metrics (count_circuit_break (Coordinator.metrics (coordinator s1))) s1)
  else if negb (_validate_gas_price s1 tx) then (false, s1)
  else if negb (Coordinator._validate_contract_interaction (coordinator s1) tx_to)
  then (false, s1)
  else (true, set_metrics (count_transaction (Coordinator.metrics (coordinator s1))) s1).

(** A coordinator as its constructor leaves it. *)
Definition init (config : CircuitBreaker.Config) (max_gas : Q) (whitelist : list string)
    (now : Q) : t := {|
  coordinator := Coordinator.init whitelist;
  circuit_breaker := CircuitBreaker.init config now;
  max_gas_price_gwei := max_gas |}.

(** A run of calls, each with its own dict and clock readings. *)
Fixpoint validate_all (calls : list (CircuitBreaker.Tx * option string * CircuitBreaker.Clock))
    (s : t) : list bool * t :=
  match calls with
  | [] => ([], s)
  | (tx, tx_to, clk) :: rest =>
      let (b, s1) := validate_transaction tx tx_to clk s in
      let (bs, s2) := validate_all rest s1 in
      (b :: bs, s2)
  end.

Definition count (b : bool) (answers : list bool) : Z :=
  Z.of_nat (List.length (List.filter (Bool.eqb b) answers)).

End SafetyCoordinator.

(** ** mevbot/core/mempool.py *)

Module Mempool.
Import Py.
Local Open Scope py_scope.

Record Transaction : Type := {
  hash : string;
  from_address : string;
  to_address : option string;
  value : Z;
  gas_price : Z;
  gas_limit : Z;
  nonce : Z;
  data : list Byte.byte;
  timestamp : Q }.

(** What [w3.eth.get_transaction] returns: a dict in which only ['from']
    is read without a default. *)
Record RawTx : Type := {
  raw_from : option string;
  raw_to : option string;
  raw_value : option Z;
  raw_gasPrice : option Z;
  raw_gas : option Z;
  raw_nonce : option Z;
  raw_input : option (list Byte.byte) }.

(** A [MempoolManager].  [pending_txs] is the dict in insertion order,
    which the clean-up iterates; the two indices map a tag to a set of
    hashes. *)
Record t : Type := {
  tx_cleanup_threshold : Q;
  pending_txs : list (string * Transaction);
  enable_custom_indexing : bool;
  index_by_protocol : gmap string (gset string);
  index_by_token : gmap string (gset string) }.

Definition init (cleanup_threshold : Q) : t := {|
  tx_cleanup_threshold := cleanup_threshold;
  pending_txs := [];
  enable_custom_indexing := true;
  index_by_protocol := ∅;
  index_by_token := ∅ |}.

(** Dict operations on the insertion-ordered table. *)
Fixpoint dict_get {A} (k : string) (d : list (string * A)) : option A :=
  match d with
  | [] => None
  | (k', v) :: rest => if String.eqb k k' then Some v else dict_get k rest
  end.

Fixpoint dict_set {A} (k : string) (v : A) (d : list (string * A)) : list (string * A) :=
  match d with
  | [] => [(k, v)]
  | (k', v') :: rest =>
      if String.eqb k k' then (k', v) :: rest else (k', v') :: dict_set k v rest
  end.

Fixpoint dict_del {A} (k : string) (d : list (string * A)) : list (string * A) :=
  match d with
  | [] => []
  | (k', v') :: rest =>
      if String.eqb k k' then rest else (k', v') :: dict_del k rest
  end.

Definition set_pending_txs (d : list (string * Transaction)) (s : t) : t := {|
  tx_cleanup_threshold := tx_cleanup_threshold s;
  pending_txs := d;
  enable_custom_indexing := enable_custom_indexing s;
  index_by_protocol := index_by_protocol s;
  index_by_token := index_by_token s |}.

Definition set_index_by_protocol (m : gmap string (gset string)) (s : t) : t := {|
  tx_cleanup_threshold := tx_cleanup_threshold s;
  pending_txs := pending_txs s;
  enable_custom_indexing := enable_custom_indexing s;
  index_by_protocol := m;
  index_by_token := index_by_token s |}.

Definition set_index_by_token (m : gmap string (gset string)) (s : t) : t := {|
  tx_cleanup_threshold := tx_cleanup_threshold s;
  pending_txs := pending_txs s;
  enable_custom_indexing := enable_custom_indexing s;
  index_by_protocol := index_by_protocol s;
  index_by_token := m |}.

(** [index.setdefault(key, set()).add(h)]. *)
Definition index_add (key h : string) (index : gmap string (gset string))
    : gmap string (gset string) :=
  <[key := default ∅ (index !! key) ∪ {[h]}]> index.

(** The two identification hooks are placeholders in the source: both
    return [None] for every input. *)
Definition _identify_protocol (data : list Byte.byte) : option string := None.

Definition _identify_token (address : option string) : option string := None.

Definition truthy (o : option string) : bool :=
  match o with
  | Some (String _ _) => true
  | _ => false
  end.

(** The operations of the store, for any implementation of the two
    hooks. *)
Section Store.

Variable identify_protocol : list Byte.byte -> option string.
Variable identify_token : option string -> option string.

Definition update_indexes_with (transaction : Transaction) (s : t) : t :=
  let protocol := identify_protocol (data transaction) in
  let s1 :=
    if truthy protocol
    then set_index_by_protocol
           (index_add (default EmptyString protocol) (hash transaction)
                      (index_by_protocol s)) s
    else s in
  let token := identify_token (to_address transaction) in
  if truthy token
  then set_index_by_token
         (index_add (default EmptyString token) (hash transaction)
                    (index_by_token s1)) s1
  else s1.

(** [_process_transaction]; [fetched] is what [get_transaction] gave,
    [None] when it gave nothing or raised.  Every exception ends in the
    handler of the method, which only logs. *)
Definition process_transaction_with (tx_hash : string) (fetched : option RawTx)
    (now : Q) (s : t) : t :=
  match fetched with
  | None => s
  | Some tx =>
      match raw_from tx with
      | None => s
      | Some sender =>
          let transaction := {|
            hash := tx_hash;
            from_address := sender;
            to_address := raw_to tx;
            value := default 0%Z (raw_value tx);
            gas_price := default 0%Z (raw_gasPrice tx);
            gas_limit := default 0%Z (raw_gas tx);
            nonce := default 0%Z (raw_nonce tx);
            data := default [] (raw_input tx);
            timestamp := now |} in
          let s1 := set_pending_txs (dict_set tx_hash transaction (pending_txs s)) s in
          if enable_custom_indexing s1 then update_indexes_with transaction s1 else s1
      end
  end.

End Store.

Definition _update_indexes : Transaction -> t -> t :=
  update_indexes_with _identify_protocol _identify_token.

Definition _process_transaction : string -> option RawTx -> Q -> t -> t :=
  process_transaction_with _identify_protocol _identify_token.

(** [_remove_transaction].  The class has no attribute
    [_remove_from_indexes], so the call raises once the entry has left the
    primary table. *)
Definition _remove_transaction (tx_hash : string) : M t unit :=
  let* s := gets id in
  match dict_get tx_hash (pending_txs s) with
  | Some _ =>
      exec modify (set_pending_txs (dict_del tx_hash (pending_txs s))) in
      if enable_custom_indexing s then raise AttributeError else ret tt
  | None => ret tt
  end.

Fixpoint for_each {A} (f : A -> M t unit) (l : list A) : M t unit :=
  match l with
  | [] => ret tt
  | a :: rest => exec f a in for_each f rest
  end.

(** [current_time - threshold] is a difference of floats, rounded to
    binary64; [tx_cleanup_threshold] is the configured value as a float
    (the default 60 converts exactly).  The comparison of a timestamp with
    it is exact. *)
Definition old_threshold (current_time : Q) (s : t) : Float64.t :=
  Float64.fsub (Float64.Fin current_time) (Float64.Fin (tx_cleanup_threshold s)).

Definition is_expired (current_time : Q) (s : t) (kv : string * Transaction) : bool :=
  Float64.flt (Float64.Fin (timestamp (snd kv))) (old_threshold current_time s).

Definition _cleanup_old_transactions (current_time : Q) : M t unit :=
  let* s := gets id in
  let old_txs := List.map fst (List.filter (is_expired current_time s) (pending_txs s)) in
  for_each _remove_transaction old_txs.

(** The hashes an index holds, and the keys of the primary table. *)
Definition indexed (index : gmap string (gset string)) (h : string) : Prop :=
  exists key hs, index !! key = Some hs /\ h ∈ hs.

Definition pending (s : t) (h : string) : Prop :=
  exists tx, dict_get h (pending_txs s) = Some tx.

(** The sentence of the specification: each index holds exactly the
    hashes of the primary table. *)
Definition fully_indexed (s : t) : Prop :=
  forall h,
    (indexed (index_by_protocol s) h <-> pending s h) /\
    (indexed (index_by_token s) h <-> pending s h).

(** What the store maintains: an index holds only pending hashes, and a
    pending transaction is in the index of every tag the hooks give it. *)
Definition consistent
    (identify_protocol : list Byte.byte -> option string)
    (identify_token : option string -> option string) (s : t) : Prop :=
  (forall h, indexed (index_by_protocol s) h -> pending s h) /\
  (forall h, indexed (index_by_token s) h -> pending s h) /\
  (enable_custom_indexing s = true ->
   forall h tx,
     dict_get h (pending_txs s) = Some tx ->
     (forall p, identify_protocol (data tx) = Some p -> truthy (Some p) = true ->
        exists hs, index_by_protocol s !! p = Some hs /\ h ∈ hs) /\
     (forall k, identify_token (to_address tx) = Some k -> truthy (Some k) = true ->
        exists hs, index_by_token s !! k = Some hs /\ h ∈ hs)).

(** The entries of the primary table that a clean-up at [current_time]
    finds expired, in the order of the table. *)
Definition expired (current_time : Q) (s : t) : list (string * Transaction) :=
  List.filter (is_expired current_time s) (pending_txs s).

(** The operations on the store, and a run of them on one manager. *)
Inductive Operation : Type :=
| Process (tx_hash : string) (fetched : option RawTx) (now : Q)
| CleanUp (current_time : Q)
| Remove (tx_hash : string).

Definition apply (op : Operation) (s : t) : t :=
  match op with
  | Process tx_hash fetched now => _process_transaction tx_hash fetched now s
  | CleanUp current_time => snd (_cleanup_old_transactions current_time s)
  | Remove tx_hash => snd (_remove_transaction tx_hash s)
  end.

Definition run (ops : list Operation) (s : t) : t :=
  fold_left (fun acc op => apply op acc) ops s.

(** [filter_transactions].  The elements are dicts of which the method
    reads ['value'] and ['gas'], and only under the criterion that needs
    them; [None] is an absent key.  The method has no handler, so a
    missing key leaves it as [KeyError]. *)
Section Filter.

Variable Dict : Type.
Variable value_of : Dict -> option Z.
Variable gas_of : Dict -> option Z.

Fixpoint filter_loop (min_value max_gas : option Z) (transactions filtered : list Dict)
    : outcome (list Dict) :=
  match transactions with
  | [] => Val filtered
  | tx :: rest =>
      let gas_filter :=
        match max_gas with
        | Some cap =>
            match gas_of tx with
            | None => Exc KeyError
            | Some g =>
                if (cap <? g)%Z then filter_loop min_value max_gas rest filtered
                else filter_loop min_value max_gas rest (filtered ++ [tx])
            end
        | None => filter_loop min_value max_gas rest (filtered ++ [tx])
        end in
      match min_value with
      | Some floor =>
          match value_of tx with
          | None => Exc KeyError
          | Some v =>
              if (v <? floor)%Z then filter_loop min_value max_gas rest filtered
              else gas_filter
          end
      | None => gas_filter
      end
  end.

Definition filter_transactions (transactions : list Dict) (min_value max_gas : option Z)
    : outcome (list Dict) :=
  filter_loop min_value max_gas transactions [].

(** The criteria as a predicate on a dict that has the keys. *)
Definition passes (min_value max_gas : option Z) (tx : Dict) : bool :=
  match min_value, value_of tx with
  | Some floor, Some v => negb (v <? floor)%Z
  | _, _ => true
  end
  &&
  match max_gas, gas_of tx with
  | Some cap, Some g => negb (cap <? g)%Z
  | _, _ => true
  end.

(** Every key that the criteria need is there. *)
Definition readable (min_value max_gas : option Z) (tx : Dict) : Prop :=
  (min_value <> None -> value_of tx <> None) /\
  (max_gas <> None -> gas_of tx <> None).

End Filter.

End Mempool.

(** ** mevbot/core/mempool.py: [MempoolMonitor] *)

Module MempoolMonitor.
Import Py Mempool.
Local Open Scope py_scope.

(** One element of [get_pending_transactions()]: its hash as
    [tx['hash'].hex()] renders it ([None] when the key is absent), the
    keys of the dict, and the reading of the clock when its [Transaction]
    is built. *)
Record Pending : Type := {
  p_hash : option string;
  p_tx : RawTx;
  p_seen : Q }.

(** The [transactions] dict, in insertion order.  The watch list only
    decides what is logged and is left out. *)
Definition t : Type := list (string * Transaction).

(** The [Transaction] built for a new hash: ['from'], ['value'],
    ['gasPrice'], ['gas'] and ['nonce'] are read with a subscript. *)
Definition make_transaction (tx_hash : string) (tx : RawTx) (now : Q) : option Transaction :=
  sender ← raw_from tx;
  v ← raw_value tx;
  price ← raw_gasPrice tx;
  limit ← raw_gas tx;
  n ← raw_nonce tx;
  Some {| hash := tx_hash;
          from_address := sender;
          to_address := raw_to tx;
          value := v;
          gas_price := price;
          gas_limit := limit;
          nonce := n;
          data := default [] (raw_input tx);
          timestamp := now |}.

(** The body of [for tx in pending]. *)
Definition store (p : Pending) : M t unit :=
  let* tx_hash := subscript (p_hash p) in
  let* known := gets (dict_get tx_hash) in
  match known with
  | Some _ => ret tt
  | None =>
      let* transaction := or_raise KeyError (make_transaction tx_hash (p_tx p) (p_seen p)) in
      modify (dict_set tx_hash transaction)
  end.

(** [del self.transactions[tx_hash]]. *)
Definition del (tx_hash : string) : M t unit :=
  let* known := gets (dict_get tx_hash) in
  match known with
  | Some _ => modify (dict_del tx_hash)
  | None => raise KeyError
  end.

Fixpoint for_each {A} (f : A -> M t unit) (l : list A) : M t unit :=
  match l with
  | [] => ret tt
  | a :: rest => exec f a in for_each f rest
  end.

Definition is_old (current_time : Q) (kv : string * Transaction) : bool :=
  Qgtb (current_time - timestamp (snd kv))%Q 300.

(** The clean-up at the end of an iteration. *)
Definition clean_up (current_time : Q) : M t unit :=
  let* d := gets id in
  let old_txs := List.map fst (List.filter (is_old current_time) d) in
  for_each del old_txs.

(** One iteration of [_monitor_loop]; an exception anywhere ends the
    iteration in the handler, which only logs. *)
Definition _monitor_iteration (pending : list Pending) (current_time : Q) (d : t) : t :=
  snd (try_except (exec for_each store pending in clean_up current_time)
                  (fun _ => ret tt) d).

(** An element that [store] can read. *)
Definition well_formed (p : Pending) : Prop :=
  exists h, p_hash p = Some h /\ make_transaction h (p_tx p) (p_seen p) <> None.

(** A pending transfer of one ether, seen at time 1. *)
Definition test_pending : Pending := {|
  p_hash := Some "0xaa"%string;
  p_tx := {| raw_from := Some "0x01"%string; raw_to := Some "0x02"%string;
             raw_value := Some (10 ^ 18)%Z; raw_gasPrice := Some (50 * 10 ^ 9)%Z;
             raw_gas := Some 21000%Z; raw_nonce := Some 0%Z; raw_input := None |};
  p_seen := 1 |}.

End MempoolMonitor.

(** ** mevbot/core/simd.py *)

Module SIMD.
Import Float64.

(** An arithmetic operator on two one-dimensional arrays, with numpy's
    broadcasting: equal lengths pair up, an array of length one is
    stretched, anything else raises ([None]). *)
Definition broadcast (f : t -> t -> t) (xs ys : list t) : option (list t) :=
  if Nat.eqb (List.length xs) (List.length ys) then Some (zip_with f xs ys)
  else
    match xs, ys with
    | [x], _ => Some (List.map (f x) ys)
    | _, [y] => Some (List.map (fun x => f x y) xs)
    | _, _ => None
    end.

(** One element of [batch_price_impact]. *)
Definition price_impact (amount liquidity : t) : t :=
  fdiv amount (fadd amount liquidity).

Definition batch_price_impact (amounts liquidities : list t) : option (list t) :=
  total ← broadcast fadd amounts liquidities;
  broadcast fdiv amounts total.

Definition batch_sandwich_optimization
    (target_amounts pool_liquidities gas_prices : list t)
    : option (list t * list t) :=
  let optimal_amounts :=
    List.map (fun x => fmul x (literal (1 # 10))) target_amounts in
  impact ← batch_price_impact optimal_amounts pool_liquidities;
  gross ← broadcast fmul target_amounts impact;
  profits ← broadcast fsub gross (List.map (fun g => fmul g (Fin 2)) gas_prices);
  Some (optimal_amounts, profits).

(** The sentence of the specification about the price impact, over all
    finite amounts and liquidities. *)
Definition price_impact_monotone : Prop :=
  forall a a' l : Q,
    (0 <= a)%Q -> (a <= a')%Q -> (0 < l)%Q ->
    RN a = Fin a -> RN a' = Fin a' -> RN l = Fin l ->
    fle (price_impact (Fin a) (Fin l)) (price_impact (Fin a') (Fin l)) = true.

End SIMD.

(** ** mevbot/strategies/sandwich.py *)

Module Sandwich.
Import Float64.

(** The keys read from the victim transaction and from the pool
    description; [None] is an absent key. *)
Record TargetTx : Type := {
  tx_hash : option string;
  tx_value : option Z }.

Record PoolInfo : Type := {
  info_token : option string;
  info_address : option string }.

(** The dict that [_create_swap_tx] builds. *)
Record SwapTx : Type := {
  to : string;
  value : Z;
  gas : Z;
  gasPrice : t }.

(** An element of a bundle: one of our transactions, or the reference
    [{'hash': h}] to the victim. *)
Inductive BundleEntry : Type :=
| Own (tx : SwapTx)
| Victim (hash : string).

Record SandwichParams : Type := {
  target_tx_hash : string;
  token : string;
  pool : string;
  front_amount : Z;
  back_amount : Z;
  expected_profit : t;
  front_tx : option SwapTx;
  back_tx : option SwapTx }.

Record Stats : Type := {
  total_attempts : Z;
  successful_attempts : Z;
  total_profit : t;
  total_gas_used : Z }.

(** The relay client handed to the strategy: the answers of
    [get_gas_price] (read once by the analysis and once per swap
    transaction) and of [send_bundle]; [None] is a call that raises. *)
Record Relay : Type := {
  gas_price_analysis : option t;
  gas_price_front : option t;
  gas_price_back : option t;
  send_bundle : list BundleEntry -> option bool }.

(** [_get_pool_liquidity] returns the constant [int(1e20)]. *)
Definition _get_pool_liquidity (pool : string) : Z := (10 ^ 20)%Z.

(** [analyze_opportunity]; every exception ends in [return None]. *)
Definition analyze_opportunity (relay : Relay) (target_tx : TargetTx)
    (pool_info : PoolInfo) : option SandwichParams :=
  token ← info_token pool_info;
  pool ← info_address pool_info;
  let target_amount := default 0%Z (tx_value target_tx) in
  let liquidity := _get_pool_liquidity pool in
  gas_price ← gas_price_analysis relay;
  if ((target_amount =? 0) || (liquidity =? 0))%Z then None
  else
    target ← of_Z target_amount;
    depth ← of_Z liquidity;
    '(amounts, profits) ← SIMD.batch_sandwich_optimization [target] [depth] [gas_price];
    amount0 ← head amounts;
    front_amount ← to_Z amount0;
    expected_profit ← head profits;
    if (front_amount =? 0)%Z || fle expected_profit (Fin 0) then None
    else
      front ← of_Z front_amount;
      back_amount ← to_Z (fmul front (literal (102 # 100)));
      hash ← tx_hash target_tx;
      Some {| target_tx_hash := hash;
              token := token;
              pool := pool;
              front_amount := front_amount;
              back_amount := back_amount;
              expected_profit := expected_profit;
              front_tx := None;
              back_tx := None |}.

Definition _create_swap_tx (pool : string) (amount : Z) (is_buy : bool)
    (gas_price : option t) : option SwapTx :=
  g ← gas_price;
  Some {| to := pool;
          value := if is_buy then amount else 0%Z;
          gas := 150000%Z;
          gasPrice := g |}.

(** What one call of [execute_sandwich] does: its return value, the
    bundle it handed to [send_bundle] if it came that far, and the
    statistics it leaves. *)
Record Execution : Type := {
  success : bool;
  submitted : option (list BundleEntry);
  stats : Stats }.

Definition execute_sandwich (relay : Relay) (params : SandwichParams)
    (st : Stats) : Execution :=
  match _create_swap_tx (pool params) (front_amount params) true
          (gas_price_front relay) with
  | None => {| success := false; submitted := None; stats := st |}
  | Some front =>
      match _create_swap_tx (pool params) (back_amount params) false
              (gas_price_back relay) with
      | None => {| success := false; submitted := None; stats := st |}
      | Some back =>
          let bundle := [Own front; Victim (target_tx_hash params); Own back] in
          match send_bundle relay bundle with
          | None => {| success := false; submitted := Some bundle; stats := st |}
          | Some ok =>
              {| success := ok;
                 submitted := Some bundle;
                 stats :=
                   if ok then
                     {| total_attempts := (total_attempts st + 1)%Z;
                        successful_attempts := (successful_attempts st + 1)%Z;
                        total_profit := fadd (total_profit st) (expected_profit params);
                        total_gas_used := (total_gas_used st + (gas front + gas back))%Z |}
                   else
                     {| total_attempts := (total_attempts st + 1)%Z;
                        successful_attempts := successful_attempts st;
                        total_profit := total_profit st;
                        total_gas_used := total_gas_used st |} |}
          end
      end
  end.

(** The relay of the test-suite: 50 gwei, every bundle accepted. *)
Definition test_relay : Relay := {|
  gas_price_analysis := Some (Fin 50000000000);
  gas_price_front := Some (Fin 50000000000);
  gas_price_back := Some (Fin 50000000000);
  send_bundle := fun _ => Some true |}.

Definition test_target : TargetTx :=
  {| tx_hash := Some "0x123"%string; tx_value := Some (10 ^ 18)%Z |}.

Definition test_pool : PoolInfo :=
  {| info_token := Some "0x01"%string; info_address := Some "0x02"%string |}.

Definition no_stats : Stats :=
  {| total_attempts := 0; successful_attempts := 0; total_profit := Fin 0;
     total_gas_used := 0 |}.

(** What the analysis finds for the one-ether victim of the test-suite,
    and the bundle that the execution submits for it. *)
Definition test_params : SandwichParams := {|
  target_tx_hash := "0x123";
  token := "0x01";
  pool := "0x02";
  front_amount := 100000000000000000;
  back_amount := 102000000000000000;
  expected_profit := Fin 998900999000999;
  front_tx := None;
  back_tx := None |}.


(** A strategy that executes one opportunity after the other, each
    against the relay as it answers at that time. *)
Definition execute_all (runs : list (Relay * SandwichParams)) (st : Stats) : Stats :=
  fold_left (fun acc r => stats (execute_sandwich (fst r) (snd r) acc)) runs st.

End Sandwich.

(** ** mevbot/core/flash_loan.py *)

Module FlashLoan.
Import Float64.

Inductive Provider : Type := AAVE_V3 | DYDX | BALANCER | UNISWAP_V3.

Definition venue_id (p : Provider) : string :=
  match p with
  | AAVE_V3 => "aave_v3"
  | DYDX => "dydx"
  | BALANCER => "balancer"
  | UNISWAP_V3 => "uniswap_v3"
  end.

(** The keys of [self.providers], in the order the constructor inserts
    them, which is the order the selection iterates. *)
Definition providers : list Provider := [AAVE_V3; DYDX; BALANCER; UNISWAP_V3].

(** What the manager sees of the outside at one selection: whether the
    contract of a provider was initialised (a failed initialisation leaves
    [None] in [self.providers]), and what [_get_provider_liquidity]
    answers ([None] when the call fails). *)
Record Snapshot : Type := {
  contract : Provider -> bool;
  liquidity : Provider -> option Z }.

(** The fee table of [_get_provider_fee]. *)
Definition fee_fraction (p : Provider) : Q :=
  match p with
  | AAVE_V3 => 9 # 10000
  | DYDX => 0
  | BALANCER => 1 # 10000
  | UNISWAP_V3 => 5 # 10000
  end.

(** [_get_provider_fee]: [amount * 0.0009] and the like are products of
    the int converted to a float; the conversion of an int beyond the
    float range raises, which the method turns into [None]. *)
Definition _get_provider_fee (provider : Provider) (amount : Z) : option t :=
  match provider with
  | DYDX => Some (Fin 0)
  | _ => a ← of_Z amount; Some (fmul a (literal (fee_fraction provider)))
  end.

(** One turn of the loop of [get_optimal_provider]. *)
Definition consider (snap : Snapshot) (amount : Z)
    (acc : option Provider * t) (provider : Provider) : option Provider * t :=
  if negb (contract snap provider) then acc
  else
    match _get_provider_fee provider amount, liquidity snap provider with
    | Some fee, Some available =>
        if (available <? amount)%Z then acc
        else if flt fee (snd acc) then (Some provider, fee)
        else acc
    | _, _ => acc
    end.

Definition get_optimal_provider (snap : Snapshot) (amount : Z) : option Provider :=
  fst (fold_left (consider snap amount) providers (None, Inf false)).

(** A provider can lend [amount] at fee [fee]. *)
Definition eligible (snap : Snapshot) (amount : Z) (p : Provider) (fee : Q) : Prop :=
  contract snap p = true /\
  _get_provider_fee p amount = Some (Fin fee) /\
  exists available, liquidity snap p = Some available /\ (amount <= available)%Z.

(** Provider [v] with fee [f] is the cheapest of the providers in [seen],
    and the first of the cheapest in the order of [seen]: every eligible
    provider before it costs strictly more, every one after it at least as
    much. *)
Definition cheapest_first (snap : Snapshot) (amount : Z)
    (seen : list Provider) (v : Provider) (f : Q) : Prop :=
  exists before after,
    seen = before ++ v :: after /\
    eligible snap amount v f /\
    (forall p g, In p before -> eligible snap amount p g -> (f < g)%Q) /\
    (forall p g, In p after -> eligible snap amount p g -> (f <= g)%Q).

(** The state of the selection loop after the providers in [seen]. *)
Definition loop_invariant (snap : Snapshot) (amount : Z)
    (seen : list Provider) (acc : option Provider * t) : Prop :=
  match fst acc with
  | None => snd acc = Inf false /\ forall p g, In p seen -> ~ eligible snap amount p g
  | Some v => exists f, snd acc = Fin f /\ cheapest_first snap amount seen v f
  end.


(** Every provider initialised and holding at least [depth]. *)
Definition all_liquid (depth : Z) : Snapshot :=
  {| contract := fun _ => true; liquidity := fun _ => Some depth |}.

(** [FlashLoanParams]; [max_slippage] keeps its default 0.005. *)
Record FlashLoanParams : Type := {
  provider : string;
  token_address : string;
  amount : Z;
  callback_data : list Byte.byte;
  expected_profit : Z;
  max_slippage : t }.

(** Truth value of a route or provider name: [None] and the empty string
    are false. *)
Definition truthy (o : option string) : bool :=
  match o with
  | Some (String _ _) => true
  | _ => false
  end.

(** [prepare_loan]: [route or await self.get_optimal_provider(...)]
    asks for the optimal provider only when no route is given. *)
Definition prepare_loan (snap : Snapshot) (amount : Z) (token : string)
    (route : option string) : option FlashLoanParams :=
  let provider :=
    if truthy route then route
    else option_map venue_id (get_optimal_provider snap amount) in
  if negb (truthy provider) then None
  else
    Some {| provider := default EmptyString provider;
            token_address := token;
            amount := amount;
            callback_data := [];
            expected_profit := 0;
            max_slippage := literal (5 # 1000) |}.

End FlashLoan.

(** ** mevbot/core/utils/math.py *)

Module GasMath.
Import Py.
Local Open Scope Q_scope.

(** [numpy.argmax]: the first index of the largest element. *)
Fixpoint argmax_from (l : list Q) (i best_i : nat) (best : Q) : nat :=
  match l with
  | [] => best_i
  | y :: rest =>
      if Qltb best y then argmax_from rest (S i) i y
      else argmax_from rest (S i) best_i best
  end.

Definition argmax (l : list Q) : option nat :=
  match l with
  | [] => None
  | x :: rest => Some (argmax_from rest 1 0 x)
  end.

(** [int(x)] of a finite float: truncation toward zero. *)
Definition truncate (x : Q) : Z := Z.quot (Qnum x) (Zpos (Qden x)).

(** [optimize_gas_vectorized] on arrays of finite floats.  The routine
    compares and selects and does no arithmetic, so the elements are the
    rationals they denote. *)
Definition optimize_gas_vectorized (gas_prices success_rates : list Q) : outcome Z :=
  if existsb (fun g => Qltb g 0) gas_prices then Exc ValueError
  else if existsb (fun r => Qltb r 0 || Qgtb r 1) success_rates then Exc ValueError
  else
    match argmax success_rates with
    | None => Exc ValueError
    | Some optimal_index =>
        match nth_error gas_prices optimal_index with
        | Some g => Val (truncate g)
        | None => Exc IndexError
        end
    end.

(** The gas-weighted tip as the specification words it, in exact
    arithmetic: [int(Σ gp_i·w_i · 1.1)] clamped to [21000, 500000]. *)
Definition weighted_sum (gas_prices success_rates : list Q) : Q :=
  fold_right Qplus 0 (zip_with Qmult gas_prices success_rates).

Definition gas_weighted_tip (gas_prices success_rates : list Q) : Z :=
  Z.max 21000 (Z.min 500000
    (truncate (weighted_sum gas_prices success_rates * (11 # 10)))).

(** The sentence of the specification: on equal-length non-empty
    arrays the routine returns the clamped weighted sum. *)
Definition returns_weighted_tip : Prop :=
  forall gas_prices success_rates : list Q,
    List.length gas_prices = List.length success_rates ->
    gas_prices <> [] ->
    optimize_gas_vectorized gas_prices success_rates
    = Val (gas_weighted_tip gas_prices success_rates).

(** The arrays of the test-suite. *)
Definition test_gas_prices : list Q := [40; 50; 60; 70; 80].
Definition test_success_rates : list Q :=
  [95 # 100; 97 # 100; 98 # 100; 99 # 100; 995 # 1000].

(** [calculate_profits_vectorized] on one-dimensional float64 arrays:
    once the lengths are equal, [np.multiply] and the subtraction work
    element by element. *)
Definition calculate_profits_vectorized (prices amounts fees : list Float64.t)
    : outcome (list Float64.t) :=
  if Nat.eqb (List.length prices) 0 || Nat.eqb (List.length amounts) 0
     || Nat.eqb (List.length fees) 0
  then Exc ValueError
  else if negb (Nat.eqb (List.length prices) (List.length amounts)
                && Nat.eqb (List.length amounts) (List.length fees))
  then Exc ValueError
  else
    let raw_profits := zip_with Float64.fmul prices amounts in
    let net_profits := zip_with Float64.fsub raw_profits fees in
    Val net_profits.

(** The three keys that [analyze_opportunities_vectorized] reads from
    [market_data]; [None] is an absent key. *)
Record MarketData : Type := {
  md_prices : option (list Float64.t);
  md_amounts : option (list Float64.t);
  md_fees : option (list Float64.t) }.

(** [np.where(mask)[0]]: the indices at which the mask holds, ascending. *)
Fixpoint where_from (i : nat) (mask : list bool) : list nat :=
  match mask with
  | [] => []
  | b :: rest => if b then i :: where_from (S i) rest else where_from (S i) rest
  end.

Record Opportunities : Type := {
  profitable_indices : list nat;
  expected_profits : list Float64.t }.

Definition analyze_opportunities_vectorized (market_data : MarketData)
    (min_profit : Float64.t) : outcome Opportunities :=
  match md_prices market_data, md_amounts market_data, md_fees market_data with
  | Some prices, Some amounts, Some fees =>
      match calculate_profits_vectorized prices amounts fees with
      | Val profits =>
          Val {| profitable_indices :=
                   where_from 0 (List.map (fun p => Float64.fle min_profit p) profits);
                 expected_profits := profits |}
      | Exc e => Exc e
      end
  | _, _, _ => Exc KeyError
  end.

(** Three opportunities, of which the last two clear a profit of 100. *)
Definition test_market : MarketData := {|
  md_prices := Some [Float64.Fin 100; Float64.Fin 200; Float64.Fin 300];
  md_amounts := Some [Float64.Fin 1; Float64.Fin 2; Float64.Fin 3];
  md_fees := Some [Float64.Fin 10; Float64.Fin 20; Float64.Fin 30] |}.

Definition test_opportunities : Opportunities := {|
  profitable_indices := [1%nat; 2%nat];
  expected_profits := [Float64.Fin 90; Float64.Fin 380; Float64.Fin 870] |}.

(** [BaseStrategy.optimize_gas] of strategy_base.py;
    [default_gas_price] is [config.get('default_gas_price', 50)]. *)
Definition optimize_gas (default_gas_price : Z) (gas_prices success_rates : list Q) : Z :=
  match optimize_gas_vectorized gas_prices success_rates with
  | Val g => g
  | Exc _ => default_gas_price
  end.

End GasMath.

(** Inputs of the scenarios of the specification and of the test-suite. *)
Module Scenario.
Import CircuitBreaker.
Local Open Scope Q_scope.

(** The configuration of the circuit-breaker tests, with the rate window
    of scenario S3 and the default reset and health intervals. *)
Definition config : Config := {|
  cfg_max_position_size := 100;
  cfg_max_gas_price_gwei := 500;
  cfg_max_daily_gas_spend := 10;
  cfg_min_profit_threshold := 1 # 10;
  cfg_max_daily_loss := 5;
  cfg_tx_rate_window := 1;
  cfg_max_tx_per_window := 2;
  cfg_max_slippage := 1 # 100;
  cfg_metrics_reset_interval := 86400;
  cfg_health_check_interval := 60 |}.

(** One ether, 0.2 ether of expected profit, 400 gwei gas price. *)
Definition tx_ok : Tx := {|
  tx_value := Some (10 ^ 18)%Z;
  tx_gasPrice := Some (400 * 10 ^ 9)%Z;
  tx_gas := Some 21000%Z;
  tx_expected_profit := Some (2 * 10 ^ 17)%Z;
  tx_expected_price := None;
  tx_actual_price := None |}.

(** The same with 0.05 ether of expected profit, below the floor. *)
Definition tx_low_profit : Tx := {|
  tx_value := Some (10 ^ 18)%Z;
  tx_gasPrice := Some (400 * 10 ^ 9)%Z;
  tx_gas := Some 21000%Z;
  tx_expected_profit := Some (5 * 10 ^ 16)%Z;
  tx_expected_price := None;
  tx_actual_price := None |}.

(** What [validate_transaction] reads from [tx_low_profit]. *)
Definition details_low_profit : Details := {|
  value := (10 ^ 18)%Z # ether;
  gas_price := (400 * 10 ^ 9)%Z # gwei;
  gas := 21000;
  expected_profit := (5 * 10 ^ 16)%Z # ether |}.

(** What [validate_transaction] reads from [tx_ok]. *)
Definition details_ok : Details := {|
  value := (10 ^ 18)%Z # ether;
  gas_price := (400 * 10 ^ 9)%Z # gwei;
  gas := 21000;
  expected_profit := (2 * 10 ^ 17)%Z # ether |}.

(** The configuration with another position cap or slippage cap, and a
    transaction of the given value, or with a price pair. *)
Definition config_with_position_cap (cap : Q) : Config := {|
  cfg_max_position_size := cap;
  cfg_max_gas_price_gwei := 500;
  cfg_max_daily_gas_spend := 10;
  cfg_min_profit_threshold := 1 # 10;
  cfg_max_daily_loss := 5;
  cfg_tx_rate_window := 1;
  cfg_max_tx_per_window := 2;
  cfg_max_slippage := 1 # 100;
  cfg_metrics_reset_interval := 86400;
  cfg_health_check_interval := 60 |}.

Definition config_with_slippage_cap (cap : Q) : Config := {|
  cfg_max_position_size := 100;
  cfg_max_gas_price_gwei := 500;
  cfg_max_daily_gas_spend := 10;
  cfg_min_profit_threshold := 1 # 10;
  cfg_max_daily_loss := 5;
  cfg_tx_rate_window := 1;
  cfg_max_tx_per_window := 2;
  cfg_max_slippage := cap;
  cfg_metrics_reset_interval := 86400;
  cfg_health_check_interval := 60 |}.

Definition tx_of_value (wei : Z) : Tx := {|
  tx_value := Some wei;
  tx_gasPrice := Some (400 * 10 ^ 9)%Z;
  tx_gas := Some 21000%Z;
  tx_expected_profit := Some (2 * 10 ^ 17)%Z;
  tx_expected_price := None;
  tx_actual_price := None |}.

Definition tx_with_prices (expected actual : Z) : Tx := {|
  tx_value := Some (10 ^ 18)%Z;
  tx_gasPrice := Some (400 * 10 ^ 9)%Z;
  tx_gas := Some 21000%Z;
  tx_expected_profit := Some (2 * 10 ^ 17)%Z;
  tx_expected_price := Some expected;
  tx_actual_price := Some actual |}.

Definition at_time (now : Q) : Clock :=
  {| now_health := now; now_rate := now; now_record := now |}.

Definition fresh : t := init config 0.

(** The breaker after two accepted submissions at 0.1 s and 0.2 s. *)
Definition two_accepted : t :=
  snd (validate_all [(tx_ok, at_time (1 # 10)); (tx_ok, at_time (2 # 10))] fresh).

(** A breaker that an operator has tripped by hand. *)
Definition tripped : t :=
  snd (emergency_shutdown fresh).

End Scenario.

(** * Properties *)

(** ** Rounding to binary64 *)

Module Float64Facts.
Import Float64.
Local Open Scope Q_scope.

Ltac qcompare_hyps :=
  repeat match goal with
         | H : (_ ?= _) = Eq |- _ => apply <- Qeq_alt in H
         | H : (_ ?= _) = Lt |- _ => apply <- Qlt_alt in H
         | H : (_ ?= _) = Gt |- _ => apply <- Qgt_alt in H
         end.

Lemma rne_bounds (x : Q) :
  (Qfloor x <= rne x <= Qfloor x + 1)%Z.
Proof.
  unfold rne. destruct (Qcompare _ _); [destruct (Z.even _)|..]; lia.
Qed.

Lemma rne_mono (x y : Q) : x <= y -> (rne x <= rne y)%Z.
Proof.
  intros Hxy. pose proof (Qfloor_resp_le _ _ Hxy) as Hf.
  destruct (Z.eq_dec (Qfloor x) (Qfloor y)) as [E|NE].
  - unfold rne. rewrite <- E.
    destruct (Qcompare (x - inject_Z (Qfloor x)) (1 # 2)) eqn:Cx;
      destruct (Qcompare (y - inject_Z (Qfloor x)) (1 # 2)) eqn:Cy;
      try (destruct (Z.even (Qfloor x))); try lia;
      qcompare_hyps; exfalso; lra.
  - pose proof (rne_bounds x). pose proof (rne_bounds y). lia.
Qed.

Lemma rne_Z (n : Z) : rne (inject_Z n) = n.
Proof.
  unfold rne. rewrite Qfloor_Z.
  destruct (Qcompare (inject_Z n - inject_Z n) (1 # 2)) eqn:C;
    qcompare_hyps; [exfalso; lra | reflexivity | exfalso; lra].
Qed.

Lemma rne_le_Z (x : Q) (n : Z) : x <= inject_Z n -> (rne x <= n)%Z.
Proof. intros H. rewrite <- (rne_Z n). apply rne_mono. exact H. Qed.

Lemma rne_ge_Z (x : Q) (n : Z) : inject_Z n <= x -> (n <= rne x)%Z.
Proof. intros H. rewrite <- (rne_Z n). apply rne_mono. exact H. Qed.


(** Powers of two. *)
Lemma two_ne_0 : ~ (2 : Q) == 0.
Proof. discriminate. Qed.

Lemma pow2_pos (k : Z) : 0 < 2 ^ k.
Proof. apply Qpower_0_lt. reflexivity. Qed.

Lemma pow2_le (n m : Z) : (n <= m)%Z -> 2 ^ n <= 2 ^ m.
Proof. intros H. apply Qpower_le_compat_l; [exact H | discriminate]. Qed.

Lemma pow2_lt (n m : Z) : (n < m)%Z -> 2 ^ n < 2 ^ m.
Proof. intros H. apply Qpower_lt_compat_l; [exact H | reflexivity]. Qed.

Lemma pow2_lt_inv (n m : Z) : 2 ^ n < 2 ^ m -> (n < m)%Z.
Proof. intros H. apply (Qpower_lt_compat_l_inv 2); [exact H | reflexivity]. Qed.

Lemma pow2_Z (n : Z) : (0 <= n)%Z -> inject_Z (2 ^ n) == 2 ^ n.
Proof. intros H. apply (Zpower_Qpower 2 n H). Qed.

Lemma rne_le_pow2 (x : Q) (n : Z) :
  (0 <= n)%Z -> x <= 2 ^ n -> inject_Z (rne x) <= 2 ^ n.
Proof.
  intros Hn H. pose proof (pow2_Z Hn) as E.
  assert (H' : x <= inject_Z (2 ^ n)) by (rewrite E; exact H).
  apply rne_le_Z in H'. rewrite <- E. rewrite <- Zle_Qle. exact H'.
Qed.

Lemma rne_ge_pow2 (x : Q) (n : Z) :
  (0 <= n)%Z -> 2 ^ n <= x -> 2 ^ n <= inject_Z (rne x).
Proof.
  intros Hn H. pose proof (pow2_Z Hn) as E.
  assert (H' : inject_Z (2 ^ n) <= x) by (rewrite E; exact H).
  apply rne_ge_Z in H'. rewrite <- E. rewrite <- Zle_Qle. exact H'.
Qed.

Lemma pow2_div (n m : Z) : 2 ^ n / 2 ^ m == 2 ^ (n - m).
Proof. symmetry. apply Qpower_minus. exact two_ne_0. Qed.

(** [ilog2] brackets a positive rational between two powers of two. *)
Lemma ilog2_spec (x : Q) :
  0 < x -> 2 ^ ilog2 x <= x /\ x < 2 ^ (ilog2 x + 1).
Proof.
  intros Hx.
  destruct x as [n d]. 
  assert (Hn : (0 < n)%Z).
  { unfold Qlt in Hx. simpl in Hx. lia. }
  pose proof (Z.log2_spec n Hn) as [Hn1 Hn2].
  pose proof (Z.log2_spec (Zpos d) (Pos2Z.is_pos d)) as [Hd1 Hd2].
  pose proof (Z.log2_nonneg n) as Ha.
  pose proof (Z.log2_nonneg (Zpos d)) as Hb.
  set (a := Z.log2 n) in *. set (b := Z.log2 (Zpos d)) in *.
  assert (Qn1 : 2 ^ a <= inject_Z n).
  { rewrite <- pow2_Z by assumption. rewrite <- Zle_Qle. exact Hn1. }
  assert (Qn2 : inject_Z n < 2 ^ (a + 1)).
  { rewrite <- pow2_Z by lia. rewrite <- Zlt_Qlt. exact Hn2. }
  assert (Qd1 : 2 ^ b <= inject_Z (Zpos d)).
  { rewrite <- pow2_Z by assumption. rewrite <- Zle_Qle. exact Hd1. }
  assert (Qd2 : inject_Z (Zpos d) < 2 ^ (b + 1)).
  { rewrite <- pow2_Z by lia. rewrite <- Zlt_Qlt. exact Hd2. }
  assert (Hdpos : 0 < inject_Z (Zpos d)) by reflexivity.
  assert (Ex : n # d == inject_Z n / inject_Z (Zpos d)) by apply Qmake_Qdiv.
  unfold ilog2. simpl Qnum. simpl Qden. fold a. fold b.
  assert (Hup : n # d < 2 ^ (a - b + 1)).
  { rewrite Ex. apply Qlt_shift_div_r; [exact Hdpos|].
    apply Qlt_le_trans with (2 ^ (a + 1)); [exact Qn2|].
    assert (E : 2 ^ (a + 1) == 2 ^ (a - b + 1) * 2 ^ b).
    { rewrite <- Qpower_plus by exact two_ne_0. replace (a - b + 1 + b)%Z with (a + 1)%Z by lia.
      reflexivity. }
    rewrite E. apply Qmult_le_l; [apply pow2_pos | exact Qd1]. }
  assert (Hlo : 2 ^ (a - b - 1) <= n # d).
  { rewrite Ex. apply Qle_shift_div_l; [exact Hdpos|].
    apply Qle_trans with (2 ^ a); [|exact Qn1].
    assert (E : 2 ^ a == 2 ^ (a - b - 1) * 2 ^ (b + 1)).
    { rewrite <- Qpower_plus by exact two_ne_0. replace (a - b - 1 + (b + 1))%Z with a by lia.
      reflexivity. }
    rewrite E. apply Qmult_le_l; [apply pow2_pos | apply Qlt_le_weak; exact Qd2]. }
  destruct (Qle_bool (2 ^ (a - b)) (n # d)) eqn:C.
  - apply Qle_bool_iff in C. split; assumption.
  - split; [exact Hlo|].
    replace (a - b - 1 + 1)%Z with (a - b)%Z by lia.
    apply Qnot_le_lt. intros H. apply Qle_bool_iff in H. congruence.
Qed.

Lemma ilog2_mono (x y : Q) : 0 < x -> x <= y -> (ilog2 x <= ilog2 y)%Z.
Proof.
  intros Hx Hxy.
  destruct (ilog2_spec Hx) as [Hx1 _].
  assert (Hy : 0 < y) by lra.
  destruct (ilog2_spec Hy) as [_ Hy2].
  assert (H : 2 ^ ilog2 x < 2 ^ (ilog2 y + 1)) by lra.
  apply pow2_lt_inv in H. lia.
Qed.

Lemma ulp_exponent_mono (x y : Q) :
  0 < x -> x <= y -> (ulp_exponent x <= ulp_exponent y)%Z.
Proof.
  intros Hx Hxy. unfold ulp_exponent.
  pose proof (ilog2_mono Hx Hxy). lia.
Qed.

(** The scaled significand stays below [2^53], and reaches [2^52]
    outside the subnormal range. *)
Lemma significand_lt (x : Q) : 0 < x -> x / 2 ^ ulp_exponent x < 2 ^ 53.
Proof.
  intros Hx. destruct (ilog2_spec Hx) as [_ H2].
  apply Qlt_shift_div_r; [apply pow2_pos|].
  rewrite <- Qpower_plus by exact two_ne_0.
  apply Qlt_le_trans with (2 ^ (ilog2 x + 1)); [exact H2|].
  apply pow2_le. unfold ulp_exponent. lia.
Qed.

Lemma significand_ge (x : Q) :
  0 < x -> (-1074 < ulp_exponent x)%Z -> 2 ^ 52 <= x / 2 ^ ulp_exponent x.
Proof.
  intros Hx He. destruct (ilog2_spec Hx) as [H1 _].
  apply Qle_shift_div_l; [apply pow2_pos|].
  rewrite <- Qpower_plus by exact two_ne_0.
  apply Qle_trans with (2 ^ ilog2 x); [|exact H1].
  apply pow2_le. unfold ulp_exponent in *. lia.
Qed.

Lemma round_pos_nonneg (x : Q) : 0 < x -> 0 <= round_pos x.
Proof.
  intros Hx. unfold round_pos.
  apply Qmult_le_0_compat; [|apply Qlt_le_weak, pow2_pos].
  change 0 with (inject_Z 0). rewrite <- Zle_Qle.
  apply rne_ge_Z. apply Qle_shift_div_l; [apply pow2_pos|].
  change (inject_Z 0) with 0. rewrite Qmult_0_l. lra.
Qed.

Lemma round_pos_mono (x y : Q) :
  0 < x -> x <= y -> round_pos x <= round_pos y.
Proof.
  intros Hx Hxy. assert (Hy : 0 < y) by lra.
  pose proof (ulp_exponent_mono Hx Hxy) as He.
  unfold round_pos.
  destruct (Z.eq_dec (ulp_exponent x) (ulp_exponent y)) as [E|NE].
  - rewrite <- E. apply Qmult_le_compat_r; [|apply Qlt_le_weak, pow2_pos].
    rewrite <- Zle_Qle. apply rne_mono.
    apply Qmult_le_compat_r; [exact Hxy|].
    apply Qlt_le_weak, Qinv_lt_0_compat, pow2_pos.
  - assert (Hlt : (ulp_exponent x < ulp_exponent y)%Z) by lia.
    assert (Hy' : (-1074 < ulp_exponent y)%Z) by (unfold ulp_exponent in *; lia).
    apply Qle_trans with (2 ^ 53 * 2 ^ ulp_exponent x).
    + apply Qmult_le_compat_r; [|apply Qlt_le_weak, pow2_pos].
      apply rne_le_pow2; [lia|].
      apply Qlt_le_weak, significand_lt. exact Hx.
    + apply Qle_trans with (2 ^ 52 * 2 ^ ulp_exponent y).
      * rewrite <- !Qpower_plus by exact two_ne_0. apply pow2_le. lia.
      * apply Qmult_le_compat_r; [|apply Qlt_le_weak, pow2_pos].
        apply rne_ge_pow2; [lia|].
        apply significand_ge; assumption.
Qed.

Lemma round_pos_le_pow2 (x : Q) (k : Z) :
  0 < x -> x <= 2 ^ k -> (-1074 <= k)%Z -> round_pos x <= 2 ^ k.
Proof.
  intros Hx Hk Hmin. destruct (ilog2_spec Hx) as [H1 _].
  assert (Hl : (ilog2 x <= k)%Z).
  { assert (H : 2 ^ ilog2 x < 2 ^ (k + 1)).
    { apply Qle_lt_trans with (2 ^ k); [lra | apply pow2_lt; lia]. }
    apply pow2_lt_inv in H. lia. }
  assert (He : (ulp_exponent x <= k)%Z) by (unfold ulp_exponent; lia).
  unfold round_pos.
  assert (E : 2 ^ k == 2 ^ (k - ulp_exponent x) * 2 ^ ulp_exponent x).
  { rewrite <- Qpower_plus by exact two_ne_0.
    replace (k - ulp_exponent x + ulp_exponent x)%Z with k by lia. reflexivity. }
  apply Qle_trans with (2 ^ (k - ulp_exponent x) * 2 ^ ulp_exponent x);
    [|rewrite <- E; apply Qle_refl].
  apply Qmult_le_compat_r; [|apply Qlt_le_weak, pow2_pos].
  apply rne_le_pow2; [lia|].
  apply Qle_shift_div_r; [apply pow2_pos|].
  rewrite <- E. exact Hk.
Qed.

(** Rounding is monotone on the non-negative rationals. *)
Lemma RN_mono (x y : Q) : 0 <= x -> x <= y -> fle (RN x) (RN y) = true.
Proof.
  intros Hx Hxy. unfold RN.
  destruct (Qcompare x 0) eqn:Cx; qcompare_hyps; [| exfalso; lra |].
  - destruct (Qcompare y 0) eqn:Cy; qcompare_hyps; [reflexivity | exfalso; lra |].
    cbv zeta. destruct (Qle_bool (2 ^ 1024) (round_pos y)); [reflexivity|].
    simpl. apply Qle_bool_iff. rewrite Qred_correct. apply round_pos_nonneg. exact Cy.
  - assert (Hy : 0 < y) by lra.
    destruct (Qcompare y 0) eqn:Cy; qcompare_hyps; [exfalso; lra | exfalso; lra |].
    pose proof (round_pos_mono Cx Hxy) as Hm.
    cbv zeta.
    destruct (Qle_bool (2 ^ 1024) (round_pos x)) eqn:Ox.
    + apply Qle_bool_iff in Ox.
      assert (Oy : Qle_bool (2 ^ 1024) (round_pos y) = true)
        by (apply Qle_bool_iff; eapply Qle_trans; eassumption).
      rewrite Oy. reflexivity.
    + destruct (Qle_bool (2 ^ 1024) (round_pos y)); [reflexivity|].
      simpl. apply Qle_bool_iff. rewrite !Qred_correct. exact Hm.
Qed.

(** A magnitude up to [2^1023] never overflows. *)
Lemma RN_finite (x : Q) (k : Z) :
  0 <= x -> x <= 2 ^ k -> (-1074 <= k < 1024)%Z ->
  exists q, RN x = Fin q /\ 0 <= q /\ q <= 2 ^ k.
Proof.
  intros Hx Hk Hr. unfold RN.
  destruct (Qcompare x 0) eqn:Cx; qcompare_hyps; [| exfalso; lra |].
  - exists 0. split; [reflexivity|]. split; [lra | apply Qlt_le_weak, pow2_pos].
  - pose proof (@round_pos_le_pow2 x k Cx Hk ltac:(lia)) as Hb.
    pose proof (round_pos_nonneg Cx) as Hn.
    cbv zeta.
    destruct (Qle_bool (2 ^ 1024) (round_pos x)) eqn:O.
    + apply Qle_bool_iff in O.
      assert (H : 2 ^ k < 2 ^ 1024) by (apply pow2_lt; lia).
      exfalso. lra.
    + eexists. split; [reflexivity|]. rewrite Qred_correct. split; assumption.
Qed.

(** What [RN] returns as finite is below the overflow threshold. *)
Lemma RN_Fin_bound (x q : Q) :
  RN x = Fin q -> - 2 ^ 1024 < q /\ q < 2 ^ 1024.
Proof.
  pose proof (pow2_pos 1024) as HP.
  unfold RN. destruct (Qcompare x 0) eqn:Cx; qcompare_hyps; cbv zeta.
  - intros H. inversion H; subst. split; lra.
  - destruct (Qle_bool (2 ^ 1024) (round_pos (- x))) eqn:O; [discriminate|].
    intros H. inversion H; subst. rewrite Qred_correct.
    assert (Hx : 0 < - x) by lra.
    pose proof (round_pos_nonneg Hx).
    assert (round_pos (- x) < 2 ^ 1024).
    { apply Qnot_le_lt. intros C. apply Qle_bool_iff in C. congruence. }
    split; lra.
  - destruct (Qle_bool (2 ^ 1024) (round_pos x)) eqn:O; [discriminate|].
    intros H. inversion H; subst. rewrite Qred_correct.
    pose proof (round_pos_nonneg Cx).
    assert (round_pos x < 2 ^ 1024).
    { apply Qnot_le_lt. intros C. apply Qle_bool_iff in C. congruence. }
    split; lra.
Qed.

Lemma RN_finite_abs (x : Q) (k : Z) :
  - 2 ^ k <= x -> x <= 2 ^ k -> (-1074 <= k < 1024)%Z ->
  exists q, RN x = Fin q.
Proof.
  intros Hlo Hhi Hr.
  destruct (Qlt_le_dec x 0) as [Hneg|Hpos].
  - unfold RN. destruct (Qcompare x 0) eqn:Cx; qcompare_hyps; [exfalso; lra | | exfalso; lra].
    assert (Hx : 0 < - x) by lra.
    assert (Hk : - x <= 2 ^ k) by lra.
    pose proof (@round_pos_le_pow2 (- x) k Hx Hk ltac:(lia)) as Hb.
    cbv zeta. destruct (Qle_bool (2 ^ 1024) (round_pos (- x))) eqn:O.
    + apply Qle_bool_iff in O.
      assert (H : 2 ^ k < 2 ^ 1024) by (apply pow2_lt; lia).
      exfalso. lra.
    + eexists. reflexivity.
  - destruct (@RN_finite x k Hpos Hhi Hr) as (q & Hq & _). eauto.
Qed.

Lemma Qred_inject_Z (n : Z) : Qred (inject_Z n) = inject_Z n.
Proof.
  unfold Qred, inject_Z.
  pose proof (Z.ggcd_gcd n 1) as Hg.
  pose proof (Z.ggcd_correct_divisors n 1) as Hd.
  destruct (Z.ggcd n 1) as [g [r1 r2]]. simpl in *.
  rewrite Z.gcd_1_r in Hg. subst g. destruct Hd as [Hn H1].
  rewrite Z.mul_1_l in Hn, H1. subst. reflexivity.
Qed.

Lemma rne_eq_Z (x : Q) (m : Z) : x == inject_Z m -> rne x = m.
Proof.
  intros E. apply Z.le_antisymm.
  - apply rne_le_Z. rewrite E. apply Qle_refl.
  - apply rne_ge_Z. rewrite E. apply Qle_refl.
Qed.

(** Integers below [2^53] are binary64 values. *)
Lemma RN_integer (n : Z) :
  (0 <= n < 2 ^ 53)%Z -> RN (inject_Z n) = Fin (inject_Z n).
Proof.
  intros [H0 H53].
  destruct (Z.eq_dec n 0%Z) as [->|Hn]; [reflexivity|].
  assert (Hpos : 0 < inject_Z n).
  { change 0 with (inject_Z 0). rewrite <- Zlt_Qlt. lia. }
  unfold RN. destruct (Qcompare (inject_Z n) 0) eqn:C; qcompare_hyps;
    [exfalso; lra | exfalso; lra |].
  destruct (ilog2_spec Hpos) as [Hl _].
  assert (Hlog : (ilog2 (inject_Z n) < 53)%Z).
  { apply pow2_lt_inv. apply Qle_lt_trans with (inject_Z n); [exact Hl|].
    apply Qlt_le_trans with (inject_Z (2 ^ 53)); [rewrite <- Zlt_Qlt; exact H53|].
    rewrite pow2_Z by lia. apply Qle_refl. }
  set (e := ulp_exponent (inject_Z n)).
  assert (He : (e <= 0)%Z) by (unfold e, ulp_exponent; lia).
  assert (Hscaled : inject_Z n / 2 ^ e == inject_Z (n * 2 ^ (- e))).
  { rewrite inject_Z_mult. rewrite pow2_Z by lia.
    rewrite Qpower_opp. reflexivity. }
  assert (Hround : round_pos (inject_Z n) == inject_Z n).
  { unfold round_pos. fold e. rewrite (rne_eq_Z Hscaled).
    rewrite inject_Z_mult. rewrite pow2_Z by lia.
    rewrite <- Qmult_assoc. rewrite <- Qpower_plus by exact two_ne_0.
    replace (- e + e)%Z with 0%Z by lia. change (2 ^ 0) with 1. ring. }
  cbv zeta.
  destruct (Qle_bool (2 ^ 1024) (round_pos (inject_Z n))) eqn:O.
  - apply Qle_bool_iff in O. rewrite Hround in O.
    assert (inject_Z n < 2 ^ 53).
    { apply Qlt_le_trans with (inject_Z (2 ^ 53)); [rewrite <- Zlt_Qlt; exact H53|].
      rewrite pow2_Z by lia. apply Qle_refl. }
    assert (2 ^ 53 < 2 ^ 1024) by (apply pow2_lt; lia).
    exfalso. lra.
  - f_equal. rewrite (Qred_complete _ _ Hround).
    apply Qred_inject_Z.
Qed.

Lemma rne_Qeq (x y : Q) : x == y -> rne x = rne y.
Proof.
  intros E. apply Z.le_antisymm; apply rne_mono; rewrite E; apply Qle_refl.
Qed.

Lemma ilog2_Qeq (x y : Q) : 0 < x -> x == y -> ilog2 x = ilog2 y.
Proof.
  intros Hx E. assert (Hy : 0 < y) by (rewrite <- E; exact Hx).
  apply Z.le_antisymm; apply ilog2_mono; try assumption; rewrite E; apply Qle_refl.
Qed.

Lemma round_pos_Qeq (x y : Q) : 0 < x -> x == y -> round_pos x == round_pos y.
Proof.
  intros Hx E. unfold round_pos, ulp_exponent.
  rewrite (ilog2_Qeq Hx E).
  assert (Es : x / 2 ^ Z.max (ilog2 y - 52) (-1074) == y / 2 ^ Z.max (ilog2 y - 52) (-1074))
    by (rewrite E; reflexivity).
  rewrite (rne_Qeq Es). reflexivity.
Qed.

(** Rounding does not depend on how the rational is written. *)
Lemma RN_Qeq (x y : Q) : x == y -> RN x = RN y.
Proof.
  intros E. unfold RN. rewrite <- (Qcompare_comp x y E 0 0 (Qeq_refl 0)).
  destruct (Qcompare x 0) eqn:C; qcompare_hyps; [reflexivity | |]; cbv zeta.
  - assert (Hx : 0 < - x) by lra.
    assert (E' : - x == - y) by (rewrite E; reflexivity).
    pose proof (round_pos_Qeq Hx E') as Er.
    rewrite <- (Qleb_comp _ _ (Qeq_refl (2 ^ 1024)) _ _ Er).
    destruct (Qle_bool _ _); [reflexivity|].
    f_equal. apply Qred_complete. rewrite Er. reflexivity.
  - pose proof (round_pos_Qeq C E) as Er.
    rewrite <- (Qleb_comp _ _ (Qeq_refl (2 ^ 1024)) _ _ Er).
    destruct (Qle_bool _ _); [reflexivity|].
    f_equal. apply Qred_complete. exact Er.
Qed.

(** The model agrees with the IEEE-754 operations of the Standard Library
    ([SpecFloat], precision 53, exponent bound 1024) on the inputs used
    below. *)
Example agrees_with_SpecFloat_add :
  of_spec_float (SFadd 53 1024 (binary_normalize 53 1024 (2 ^ 53 + 2) 0 false)
                               (binary_normalize 53 1024 1 0 false))
  = fadd (Fin 9007199254740994) (Fin 1).
Proof. vm_compute. reflexivity. Qed.

Example agrees_with_SpecFloat_div :
  of_spec_float (SFdiv 53 1024 (binary_normalize 53 1024 (2 ^ 53 + 2) 0 false)
                               (binary_normalize 53 1024 (2 ^ 53 + 4) 0 false))
  = fdiv (Fin 9007199254740994) (Fin 9007199254740996).
Proof. vm_compute. reflexivity. Qed.

Example agrees_with_SpecFloat_literal :
  of_spec_float (SFdiv 53 1024 (binary_normalize 53 1024 102 0 false)
                               (binary_normalize 53 1024 100 0 false))
  = literal (102 # 100).
Proof. vm_compute. reflexivity. Qed.

Example agrees_with_SpecFloat_mul :
  of_spec_float (SFmul 53 1024 (binary_normalize 53 1024 (10 ^ 17) 0 false)
                               (SFdiv 53 1024 (binary_normalize 53 1024 102 0 false)
                                              (binary_normalize 53 1024 100 0 false)))
  = fmul (Fin 100000000000000000) (literal (102 # 100)).
Proof. vm_compute. reflexivity. Qed.

End Float64Facts.

(** ** Rounding to the decimal context *)

Module DecimalFacts.
Local Open Scope Q_scope.

(** Quotients are rounded to 28 significant digits, half to even. *)
Example decimal_third : Decimal.div 1 3
  = Some (3333333333333333333333333333 # 10000000000000000000000000000).
Proof. vm_compute. reflexivity. Qed.

Example decimal_two_thirds : Decimal.div 2 3
  = Some (6666666666666666666666666667 # 10000000000000000000000000000).
Proof. vm_compute. reflexivity. Qed.

(** A sum drops what lies beyond the 28th digit. *)
Example decimal_attoether_lost : Decimal.add (10 ^ 10) (1 # 10 ^ 18) = Some (10 ^ 10).
Proof. vm_compute. reflexivity. Qed.

(** Ties go to the even neighbour. *)
Example decimal_tie_down : Decimal.add 1 (5 # 10 ^ 28) = Some 1.
Proof. vm_compute. reflexivity. Qed.

Example decimal_tie_up :
  Decimal.add (1000000000000000000000000001 # 10 ^ 27) (5 # 10 ^ 28)
  = Some (Qred (1000000000000000000000000002 # 10 ^ 27)).
Proof. vm_compute. reflexivity. Qed.

(** Unary minus rounds its operand. *)
Example decimal_negation_rounds :
  Decimal.neg (123456789012345678901234567895 # 10)
  = Some (- 12345678901234567890123456790).
Proof. vm_compute. reflexivity. Qed.

(** Short operands give exact results. *)
Example decimal_gas_cost_exact :
  (product ← Decimal.mul 400 21000; Decimal.div product 1000000000) = Some (21 # 2500).
Proof. vm_compute. reflexivity. Qed.

(** A zero divisor raises. *)
Example decimal_division_by_zero (x : Q) : Decimal.div x 0 = None.
Proof. reflexivity. Qed.

(** Zero is a fixed point of the rounding, and what the rounding returns
    is in lowest terms. *)
Lemma decimal_round_zero : Decimal.round 0 = Some 0.
Proof. reflexivity. Qed.

Lemma decimal_round_reduced (x r : Q) : Decimal.round x = Some r -> Qred r = r.
Proof.
  unfold Decimal.round.
  destruct (Qeq_bool x 0); [intros H; inversion H; reflexivity|].
  cbv zeta.
  destruct (Qeq_bool _ 0); [intros H; inversion H; reflexivity|].
  destruct (_ <? _)%Z; [discriminate|].
  intros H. inversion H. apply Qred_complete, Qred_correct.
Qed.

End DecimalFacts.

(** ** The circuit breaker *)

Module CircuitBreakerFacts.
Import Py CircuitBreaker.
Local Open Scope Q_scope.

#[local] Arguments Qplus : simpl never.
#[local] Arguments Qminus : simpl never.
#[local] Arguments Qmult : simpl never.
#[local] Arguments Qdiv : simpl never.
#[local] Arguments Qopp : simpl never.
#[local] Arguments Qabs : simpl never.
#[local] Arguments Qle_bool : simpl never.
#[local] Arguments Qeq_bool : simpl never.
#[local] Arguments Decimal.add : simpl never.
#[local] Arguments Decimal.sub : simpl never.
#[local] Arguments Decimal.mul : simpl never.
#[local] Arguments Decimal.div : simpl never.
#[local] Arguments Decimal.neg : simpl never.
#[local] Arguments Decimal.abs : simpl never.

Lemma Qgtb_false (x y : Q) : Qgtb x y = false <-> x <= y.
Proof.
  unfold Qgtb. rewrite negb_false_iff. apply Qle_bool_iff.
Qed.

Lemma Qgtb_true (x y : Q) : Qgtb x y = true <-> y < x.
Proof.
  unfold Qgtb. rewrite negb_true_iff. split.
  - intros H. apply Qnot_le_lt. intros C. apply Qle_bool_iff in C. congruence.
  - intros H. destruct (Qle_bool x y) eqn:C; [|reflexivity].
    apply Qle_bool_iff in C. lra.
Qed.

Lemma Qle_bool_false (x y : Q) : Qle_bool x y = false <-> y < x.
Proof.
  split.
  - intros H. apply Qnot_le_lt. intros C. apply Qle_bool_iff in C. congruence.
  - intros H. destruct (Qle_bool x y) eqn:C; [|reflexivity].
    apply Qle_bool_iff in C. lra.
Qed.

(** Case analysis on every test of the goal, or of a hypothesis. *)
Ltac split_ifs :=
  repeat (match goal with
          | |- context [if ?b then _ else _] => destruct b eqn:?
          | |- context [match ?o with Some _ => _ | None => _ end] => destruct o eqn:?
          end; simpl in *; try discriminate).

Ltac split_hyp E :=
  repeat (match type of E with
          | context [if ?b then _ else _] => destruct b eqn:?
          | context [match ?o with Some _ => _ | None => _ end] => destruct o eqn:?
          end; simpl in *; try discriminate).

Ltac run_health :=
  unfold _check_system_health, bind, gets, modify, when, trigger_breaker, decimal,
    or_raise, ret, raise, id.

(** The health check can set the triggered flag but never clears it, and
    it leaves a breaker that it does not trigger with the reason it had. *)
Lemma health_keeps_triggered (now : Q) (s : t) :
  triggered s = true -> triggered (snd (_check_system_health now s)) = true.
Proof.
  intros H. run_health.
  repeat (match goal with
          | |- context [if ?b then _ else _] => destruct b
          | |- context [match ?o with Some _ => _ | None => _ end] => destruct o
          end; simpl); auto.
Qed.

Lemma health_untriggered (now : Q) (s : t) :
  triggered (snd (_check_system_health now s)) = false ->
  trigger_reason (snd (_check_system_health now s)) = trigger_reason s.
Proof.
  run_health. split_ifs; intros; try discriminate; reflexivity.
Qed.

Lemma details_pure (tx : Tx) (s : t) :
  snd (transaction_details tx s) = s.
Proof.
  unfold transaction_details, bind, subscript, or_raise, ret, raise.
  split_ifs; reflexivity.
Qed.

(** What the health check can do: reset the day, or look at the
    counters, trigger on what it finds and note the time, or stop at the
    negation of the loss limit when that raises. *)
Lemma health_cases (now : Q) (s : t) :
  limits (snd (_check_system_health now s)) = limits s /\
  enabled (snd (_check_system_health now s)) = enabled s /\
  ((Qgeb (now - last_metrics_reset s) (metrics_reset_interval s) = true /\
    _check_system_health now s
    = (Val tt,
       set_last_metrics_reset now
         (set_tx_timestamps []
            (set_current_daily_pnl 0 (set_current_daily_spend 0 (set_current_size 0 s)))))) \/
   (Qgeb (now - last_metrics_reset s) (metrics_reset_interval s) = false /\
    position_limit (snd (_check_system_health now s)) = position_limit s /\
    gas_limit (snd (_check_system_health now s)) = gas_limit s /\
    profit_metrics (snd (_check_system_health now s)) = profit_metrics s /\
    tx_timestamps (snd (_check_system_health now s)) = tx_timestamps s /\
    last_metrics_reset (snd (_check_system_health now s)) = last_metrics_reset s /\
    ((triggered (snd (_check_system_health now s)) = triggered s /\
      trigger_reason (snd (_check_system_health now s)) = trigger_reason s) \/
     (triggered (snd (_check_system_health now s)) = true /\
      (trigger_reason (snd (_check_system_health now s)) = Some MaximumDailyLossExceeded \/
       (trigger_reason (snd (_check_system_health now s)) = Some PositionLimitExceeded /\
        Qgtb (current_size (position_limit s)) (max_size (position_limit s)) = true) \/
       (trigger_reason (snd (_check_system_health now s)) = Some DailyGasSpendLimitExceeded /\
        Qgtb (current_daily_spend (gas_limit s)) (max_daily_spend (gas_limit s)) = true)))))).
Proof.
  run_health.
  destruct (Qgeb (now - last_metrics_reset s) (metrics_reset_interval s)); simpl.
  { split; [reflexivity|]. split; [reflexivity|]. left. split; reflexivity. }
  destruct (Qgeb (now - last_health_check s) (health_check_interval s)); simpl.
  2: { split; [reflexivity|]. split; [reflexivity|]. right.
       repeat (split; [reflexivity|]). left. split; reflexivity. }
  destruct (Qgtb (current_size (position_limit s)) (max_size (position_limit s))) eqn:H1;
  destruct (Decimal.neg (max_daily_loss (profit_metrics s))) as [limit|]; simpl;
  try destruct (Qle_bool (current_daily_pnl (profit_metrics s)) limit) eqn:H2;
  try destruct (Qgtb (current_daily_spend (gas_limit s)) (max_daily_spend (gas_limit s))) eqn:H3;
  simpl; (split; [reflexivity|]); (split; [reflexivity|]); right;
  (repeat (split; [reflexivity|]));
  first [ left; split; reflexivity
        | right; split; [reflexivity|]; tauto ].
Qed.


(** Two evaluations of one sum give one result. *)
Ltac same_sums :=
  repeat match goal with
         | H : ?x = Some _, H' : ?x = Some _ |- _ =>
             rewrite H in H'; inversion H'; subst; clear H'
         | H : ?x = Some _, H' : ?x = None |- _ =>
             rewrite H in H'; discriminate H'
         | H : Some _ = Some _ |- _ => inversion H; clear H; subst
         | H : Some _ = None |- _ => discriminate H
         | H : None = Some _ |- _ => discriminate H
         end.

Ltac run_checks :=
  unfold _check_position_size, _check_gas_limits, _check_tx_rate, _check_profit_threshold,
    slippage_check, _check_slippage, bind, gets, modify, trigger_breaker, decimal,
    or_raise, ret, raise, id in *.

Lemma gas_cost_steps (d : Details) (product cost : Q) :
  Decimal.mul (gas_price d) (gas d) = Some product ->
  Decimal.div product 1000000000 = Some cost ->
  gas_cost d = Some cost.
Proof. intros H1 H2. unfold gas_cost. rewrite H1. exact H2. Qed.

(** What an accepted call has checked and what it leaves. *)
Lemma accepted_state (tx : Tx) (clk : Clock) (s s' : t) :
  validate_transaction tx clk s = (true, s') ->
  enabled s = true /\
  health_completes clk s = true /\
  triggered (after_health clk s) = false /\
  exists d size cost spend,
    fst (transaction_details tx (after_health clk s)) = Val d /\
    Decimal.add (current_size (position_limit (after_health clk s))) (value d) = Some size /\
    Qgtb size (max_size (position_limit (after_health clk s))) = false /\
    Qgtb (gas_price d) (max_price_gwei (gas_limit (after_health clk s))) = false /\
    gas_cost d = Some cost /\
    Decimal.add (current_daily_spend (gas_limit (after_health clk s))) cost = Some spend /\
    Qgtb spend (max_daily_spend (gas_limit (after_health clk s))) = false /\
    (max_tx_per_window (after_health clk s) <=?
       Z.of_nat (List.length (in_window (now_rate clk) (after_health clk s))))%Z = false /\
    Qltb (expected_profit d)
         (min_profit_threshold (profit_metrics (after_health clk s))) = false /\
    s' = set_current_size size
           (set_tx_timestamps
              (in_window (now_rate clk) (after_health clk s) ++ [now_record clk])
              (set_current_daily_spend spend (after_health clk s))).
Proof.
  unfold after_health, health_completes, in_window. intros E.
  unfold validate_transaction in E.
  destruct (enabled s) eqn:Hen; simpl in E; [|discriminate].
  split; [reflexivity|].
  unfold try_except, validate_checks in E. unfold bind at 1 2 in E.
  destruct (_check_system_health (now_health clk) s) as [[[]|e] s1] eqn:Hs1;
    [|unfold ret in E; simpl in E; discriminate].
  split; [reflexivity|].
  unfold gets at 1 in E. simpl in *.
  destruct (triggered s1) eqn:Hnt; [unfold ret in E; simpl in E; discriminate|].
  split; [reflexivity|].
  pose proof (details_pure tx s1) as Hp.
  destruct (transaction_details tx s1) as [o s1'] eqn:Hd'; simpl in Hp; subst s1'.
  unfold bind at 1 in E; rewrite Hd' in E.
  destruct o as [d|e]; [|simpl in E; discriminate].
  exists d. run_checks. simpl in E.
  destruct (Decimal.add (current_size (position_limit s1)) (value d)) as [size|] eqn:Hsize;
    [|simpl in E; discriminate]. simpl in E.
  destruct (Qgtb size (max_size (position_limit s1))) eqn:G1; [discriminate|]. simpl in E.
  destruct (Qgtb (gas_price d) (max_price_gwei (gas_limit s1))) eqn:G2; [discriminate|].
  destruct (Decimal.mul (gas_price d) (gas d)) as [product|] eqn:Hmul;
    [|simpl in E; discriminate]. simpl in E.
  destruct (Decimal.div product 1000000000) as [cost|] eqn:Hdiv;
    [|simpl in E; discriminate]. simpl in E.
  destruct (Decimal.add (current_daily_spend (gas_limit s1)) cost) as [spend|] eqn:Hspend;
    [|simpl in E; discriminate]. simpl in E.
  destruct (Qgtb spend (max_daily_spend (gas_limit s1))) eqn:G3; [discriminate|]. simpl in E.
  destruct (max_tx_per_window s1 <=? _)%Z eqn:G4; [discriminate|]. simpl in E.
  destruct (Qltb (expected_profit d) (min_profit_threshold (profit_metrics s1))) eqn:G5;
    [discriminate|]. simpl in E.
  exists size, cost, spend.
  repeat (split; [first [reflexivity | assumption
                         | exact (gas_cost_steps Hmul Hdiv)]|]).
  split_hyp E; destruct s1 as [? ? ? ? ? [] [] [] ? ? ? ? ? ?]; simpl in *; same_sums;
    inversion E; subst; reflexivity.
Qed.

(** What a rejecting call of an enabled breaker can have done to the state
    that the health check left: the limits, the position counter and the
    profit-and-loss total are as they were; the gas counter is as it was
    or has grown by a gas cost that fits the daily limit; the timestamps
    are as they were or pruned to the window; the breaker is as it was, or
    triggered with the reason of one of the per-transaction checks. *)
Lemma rejected_state (tx : Tx) (clk : Clock) (s s' : t) :
  enabled s = true ->
  validate_transaction tx clk s = (false, s') ->
  limits s' = limits (after_health clk s) /\
  enabled s' = true /\
  current_size (position_limit s') = current_size (position_limit (after_health clk s)) /\
  current_daily_pnl (profit_metrics s')
    = current_daily_pnl (profit_metrics (after_health clk s)) /\
  (current_daily_spend (gas_limit s')
     = current_daily_spend (gas_limit (after_health clk s)) \/
   exists d cost spend,
     fst (transaction_details tx (after_health clk s)) = Val d /\
     gas_cost d = Some cost /\
     Decimal.add (current_daily_spend (gas_limit (after_health clk s))) cost = Some spend /\
     current_daily_spend (gas_limit s') = spend /\
     Qgtb spend (max_daily_spend (gas_limit (after_health clk s))) = false) /\
  (tx_timestamps s' = tx_timestamps (after_health clk s) \/
   tx_timestamps s' = in_window (now_rate clk) (after_health clk s)) /\
  ((triggered s' = triggered (after_health clk s) /\
    trigger_reason s' = trigger_reason (after_health clk s)) \/
   (triggered s' = true /\
    exists r, trigger_reason s' = Some r /\ counter_reason (Some r) = false)).
Proof.
  unfold after_health, in_window. intros Hen E.
  unfold validate_transaction in E. rewrite Hen in E. simpl in E.
  assert (He1 : enabled (snd (_check_system_health (now_health clk) s)) = true).
  { destruct (health_cases (now_health clk) s) as (_ & -> & _). exact Hen. }
  unfold try_except, validate_checks in E. unfold bind at 1 2 in E.
  destruct (_check_system_health (now_health clk) s) as [[[]|e] s1] eqn:Hs1; simpl in He1.
  2: { unfold ret in E. simpl in E. inversion E; subst. tauto. }
  unfold gets at 1 in E. simpl in *.
  destruct (triggered s1) eqn:Hnt.
  { unfold ret in E. inversion E; subst. rewrite Hnt. tauto. }
  pose proof (details_pure tx s1) as Hp.
  destruct (transaction_details tx s1) as [o s1'] eqn:Hd'; simpl in Hp; subst s1'.
  unfold bind at 1 in E; rewrite Hd' in E.
  destruct o as [d|e].
  2: { unfold ret in E. simpl in E. inversion E; subst. rewrite Hnt. tauto. }
  run_checks. simpl in E.
  destruct (Decimal.add (current_size (position_limit s1)) (value d)) as [size|] eqn:Hsize;
    simpl in E.
  2: { inversion E; subst. rewrite Hnt. tauto. }
  destruct (Qgtb size (max_size (position_limit s1))) eqn:G1.
  { inversion E; subst; simpl. rewrite He1.
    repeat (split; [reflexivity || (left; reflexivity)|]).
    right. split; [reflexivity|]. eexists. split; reflexivity. }
  simpl in E.
  destruct (Qgtb (gas_price d) (max_price_gwei (gas_limit s1))) eqn:G2.
  { inversion E; subst; simpl. rewrite He1.
    repeat (split; [reflexivity || (left; reflexivity)|]).
    right. split; [reflexivity|]. eexists. split; reflexivity. }
  destruct (Decimal.mul (gas_price d) (gas d)) as [product|] eqn:Hmul; simpl in E.
  2: { inversion E; subst. rewrite Hnt. tauto. }
  destruct (Decimal.div product 1000000000) as [cost|] eqn:Hdiv; simpl in E.
  2: { inversion E; subst. rewrite Hnt. tauto. }
  destruct (Decimal.add (current_daily_spend (gas_limit s1)) cost) as [spend|] eqn:Hspend;
    simpl in E.
  2: { inversion E; subst. rewrite Hnt. tauto. }
  destruct (Qgtb spend (max_daily_spend (gas_limit s1))) eqn:G3.
  { inversion E; subst; simpl. rewrite He1.
    repeat (split; [reflexivity || (left; reflexivity)|]).
    right. split; [reflexivity|]. eexists. split; reflexivity. }
  simpl in E.
  assert (Hgas : forall x : Q,
             x = spend ->
             x = current_daily_spend (gas_limit s1) \/
             exists d0 cost0 spend0, Val d = Val d0 /\
               gas_cost d0 = Some cost0 /\
               Decimal.add (current_daily_spend (gas_limit s1)) cost0 = Some spend0 /\
               x = spend0 /\
               Qgtb spend0 (max_daily_spend (gas_limit s1)) = false).
  { intros x ->. right. exists d, cost, spend.
    split; [reflexivity|]. split; [exact (gas_cost_steps Hmul Hdiv)|]. auto. }
  destruct (max_tx_per_window s1 <=? _)%Z.
  { inversion E; subst; simpl. rewrite He1, Hnt.
    repeat (split; [reflexivity|]).
    split; [apply Hgas; reflexivity|]. split; [right; reflexivity|].
    left. split; reflexivity. }
  simpl in E.
  destruct (Qltb (expected_profit d) (min_profit_threshold (profit_metrics s1))).
  { inversion E; subst; simpl. rewrite He1.
    repeat (split; [reflexivity|]).
    split; [apply Hgas; reflexivity|]. split; [right; reflexivity|].
    right. split; [reflexivity|]. eexists. split; reflexivity. }
  simpl in E.
  split_hyp E; inversion E; subst; simpl; rewrite ?He1, ?Hnt;
    (repeat (split; [reflexivity|]));
    (split; [apply Hgas; reflexivity|]); (split; [right; reflexivity|]);
    first [ left; split; reflexivity
          | right; split; [reflexivity|]; eexists; split; reflexivity ].
Qed.

Lemma health_daily_loss (now : Q) (s : t) (limit : Q) :
  Qgeb (now - last_metrics_reset s) (metrics_reset_interval s) = false ->
  Qgeb (now - last_health_check s) (health_check_interval s) = true ->
  loss_limit s = Some limit ->
  Qle_bool (current_daily_pnl (profit_metrics s)) limit = true ->
  fst (_check_system_health now s) = Val tt /\
  triggered (snd (_check_system_health now s)) = true /\
  trigger_reason (snd (_check_system_health now s)) <> None.
Proof.
  unfold loss_limit. intros H1 H2 H3 H4. run_health.
  rewrite H1, H2. simpl. 
  destruct (Qgtb (current_size (position_limit s)) (max_size (position_limit s)));
    simpl; rewrite H3; simpl; rewrite H4; simpl;
    destruct (Qgtb (current_daily_spend (gas_limit s)) (max_daily_spend (gas_limit s)));
    simpl; (split; [reflexivity|]); (split; [reflexivity|discriminate]).
Qed.

(** The conjunctions and negations of a hypothesis, taken apart. *)
Ltac split_conditions :=
  repeat match goal with
         | H : _ && _ = true |- _ => apply andb_prop in H as [? ?]
         end;
  repeat match goal with
         | H : negb _ = true |- _ => apply negb_true_iff in H
         end.

(** The sums, products and quotients that a hypothesis on [exceeds] or
    [within] speaks of, named. *)
Ltac name_results :=
  unfold exceeds, within, gas_cost, slippage in *;
  repeat match goal with
         | H : context [match ?o with Some _ => _ | None => _ end] |- _ =>
             destruct o eqn:?; simpl in H; try discriminate H
         | H : context [mbind _ ?o] |- _ =>
             destruct o eqn:?; simpl in H; try discriminate H
         end;
  split_conditions.

Ltac rewrite_results E :=
  revert E;
  repeat match goal with
         | H : ?c = ?v |- _ => rewrite H; simpl
         end; intros E.

Lemma fires_rejects (b : Breaker) (s : t) (tx : Tx) (clk : Clock) :
  b <> TxRate ->
  enabled s = true ->
  fires b tx clk s = true ->
  fst (validate_transaction tx clk s) = false /\
  triggered (snd (validate_transaction tx clk s)) = true /\
  trigger_reason (snd (validate_transaction tx clk s)) <> None.
Proof.
  intros Hb Hen Hf.
  destruct (validate_transaction tx clk s) as [r s'] eqn:E. simpl.
  unfold validate_transaction in E. rewrite Hen in E. simpl in E.
  unfold try_except, validate_checks in E. unfold bind at 1 2 in E.
  destruct b; try congruence.
  6: { unfold fires in Hf. split_conditions.
       destruct (loss_limit s) as [limit|] eqn:Hl; [|discriminate].
       match goal with
       | H1 : Qgeb _ (metrics_reset_interval s) = false,
         H2 : Qgeb _ (health_check_interval s) = true,
         H3 : Qle_bool _ limit = true |- _ =>
           destruct (@health_daily_loss (now_health clk) s limit H1 H2 Hl H3)
             as (Hv & Ht & Hr)
       end.
       destruct (_check_system_health (now_health clk) s) as [o s1]. simpl in *. subst o.
       unfold gets at 1 in E. simpl in E. rewrite Ht in E.
       unfold ret in E. inversion E; subst. auto. }
  all: unfold fires, after_health, health_completes in Hf;
    destruct (_check_system_health (now_health clk) s) as [[[]|e] s1] eqn:Hs1;
    simpl in Hf; try discriminate Hf;
    apply andb_prop in Hf as [Hnt Hf]; apply negb_true_iff in Hnt;
    unfold gets at 1 in E; simpl in E; rewrite Hnt in E;
    pose proof (details_pure tx s1) as Hp;
    destruct (transaction_details tx s1) as [o s1'] eqn:Hd; simpl in Hp; subst s1';
    simpl in Hf; destruct o as [d|e]; try discriminate;
    unfold bind at 1 in E; rewrite Hd in E.
  all: cbv zeta in Hf; split_conditions.
  all: try unfold slippage_exceeded in *.
  all: name_results.
  all: run_checks; simpl in E.
  all: rewrite_results E.
  all: try (inversion E; subst; simpl; split; [reflexivity|split; [reflexivity|discriminate]]).
Qed.

Lemma tx_rate_only_rejects (s : t) (tx : Tx) (clk : Clock) :
  enabled s = true ->
  fires TxRate tx clk s = true ->
  fst (validate_transaction tx clk s) = false /\
  triggered (snd (validate_transaction tx clk s)) = false /\
  trigger_reason (snd (validate_transaction tx clk s)) = trigger_reason s /\
  limits (snd (validate_transaction tx clk s)) = limits s /\
  enabled (snd (validate_transaction tx clk s)) = true /\
  tx_timestamps (snd (validate_transaction tx clk s))
    = in_window (now_rate clk) (after_health clk s).
Proof.
  intros Hen Hf.
  destruct (validate_transaction tx clk s) as [r s'] eqn:E. simpl.
  unfold validate_transaction in E. rewrite Hen in E. simpl in E.
  pose proof (@health_untriggered (now_health clk) s) as Hr.
  destruct (health_cases (now_health clk) s) as (Hl & He & _).
  unfold try_except, validate_checks in E. unfold bind at 1 2 in E.
  unfold fires, after_health, health_completes, in_window in *.
  destruct (_check_system_health (now_health clk) s) as [[[]|e] s1] eqn:Hs1;
    simpl in Hf, Hr, Hl, He; try discriminate Hf.
  apply andb_prop in Hf as [Hnt Hf]; apply negb_true_iff in Hnt.
  unfold gets at 1 in E; simpl in E; rewrite Hnt in E. specialize (Hr Hnt).
  pose proof (details_pure tx s1) as Hp.
  destruct (transaction_details tx s1) as [o s1'] eqn:Hd; simpl in Hp; subst s1'.
  simpl in Hf; destruct o as [d|e]; try discriminate.
  unfold bind at 1 in E; rewrite Hd in E.
  cbv zeta in Hf. split_conditions. name_results.
  run_checks; simpl in E.
  rewrite_results E.
  inversion E; subst; simpl. rewrite Hnt.
  split; [reflexivity|]. split; [reflexivity|]. split; [exact Hr|].
  split; [exact Hl|]. split; [congruence|reflexivity].
Qed.

Lemma validate_while_triggered (tx : Tx) (clk : Clock) (s : t) :
  triggered s = true ->
  fst (validate_transaction tx clk s) = false /\
  triggered (snd (validate_transaction tx clk s)) = true.
Proof.
  intros H. unfold validate_transaction.
  destruct (enabled s); simpl; [|auto].
  pose proof (@health_keeps_triggered (now_health clk) s H) as Ht.
  unfold try_except, validate_checks, bind, gets, ret.
  destruct (_check_system_health (now_health clk) s) as [[[]|e] s1]; simpl in Ht.
  - rewrite Ht. simpl. auto.
  - simpl. auto.
Qed.

Lemma validate_all_while_triggered (calls : list (Tx * Clock)) (s : t) :
  triggered s = true ->
  Forall (fun b => b = false) (fst (validate_all calls s)) /\
  triggered (snd (validate_all calls s)) = true.
Proof.
  revert s. induction calls as [|[tx clk] rest IH]; intros s H; simpl.
  - split; [constructor | assumption].
  - destruct (validate_while_triggered tx clk H) as [Hb Hs].
    destruct (validate_transaction tx clk s) as [b s1]. simpl in Hb, Hs.
    destruct (IH s1 Hs) as [Hbs Hfin].
    destruct (validate_all rest s1) as [bs s2]. simpl in *.
    split; [constructor; assumption | assumption].
Qed.

Lemma reset_clears (now : Q) (s : t) :
  triggered (reset_breaker now s) = false /\
  trigger_reason (reset_breaker now s) = None.
Proof. split; reflexivity. Qed.

(** What [record_profit_loss] leaves: the rounded total, when the sum
    does not raise, and the triggered flag set when the total is at or
    below the loss limit. *)
Lemma record_profit_loss_state (amount : Q) (s : t) :
  limits (snd (record_profit_loss amount s)) = limits s /\
  enabled (snd (record_profit_loss amount s)) = enabled s /\
  position_limit (snd (record_profit_loss amount s)) = position_limit s /\
  gas_limit (snd (record_profit_loss amount s)) = gas_limit s /\
  tx_timestamps (snd (record_profit_loss amount s)) = tx_timestamps s /\
  match Decimal.add (current_daily_pnl (profit_metrics s)) amount with
  | Some total =>
      current_daily_pnl (profit_metrics (snd (record_profit_loss amount s))) = total /\
      match loss_limit s with
      | Some limit =>
          triggered (snd (record_profit_loss amount s))
            = triggered s || Qle_bool total limit /\
          (Qle_bool total limit = true ->
           trigger_reason (snd (record_profit_loss amount s))
             = Some MaximumDailyLossExceeded) /\
          (Qle_bool total limit = false ->
           trigger_reason (snd (record_profit_loss amount s)) = trigger_reason s)
      | None =>
          triggered (snd (record_profit_loss amount s)) = triggered s /\
          trigger_reason (snd (record_profit_loss amount s)) = trigger_reason s
      end
  | None => snd (record_profit_loss amount s) = s
  end.
Proof.
  unfold record_profit_loss, loss_limit, bind, gets, modify, when, trigger_breaker,
    decimal, or_raise, ret, raise, id. simpl.
  destruct (Decimal.add (current_daily_pnl (profit_metrics s)) amount) as [total|]; simpl;
    [|repeat split; reflexivity].
  destruct (Decimal.neg (max_daily_loss (profit_metrics s))) as [limit|]; simpl;
    [|repeat split; reflexivity].
  destruct (Qle_bool total limit); simpl; rewrite ?orb_true_r, ?orb_false_r;
    repeat split; try reflexivity; intros; discriminate.
Qed.

(** A call in which no check raises, the health check finds nothing and
    no breaker fires is accepted. *)
Lemma quiet_accepts (tx : Tx) (clk : Clock) (s : t) :
  enabled s = true ->
  raises tx clk s = false ->
  triggered (after_health clk s) = false ->
  (forall b, fires b tx clk s = false) ->
  fst (validate_transaction tx clk s) = true.
Proof.
  intros Hen Hr Hnt Hq.
  pose proof (Hq PositionSize) as Q1. pose proof (Hq GasPrice) as Q2.
  pose proof (Hq DailyGas) as Q3. pose proof (Hq TxRate) as Q4.
  pose proof (Hq MinProfit) as Q5. pose proof (Hq Slippage) as Q6. clear Hq.
  unfold validate_transaction. rewrite Hen. simpl.
  unfold raises in Hr. unfold try_except.
  destruct (validate_checks tx clk s) as [[r|e] s'] eqn:E; simpl in Hr; [|discriminate].
  simpl. clear Hr.
  unfold validate_checks in E. unfold bind at 1 2 in E.
  unfold fires, after_health, health_completes, slippage_exceeded in *.
  destruct (_check_system_health (now_health clk) s) as [[[]|e] s1] eqn:Hs1;
    simpl in *; [|discriminate].
  unfold gets at 1 in E; simpl in E; rewrite Hnt in *. simpl in *.
  pose proof (details_pure tx s1) as Hp.
  destruct (transaction_details tx s1) as [o s1'] eqn:Hd; simpl in Hp; subst s1'.
  destruct o as [d|e]; unfold bind at 1 in E; rewrite Hd in E; [|discriminate].
  simpl in *. unfold exceeds, within, gas_cost, slippage in *.
  run_checks. simpl in E.
  destruct (Decimal.add (current_size (position_limit s1)) (value d)) as [size|];
    simpl in *; [|discriminate].
  destruct (Qgtb size (max_size (position_limit s1))); simpl in *; [discriminate|].
  destruct (Qgtb (gas_price d) (max_price_gwei (gas_limit s1))); simpl in *; [discriminate|].
  destruct (Decimal.mul (gas_price d) (gas d)) as [product|]; simpl in *; [|discriminate].
  destruct (Decimal.div product 1000000000) as [cost|]; simpl in *; [|discriminate].
  destruct (Decimal.add (current_daily_spend (gas_limit s1)) cost) as [spend|];
    simpl in *; [|discriminate].
  destruct (Qgtb spend (max_daily_spend (gas_limit s1))); simpl in *; [discriminate|].
  destruct (max_tx_per_window s1 <=? _)%Z; simpl in *; [discriminate|].
  destruct (Qltb (expected_profit d) (min_profit_threshold (profit_metrics s1)));
    simpl in *; [discriminate|].
  split_hyp E; inversion E; subst; try reflexivity; try discriminate.
Qed.

(** Once every held timestamp has left the window, the rate check of a
    call passes. *)
Lemma tx_rate_quiet_outside_window (tx : Tx) (clk : Clock) (s : t) :
  in_window (now_rate clk) s = [] ->
  (0 < max_tx_per_window s)%Z ->
  fires TxRate tx clk s = false.
Proof.
  intros Hw Hm. unfold fires.
  destruct (health_cases (now_health clk) s) as (Hl & _ & Hc).
  fold (after_health clk s) in Hl, Hc.
  assert (L6 : tx_window (after_health clk s) = tx_window s)
    by (unfold limits in Hl; congruence).
  assert (L7 : max_tx_per_window (after_health clk s) = max_tx_per_window s)
    by (unfold limits in Hl; congruence).
  assert (Hin : List.filter
                  (fun t0 => Qle_bool (now_rate clk - t0) (tx_window (after_health clk s)))
                  (tx_timestamps (after_health clk s)) = []).
  { rewrite L6. destruct Hc as [(_ & Hc)|(_ & _ & _ & _ & -> & _)]; [|exact Hw].
    unfold after_health. rewrite Hc. reflexivity. }
  cbv zeta. rewrite Hin, L7. change (Z.of_nat (List.length (@nil Q))) with 0%Z.
  assert (Hz : (max_tx_per_window s <=? 0)%Z = false) by (apply Z.leb_gt; lia).
  rewrite Hz.
  destruct (fst (transaction_details tx (after_health clk s)));
    rewrite ?andb_false_r; reflexivity.
Qed.

Lemma outside_window_accepts (tx : Tx) (clk : Clock) (s : t) :
  enabled s = true ->
  in_window (now_rate clk) s = [] ->
  (0 < max_tx_per_window s)%Z ->
  raises tx clk s = false ->
  triggered (after_health clk s) = false ->
  (forall b, b <> TxRate -> fires b tx clk s = false) ->
  fst (validate_transaction tx clk s) = true.
Proof.
  intros Hen Hw Hm Hr Hnt Hq.
  apply quiet_accepts; try assumption.
  intros b. destruct b; try (apply Hq; discriminate).
  apply tx_rate_quiet_outside_window; assumption.
Qed.

(** C1.  Once the breaker is triggered, every later call of
    [validate_transaction] returns [False], whatever the transactions and
    the clock readings are, and the breaker stays triggered; the first call
    of [reset_breaker] clears both the triggered flag and its reason. *)
Theorem triggered_blocks_until_reset
    (s : t) (calls : list (Tx * Clock)) (now : Q) :
  triggered s = true ->
  Forall (fun b => b = false) (fst (validate_all calls s)) /\
  triggered (snd (validate_all calls s)) = true /\
  triggered (reset_breaker now (snd (validate_all calls s))) = false /\
  trigger_reason (reset_breaker now (snd (validate_all calls s))) = None.
Proof.
  intros H.
  destruct (validate_all_while_triggered calls H) as [Hall Htr].
  destruct (reset_clears now (snd (validate_all calls s))) as [Hr1 Hr2].
  auto.
Qed.

Lemma triggered_blocks_until_reset_witness :
  triggered Scenario.tripped = true /\
  Forall (fun b => b = false)
    (fst (validate_all [(Scenario.tx_ok, Scenario.at_time 1)] Scenario.tripped)) /\
  triggered (snd (validate_all [(Scenario.tx_ok, Scenario.at_time 1)] Scenario.tripped)) = true /\
  triggered (reset_breaker 2 (snd (validate_all [(Scenario.tx_ok, Scenario.at_time 1)] Scenario.tripped))) = false /\
  trigger_reason (reset_breaker 2 (snd (validate_all [(Scenario.tx_ok, Scenario.at_time 1)] Scenario.tripped))) = None.
Proof.
  split; [reflexivity|].
  apply (@triggered_blocks_until_reset Scenario.tripped
           [(Scenario.tx_ok, Scenario.at_time 1)] 2).
  reflexivity.
Defined.

(** C2, as the specification states it, fails for the tx-rate breaker:
    two submissions inside the window make the third one fire the rate
    check, and the breaker is not triggered afterwards. *)
Lemma tx_rate_does_not_trip : ~ trips_globally TxRate.
Proof.
  intros H.
  destruct (H Scenario.two_accepted Scenario.tx_ok (Scenario.at_time (3 # 10)))
    as [Ht _]; [vm_compute; reflexivity | vm_compute; reflexivity |].
  vm_compute in Ht. discriminate.
Qed.

(** C2, amended.  The trigger conditions are those the code evaluates, on
    sums, products and quotients that the decimal context has rounded to
    28 significant digits.  For the position-size, gas-price, daily-gas,
    min-profit, slippage and daily-loss breakers: whenever the check of
    the breaker is evaluated in a call of [validate_transaction] and its
    trigger condition holds, the call returns [False], the breaker is
    left triggered with a non-null reason, and every later call returns
    [False] (until a reset, C1).  The tx-rate check only rejects the
    transaction at hand: the call returns [False], the breaker stays
    untriggered and its reason is untouched, and a later submission made
    when every timestamp held has left the window is accepted without a
    reset, provided that [max_tx_per_window] is positive, that nothing
    raises in that later call, that its health check leaves the breaker
    untriggered and that no other breaker fires in it.  The daily-loss
    condition is also evaluated by [record_profit_loss], with the same
    effect: a record that brings the rounded total to the loss limit or
    below leaves the breaker triggered with a reason, and every later
    call of [validate_transaction] returns [False]. *)
Theorem breakers_trip_except_tx_rate
    (b : Breaker) (s : t) (tx : Tx) (clk : Clock) (later : list (Tx * Clock)) :
  (enabled s = true ->
   fires b tx clk s = true ->
   fst (validate_transaction tx clk s) = false /\
   (b <> TxRate ->
      triggered (snd (validate_transaction tx clk s)) = true /\
      trigger_reason (snd (validate_transaction tx clk s)) <> None /\
      Forall (fun r => r = false)
        (fst (validate_all later (snd (validate_transaction tx clk s))))) /\
   (b = TxRate ->
      triggered (snd (validate_transaction tx clk s)) = false /\
      trigger_reason (snd (validate_transaction tx clk s)) = trigger_reason s /\
      forall (tx' : Tx) (clk' : Clock),
        in_window (now_rate clk') (snd (validate_transaction tx clk s)) = [] ->
        (0 < max_tx_per_window s)%Z ->
        raises tx' clk' (snd (validate_transaction tx clk s)) = false ->
        triggered (after_health clk' (snd (validate_transaction tx clk s))) = false ->
        (forall b', b' <> TxRate ->
           fires b' tx' clk' (snd (validate_transaction tx clk s)) = false) ->
        fst (validate_transaction tx' clk' (snd (validate_transaction tx clk s))) = true)) /\
  (forall amount total limit : Q,
     Decimal.add (current_daily_pnl (profit_metrics s)) amount = Some total ->
     loss_limit s = Some limit ->
     Qle_bool total limit = true ->
     triggered (snd (record_profit_loss amount s)) = true /\
     trigger_reason (snd (record_profit_loss amount s)) <> None /\
     Forall (fun r => r = false)
       (fst (validate_all later (snd (record_profit_loss amount s))))).
Proof.
  split.
  - intros Hen Hf.
    assert (b = TxRate \/ b <> TxRate) as [->|Hne]
      by (destruct b; auto; right; discriminate).
    + destruct (tx_rate_only_rejects Hen Hf) as (Hr & Ht & Hreason & Hl & He & Hts).
      split; [assumption|]. split; [congruence|].
      intros _. split; [assumption|]. split; [assumption|].
      intros tx' clk' Hw Hm Hraise Hnt Hq.
      apply outside_window_accepts; try assumption.
      replace (max_tx_per_window (snd (validate_transaction tx clk s)))
        with (max_tx_per_window s) by (unfold limits in Hl; congruence).
      exact Hm.
    + destruct (fires_rejects Hne Hen Hf) as (Hr & Ht & Hreason).
      split; [assumption|]. split; [|congruence].
      intros _. split; [assumption|]. split; [assumption|].
      apply (validate_all_while_triggered later Ht).
  - intros amount total limit Hsum Hlim Hle.
    destruct (record_profit_loss_state amount s) as (_ & _ & _ & _ & _ & H).
    rewrite Hsum, Hlim in H. destruct H as (_ & Ht & Hr & _).
    rewrite Hle, orb_true_r in Ht.
    split; [exact Ht|]. split; [rewrite (Hr Hle); discriminate|].
    apply (validate_all_while_triggered later Ht).
Qed.

(** C10.  Validation is not atomic on rejection.  When the position and
    gas-limit checks of a call pass, the daily gas-spend counter ends the
    call at the sum that the gas check computed, the counter increased by
    the gas cost of the transaction (cost and sum as the decimal context
    rounds them), whatever the call returns: a later rejection by the
    tx-rate, min-profit or slippage check (or an exception raised there)
    does not take the increase back.  The position-size counter becomes
    the rounded sum of the counter and the value of the transaction when
    the call returns [True] and is unchanged when it returns [False]. *)
Theorem gas_spend_kept_on_rejection
    (s : t) (tx : Tx) (clk : Clock) (d : Details) :
  enabled s = true ->
  health_completes clk s = true ->
  triggered (after_health clk s) = false ->
  fst (transaction_details tx (after_health clk s)) = Val d ->
  fst (_check_position_size (value d) (after_health clk s)) = Val true ->
  fst (_check_gas_limits (gas_price d) (gas d) (after_health clk s)) = Val true ->
  exists cost spend size : Q,
    gas_cost d = Some cost /\
    Decimal.add (current_daily_spend (gas_limit (after_health clk s))) cost = Some spend /\
    Decimal.add (current_size (position_limit (after_health clk s))) (value d) = Some size /\
    current_daily_spend (gas_limit (snd (validate_transaction tx clk s))) = spend /\
    current_size (position_limit (snd (validate_transaction tx clk s)))
      = if fst (validate_transaction tx clk s)
        then size
        else current_size (position_limit (after_health clk s)).
Proof.
  unfold after_health, health_completes. intros Hen Hc Hnt Hd Hpos Hgas.
  destruct (validate_transaction tx clk s) as [r s'] eqn:E. simpl.
  unfold validate_transaction in E. rewrite Hen in E. simpl in E.
  unfold try_except, validate_checks in E. unfold bind at 1 2 in E.
  destruct (_check_system_health (now_health clk) s) as [[[]|e] s1] eqn:Hs1;
    simpl in *; [|discriminate].
  unfold gets at 1 in E. simpl in E. rewrite Hnt in E.
  pose proof (details_pure tx s1) as Hp.
  destruct (transaction_details tx s1) as [o s1'] eqn:Hd'; simpl in Hp, Hd; subst s1' o.
  unfold bind at 1 in E; rewrite Hd' in E.
  run_checks. simpl in *.
  destruct (Decimal.add (current_size (position_limit s1)) (value d)) as [size|] eqn:Hsize;
    simpl in *; [|discriminate].
  destruct (Qgtb size (max_size (position_limit s1))); simpl in *; [discriminate|].
  destruct (Qgtb (gas_price d) (max_price_gwei (gas_limit s1))); simpl in *; [discriminate|].
  destruct (Decimal.mul (gas_price d) (gas d)) as [product|] eqn:Hmul;
    simpl in *; [|discriminate].
  destruct (Decimal.div product 1000000000) as [cost|] eqn:Hdiv;
    simpl in *; [|discriminate].
  destruct (Decimal.add (current_daily_spend (gas_limit s1)) cost) as [spend|] eqn:Hspend;
    simpl in *; [|discriminate].
  destruct (Qgtb spend (max_daily_spend (gas_limit s1))); simpl in *; [discriminate|].
  exists cost, spend, size.
  split; [exact (gas_cost_steps Hmul Hdiv)|].
  split; [exact Hspend|]. split; [reflexivity|].
  destruct s1 as [? ? ? ? ? [] [] [] ? ? ? ? ? ?]; simpl in *.
  split_hyp E; same_sums; inversion E; subst; simpl; auto.
Qed.

Lemma breakers_trip_except_tx_rate_witness :
  enabled Scenario.two_accepted = true /\
  fires TxRate Scenario.tx_ok (Scenario.at_time (3 # 10)) Scenario.two_accepted = true /\
  fst (validate_transaction Scenario.tx_ok (Scenario.at_time (3 # 10))
         Scenario.two_accepted) = false /\
  triggered (snd (validate_transaction Scenario.tx_ok (Scenario.at_time (3 # 10))
                    Scenario.two_accepted)) = false /\
  fst (validate_transaction Scenario.tx_ok (Scenario.at_time 2)
         (snd (validate_transaction Scenario.tx_ok (Scenario.at_time (3 # 10))
                 Scenario.two_accepted))) = true.
Proof.
  assert (He : enabled Scenario.two_accepted = true) by (vm_compute; reflexivity).
  assert (Hf : fires TxRate Scenario.tx_ok (Scenario.at_time (3 # 10))
                 Scenario.two_accepted = true) by (vm_compute; reflexivity).
  split; [exact He|]. split; [exact Hf|].
  destruct (proj1 (@breakers_trip_except_tx_rate TxRate Scenario.two_accepted
                     Scenario.tx_ok (Scenario.at_time (3 # 10)) []) He Hf)
    as (Hr & _ & Hrate).
  destruct (Hrate eq_refl) as (Ht & _ & Hlater).
  split; [exact Hr|]. split; [exact Ht|].
  apply Hlater.
  - vm_compute. reflexivity.
  - vm_compute. reflexivity.
  - vm_compute. reflexivity.
  - vm_compute. reflexivity.
  - intros b' _. destruct b'; vm_compute; reflexivity.
Defined.

Lemma gas_spend_kept_on_rejection_witness :
  fst (validate_transaction Scenario.tx_low_profit (Scenario.at_time (3 # 10))
         Scenario.fresh) = false /\
  exists cost spend size : Q,
    gas_cost Scenario.details_low_profit = Some cost /\
    Decimal.add (current_daily_spend
                   (gas_limit (after_health (Scenario.at_time (3 # 10)) Scenario.fresh)))
                cost = Some spend /\
    Decimal.add (current_size
                   (position_limit (after_health (Scenario.at_time (3 # 10)) Scenario.fresh)))
                (value Scenario.details_low_profit) = Some size /\
    current_daily_spend
      (gas_limit (snd (validate_transaction Scenario.tx_low_profit
                         (Scenario.at_time (3 # 10)) Scenario.fresh))) = spend /\
    current_size
      (position_limit (snd (validate_transaction Scenario.tx_low_profit
                              (Scenario.at_time (3 # 10)) Scenario.fresh)))
      = if fst (validate_transaction Scenario.tx_low_profit (Scenario.at_time (3 # 10))
                  Scenario.fresh)
        then size
        else current_size
               (position_limit (after_health (Scenario.at_time (3 # 10)) Scenario.fresh)).
Proof.
  split; [vm_compute; reflexivity|].
  apply (@gas_spend_kept_on_rejection Scenario.fresh Scenario.tx_low_profit
           (Scenario.at_time (3 # 10)) Scenario.details_low_profit);
    vm_compute; reflexivity.
Defined.

(** The sums are those of the decimal context.  A value of 10^28 + 1 wei
    is 10^10 ether and one attoether; added to the counter it rounds to
    10^10, so it fits a cap of 10^10 and leaves the counter at 10^10. *)
Example rounded_value_fits_cap :
  let s := init (Scenario.config_with_position_cap (10 ^ 10)) 0 in
  let tx := Scenario.tx_of_value (10 ^ 28 + 1) in
  fires PositionSize tx (Scenario.at_time 1) s = false /\
  fst (validate_transaction tx (Scenario.at_time 1) s) = true /\
  current_size (position_limit (snd (validate_transaction tx (Scenario.at_time 1) s)))
  = 10 ^ 10.
Proof. repeat split; vm_compute; reflexivity. Qed.

(** A value of 10^28 + 6 wei rounds up in the last place and then
    exceeds a cap of 10^10 ether and 6 attoether. *)
Example rounded_value_exceeds_cap :
  let s := init (Scenario.config_with_position_cap
                   (10000000000000000000000000006 # 1000000000000000000)) 0 in
  let tx := Scenario.tx_of_value (10 ^ 28 + 6) in
  fires PositionSize tx (Scenario.at_time 1) s = true /\
  validate_transaction tx (Scenario.at_time 1) s
  = (false,
     set_trigger true
       (Some (PositionSizeLimitExceeded
                (1000000000000000000000000001 # 100000000000000000)
                (10000000000000000000000000006 # 1000000000000000000)))
       s).
Proof. repeat split; vm_compute; reflexivity. Qed.

(** The slippage of the prices 3 wei and 4 wei is a third, rounded to 28
    threes: it does not exceed a cap of 28 threes. *)
Example rounded_slippage_at_cap :
  let s := init (Scenario.config_with_slippage_cap
                   (3333333333333333333333333333 # 10000000000000000000000000000)) 0 in
  let tx := Scenario.tx_with_prices 3 4 in
  fires Slippage tx (Scenario.at_time 1) s = false /\
  fst (validate_transaction tx (Scenario.at_time 1) s) = true.
Proof. repeat split; vm_compute; reflexivity. Qed.

(** A loss of 4.9 and then one of 0.0999... (28 nines) add up to a total
    that rounds to 5, the loss limit of the scenario: the breaker trips. *)
Example rounded_loss_trips :
  triggered
    (run [RecordProfitLoss (- (49 # 10));
          RecordProfitLoss (- (9999999999999999999999999999
                               # 100000000000000000000000000000))]
       Scenario.fresh) = true.
Proof. vm_compute. reflexivity. Qed.

End CircuitBreakerFacts.

(** ** The safety coordinator *)

Module CoordinatorFacts.
Import Coordinator.

(** C3, as the specification states it, fails: with an empty whitelist a
    transaction to any named contract is rejected. *)
Lemma empty_whitelist_rejects :
  ~ (forall tx_to : option string,
       _validate_contract_interaction (init []) tx_to = true).
Proof.
  intros H. specialize (H (Some "0xffffffffffffffffffffffffffffffffffffffff"%string)).
  vm_compute in H. discriminate.
Qed.

(** C3, amended.  The whitelist check rejects a transaction exactly when
    its [to] address is present, non-empty and not in the configured list.
    An empty list does not switch the check off: it rejects every
    transaction that names a [to] address, and only transactions without
    one pass. *)
Theorem whitelist_rejects_unlisted (s : t) (tx_to : option string) :
  (_validate_contract_interaction s tx_to = false <->
   exists a, tx_to = Some a /\ a <> EmptyString /\ a ∉ contract_whitelist s) /\
  (contract_whitelist s = [] ->
   (_validate_contract_interaction s tx_to = false <->
    exists a, tx_to = Some a /\ a <> EmptyString)).
Proof.
  assert (Hmain : _validate_contract_interaction s tx_to = false <->
                  exists a, tx_to = Some a /\ a <> EmptyString /\ a ∉ contract_whitelist s).
  { unfold _validate_contract_interaction.
    destruct tx_to as [a|].
    - destruct a as [|c a']; simpl.
      + split; [discriminate|]. intros (a & Ha & Hne & _). inversion Ha; subst. congruence.
      + case_bool_decide as Hin.
        * split; [discriminate|]. intros (a & Ha & _ & Hn). inversion Ha; subst. contradiction.
        * split; [|reflexivity]. intros _. eexists. split; [reflexivity|]. split; [discriminate|assumption].
    - split; [discriminate|]. intros (a & Ha & _). discriminate. }
  split; [exact Hmain|].
  intros Hempty. rewrite Hmain, Hempty.
  split.
  - intros (a & Ha & Hne & _). eauto.
  - intros (a & Ha & Hne). exists a. split; [assumption|]. split; [assumption|].
    apply not_elem_of_nil.
Qed.

(** C6, as the specification states it, fails: an [INFO] incident after a
    [CRITICAL] one brings the level back to ["LOW"]. *)
Lemma risk_level_drops_after_critical :
  ~ (forall history : list (EmergencyLevel * Q),
       current_risk_level (metrics (replay history (init []))) =
       derived_risk_level history).
Proof.
  intros H. specialize (H [(CRITICAL, 1%Q); (INFO, 2%Q)]).
  vm_compute in H. discriminate.
Qed.

Lemma replay_snoc (history : list (EmergencyLevel * Q)) (i : EmergencyLevel * Q) (s : t) :
  replay (history ++ [i]) s = record_incident (fst i) (snd i) (replay history s).
Proof. unfold replay. rewrite fold_left_app. reflexivity. Qed.

Lemma record_incident_level (level : EmergencyLevel) (now : Q) (s : t) :
  exited s = false ->
  current_risk_level (metrics (record_incident level now s)) = risk_of_level level.
Proof.
  intros H. unfold record_incident, trigger_shutdown. rewrite H.
  destruct level; simpl; try reflexivity; destruct (shutdown_triggered s); reflexivity.
Qed.

(** C6, amended.  The risk level is a function of the ordered history,
    and it is the level of the most recent incident alone: after any
    history that has not ended the process, recording one more incident
    sets the level to ["HIGH"] for [CRITICAL] and [FATAL], ["MEDIUM"] for
    [WARNING] and ["LOW"] for [INFO], whatever was recorded before.  So a
    lower-severity incident after a higher one does lower the level. *)
Theorem risk_level_follows_last_incident
    (history : list (EmergencyLevel * Q)) (level : EmergencyLevel) (now : Q) (s : t) :
  exited (replay history s) = false ->
  current_risk_level (metrics (replay (history ++ [(level, now)]) s))
  = risk_of_level level.
Proof.
  intros H. rewrite replay_snoc. simpl. apply record_incident_level. exact H.
Qed.

Lemma risk_level_follows_last_incident_witness :
  exited (replay [(CRITICAL, 1%Q)] (init [])) = false /\
  current_risk_level (metrics (replay ([(CRITICAL, 1%Q)] ++ [(INFO, 2%Q)]) (init [])))
  = "LOW"%string.
Proof.
  split; [reflexivity|].
  apply (@risk_level_follows_last_incident [(CRITICAL, 1%Q)] INFO 2%Q (init [])).
  reflexivity.
Defined.

Lemma whitelist_rejects_unlisted_witness :
  contract_whitelist (init []) = [] /\
  (_validate_contract_interaction (init []) (Some "0xff"%string) = false <->
   exists a, Some "0xff"%string = Some a /\ a <> EmptyString).
Proof.
  split; [reflexivity|].
  apply (proj2 (whitelist_rejects_unlisted (init []) (Some "0xff"%string))).
  reflexivity.
Defined.

End CoordinatorFacts.

(** ** The pending-transaction store *)

Module MempoolFacts.
Import Py Mempool.

Lemma dict_get_set_eq {A} (k : string) (v : A) (d : list (string * A)) :
  dict_get k (dict_set k v d) = Some v.
Proof.
  induction d as [|[k' v'] rest IH]; simpl.
  - rewrite String.eqb_refl. reflexivity.
  - destruct (String.eqb k k') eqn:E; simpl; rewrite E; [reflexivity | exact IH].
Qed.

Lemma dict_get_set_ne {A} (k k0 : string) (v : A) (d : list (string * A)) :
  k0 <> k -> dict_get k0 (dict_set k v d) = dict_get k0 d.
Proof.
  intros Hne. induction d as [|[k' v'] rest IH]; simpl.
  - destruct (String.eqb k0 k) eqn:E; [apply String.eqb_eq in E; congruence | reflexivity].
  - destruct (String.eqb k k') eqn:E; simpl.
    + apply String.eqb_eq in E. subst k'.
      destruct (String.eqb k0 k) eqn:E0; [apply String.eqb_eq in E0; congruence | reflexivity].
    + rewrite IH. reflexivity.
Qed.

Lemma pending_dict_set (s : t) (k : string) (tx : Transaction) (h : string) :
  pending s h -> pending (set_pending_txs (dict_set k tx (pending_txs s)) s) h.
Proof.
  intros [tx0 H]. unfold pending. simpl.
  destruct (String.eqb_spec h k) as [->|Hne].
  - exists tx. apply dict_get_set_eq.
  - exists tx0. rewrite dict_get_set_ne; assumption.
Qed.

Lemma indexed_add (key h x : string) (index : gmap string (gset string)) :
  indexed (index_add key h index) x -> x = h \/ indexed index x.
Proof.
  intros (k & hs & Hk & Hx). unfold index_add in Hk.
  destruct (decide (key = k)) as [->|Hne].
  - rewrite lookup_insert_eq in Hk. inversion Hk; subst hs.
    apply elem_of_union in Hx as [Hx|Hx].
    + right. destruct (index !! k) as [hs0|] eqn:E; simpl in Hx.
      * exists k, hs0. auto.
      * set_solver.
    + left. set_solver.
  - rewrite lookup_insert_ne in Hk by assumption. right. exists k, hs. auto.
Qed.

Lemma index_add_keeps (key h p x : string) (index : gmap string (gset string)) (hs : gset string) :
  index !! p = Some hs -> x ∈ hs ->
  exists hs', index_add key h index !! p = Some hs' /\ x ∈ hs'.
Proof.
  intros Hp Hx. unfold index_add.
  destruct (decide (key = p)) as [->|Hne].
  - rewrite lookup_insert_eq, Hp. simpl. eexists. split; [reflexivity|]. set_solver.
  - rewrite lookup_insert_ne by assumption. eauto.
Qed.

Lemma index_add_has (key h : string) (index : gmap string (gset string)) :
  exists hs', index_add key h index !! key = Some hs' /\ h ∈ hs'.
Proof.
  unfold index_add. rewrite lookup_insert_eq. eexists. split; [reflexivity|]. set_solver.
Qed.

(** C7, as the specification states it, fails: the hooks of the source
    identify nothing, so a processed transaction sits in the primary
    table without an entry in either index. *)
Lemma processed_transaction_not_indexed :
  ~ fully_indexed
      (_process_transaction "0xaa"
         (Some {| raw_from := Some "0x01"%string; raw_to := None; raw_value := None;
                  raw_gasPrice := None; raw_gas := None; raw_nonce := None;
                  raw_input := None |})
         1%Q (init 60%Q)).
Proof.
  intros H. destruct (H "0xaa"%string) as [[_ Hp] _].
  destruct Hp as (key & hs & Hk & _).
  - eexists. vm_compute. reflexivity.
  - vm_compute in Hk. discriminate.
Qed.

Section Hooks.

Variable identify_protocol : list Byte.byte -> option string.
Variable identify_token : option string -> option string.

#[local] Abbreviation update := (update_indexes_with identify_protocol identify_token).

Lemma update_pending (tr : Transaction) (s : t) :
  pending_txs (update tr s) = pending_txs s /\
  enable_custom_indexing (update tr s) = enable_custom_indexing s.
Proof.
  unfold update, update_indexes_with.
  destruct (truthy (identify_protocol _)), (truthy (identify_token _)); auto.
Qed.

Lemma update_protocol_indexed (tr : Transaction) (s : t) (x : string) :
  indexed (index_by_protocol (update tr s)) x ->
  x = hash tr \/ indexed (index_by_protocol s) x.
Proof.
  unfold update, update_indexes_with.
  destruct (truthy (identify_protocol _)), (truthy (identify_token _)); simpl;
    intros H; try apply indexed_add in H; tauto.
Qed.

Lemma update_token_indexed (tr : Transaction) (s : t) (x : string) :
  indexed (index_by_token (update tr s)) x ->
  x = hash tr \/ indexed (index_by_token s) x.
Proof.
  unfold update, update_indexes_with.
  destruct (truthy (identify_protocol _)), (truthy (identify_token _)); simpl;
    intros H; try apply indexed_add in H; tauto.
Qed.

Lemma update_protocol_keeps (tr : Transaction) (s : t) (p x : string) (hs : gset string) :
  index_by_protocol s !! p = Some hs -> x ∈ hs ->
  exists hs', index_by_protocol (update tr s) !! p = Some hs' /\ x ∈ hs'.
Proof.
  unfold update, update_indexes_with.
  destruct (truthy (identify_protocol _)), (truthy (identify_token _)); simpl;
    eauto using index_add_keeps.
Qed.

Lemma update_token_keeps (tr : Transaction) (s : t) (k x : string) (hs : gset string) :
  index_by_token s !! k = Some hs -> x ∈ hs ->
  exists hs', index_by_token (update tr s) !! k = Some hs' /\ x ∈ hs'.
Proof.
  unfold update, update_indexes_with.
  destruct (truthy (identify_protocol _)), (truthy (identify_token _)); simpl;
    eauto using index_add_keeps.
Qed.

Lemma update_protocol_adds (tr : Transaction) (s : t) (p : string) :
  identify_protocol (data tr) = Some p -> truthy (Some p) = true ->
  exists hs, index_by_protocol (update tr s) !! p = Some hs /\ hash tr ∈ hs.
Proof.
  intros Hp Ht. unfold update, update_indexes_with. rewrite Hp, Ht. simpl.
  destruct (truthy (identify_token _)); simpl; apply index_add_has.
Qed.

Lemma update_token_adds (tr : Transaction) (s : t) (k : string) :
  identify_token (to_address tr) = Some k -> truthy (Some k) = true ->
  exists hs, index_by_token (update tr s) !! k = Some hs /\ hash tr ∈ hs.
Proof.
  intros Hk Ht. unfold update, update_indexes_with. rewrite Hk, Ht. simpl.
  destruct (truthy (identify_protocol _)); simpl; apply index_add_has.
Qed.

(** Processing keeps the indices consistent with the primary table,
    whatever the two hooks compute. *)
Lemma process_keeps_consistent
    (tx_hash : string) (fetched : option RawTx) (now : Q) (s : t) :
  consistent identify_protocol identify_token s ->
  consistent identify_protocol identify_token
    (process_transaction_with identify_protocol identify_token tx_hash fetched now s).
Proof.
  intros (H1 & H2 & H3). unfold process_transaction_with.
  destruct fetched as [tx|]; [|exact (conj H1 (conj H2 H3))].
  destruct (raw_from tx) as [sender|]; [|exact (conj H1 (conj H2 H3))].
  set (tr := {| hash := tx_hash; from_address := sender; to_address := raw_to tx;
                value := default 0%Z (raw_value tx);
                gas_price := default 0%Z (raw_gasPrice tx);
                gas_limit := default 0%Z (raw_gas tx);
                nonce := default 0%Z (raw_nonce tx);
                data := default [] (raw_input tx); timestamp := now |}).
  set (s1 := set_pending_txs (dict_set tx_hash tr (pending_txs s)) s).
  assert (Hnew : pending s1 tx_hash) by (exists tr; apply dict_get_set_eq).
  assert (Hold : forall h, pending s h -> pending s1 h)
    by (intros h; apply pending_dict_set).
  destruct (enable_custom_indexing s1) eqn:Hen.
  - fold update. destruct (update_pending tr s1) as [Hp He].
    assert (Hpend : forall h, pending s1 h -> pending (update tr s1) h)
      by (intros h [tx0 Hh]; exists tx0; rewrite Hp; exact Hh).
    split; [|split].
    + intros h Hh. apply Hpend.
      apply update_protocol_indexed in Hh as [->|Hh]; [exact Hnew | auto].
    + intros h Hh. apply Hpend.
      apply update_token_indexed in Hh as [->|Hh]; [exact Hnew | auto].
    + intros _ h tx0 Hget. rewrite Hp in Hget. simpl in Hget.
      destruct (String.eqb_spec h tx_hash) as [->|Hne].
      * rewrite dict_get_set_eq in Hget. inversion Hget; subst tx0.
        split; intros ? ? ?; [eapply update_protocol_adds | eapply update_token_adds]; eauto.
      * rewrite dict_get_set_ne in Hget by assumption.
        destruct (H3 Hen h tx0 Hget) as [Hpr Htk].
        split; intros q Hq Htq.
        -- destruct (Hpr q Hq Htq) as (hs & Hl & Hin).
           eapply update_protocol_keeps; eauto.
        -- destruct (Htk q Hq Htq) as (hs & Hl & Hin).
           eapply update_token_keeps; eauto.
  - split; [|split].
    + intros h Hh. apply Hold. auto.
    + intros h Hh. apply Hold. auto.
    + intros Hen'. simpl in Hen, Hen'. congruence.
Qed.

End Hooks.

(** With the hooks of the source no operation of the store touches an
    index: processing finds no tag, and the removal raises before it
    reaches the indices. *)
Lemma update_indexes_identity (transaction : Transaction) (s : t) :
  _update_indexes transaction s = s.
Proof. reflexivity. Qed.

Lemma process_keeps_indexes (tx_hash : string) (fetched : option RawTx) (now : Q) (s : t) :
  index_by_protocol (_process_transaction tx_hash fetched now s) = index_by_protocol s /\
  index_by_token (_process_transaction tx_hash fetched now s) = index_by_token s.
Proof.
  unfold _process_transaction, process_transaction_with.
  destruct fetched as [tx|]; [|auto].
  destruct (raw_from tx); [|auto].
  match goal with |- context [if ?b then _ else _] => destruct b end; auto.
Qed.

Lemma remove_keeps_indexes (tx_hash : string) (s : t) :
  index_by_protocol (snd (_remove_transaction tx_hash s)) = index_by_protocol s /\
  index_by_token (snd (_remove_transaction tx_hash s)) = index_by_token s.
Proof.
  unfold _remove_transaction, bind, gets, modify, raise, ret, id.
  destruct (dict_get tx_hash (pending_txs s)); [|auto].
  simpl. destruct (enable_custom_indexing s); auto.
Qed.

Lemma for_each_remove_keeps_indexes (hashes : list string) (s : t) :
  index_by_protocol (snd (for_each _remove_transaction hashes s)) = index_by_protocol s /\
  index_by_token (snd (for_each _remove_transaction hashes s)) = index_by_token s.
Proof.
  revert s. induction hashes as [|h rest IH]; intros s; [auto|].
  cbn [for_each]. unfold bind.
  destruct (remove_keeps_indexes h s) as [H1 H2].
  destruct (_remove_transaction h s) as [[[]|e] s1]; simpl in H1, H2.
  - destruct (IH s1) as [E1 E2]. split; congruence.
  - auto.
Qed.

Lemma apply_keeps_indexes (op : Operation) (s : t) :
  index_by_protocol (apply op s) = index_by_protocol s /\
  index_by_token (apply op s) = index_by_token s.
Proof.
  destruct op as [tx_hash fetched now|current_time|tx_hash]; simpl.
  - apply process_keeps_indexes.
  - unfold _cleanup_old_transactions, bind at 1, gets, id.
    apply for_each_remove_keeps_indexes.
  - apply remove_keeps_indexes.
Qed.

Lemma run_keeps_indexes (ops : list Operation) (s : t) :
  index_by_protocol (run ops s) = index_by_protocol s /\
  index_by_token (run ops s) = index_by_token s.
Proof.
  revert s. induction ops as [|op rest IH]; intros s; [auto|].
  simpl. destruct (IH (apply op s)) as [-> ->]. apply apply_keeps_indexes.
Qed.

Lemma empty_indexes_consistent (s : t) :
  index_by_protocol s = ∅ -> index_by_token s = ∅ ->
  consistent _identify_protocol _identify_token s.
Proof.
  intros H1 H2. split; [|split].
  - intros h (k & hs & Hk & _). rewrite H1, lookup_empty in Hk. discriminate.
  - intros h (k & hs & Hk & _). rewrite H2, lookup_empty in Hk. discriminate.
  - intros _ h tx _. split; intros ? C; discriminate C.
Qed.

(** C7, amended.  Processing a new transaction keeps the indices
    consistent with the primary table, whatever the two identification
    hooks compute: every hash held in the by-protocol or the by-token index
    is a key of the primary table, and every pending transaction is in the
    index of each non-empty tag that the hooks give it.  With the hooks of
    the source, which identify nothing, both indices are empty after every
    run of store operations (processing, clean-up, removal) on a manager
    whose indices are empty at the start, as the constructor leaves them:
    no index then holds a hash that the primary table lacks, and no
    pending transaction has an index entry. *)
Theorem store_operations_keep_consistent
    (identify_protocol : list Byte.byte -> option string)
    (identify_token : option string -> option string)
    (tx_hash : string) (fetched : option RawTx) (now : Q) (s : t)
    (ops : list Operation) :
  (consistent identify_protocol identify_token s ->
   consistent identify_protocol identify_token
     (process_transaction_with identify_protocol identify_token tx_hash fetched now s)) /\
  (index_by_protocol s = ∅ ->
   index_by_token s = ∅ ->
   index_by_protocol (run ops s) = ∅ /\
   index_by_token (run ops s) = ∅ /\
   consistent _identify_protocol _identify_token (run ops s)).
Proof.
  split.
  - apply process_keeps_consistent.
  - intros H1 H2. destruct (run_keeps_indexes ops s) as [E1 E2].
    rewrite H1 in E1. rewrite H2 in E2.
    split; [exact E1|]. split; [exact E2|].
    apply empty_indexes_consistent; assumption.
Qed.

(** A store under hooks that name a protocol and a token for every
    transaction: the first processing files the hash in both indices, and
    consistency is kept when a second transaction arrives. *)
Lemma store_operations_keep_consistent_witness :
  let protocol := fun _ : list Byte.byte => Some "uniswap"%string in
  let token := fun _ : option string => Some "weth"%string in
  let raw := Some {| raw_from := Some "0x01"%string; raw_to := None; raw_value := None;
                     raw_gasPrice := None; raw_gas := None; raw_nonce := None;
                     raw_input := None |} in
  let s1 := process_transaction_with protocol token "0xaa" raw 1%Q (init 60%Q) in
  let s2 := process_transaction_with protocol token "0xbb" raw 2%Q s1 in
  pending s1 "0xaa" /\
  indexed (index_by_protocol s1) "0xaa" /\
  indexed (index_by_token s1) "0xaa" /\
  consistent protocol token s2 /\
  indexed (index_by_protocol s2) "0xaa" /\
  indexed (index_by_protocol s2) "0xbb" /\
  index_by_protocol
    (run [Process "0xaa" raw 1%Q; CleanUp 100%Q; Remove "0xbb"] (init 60%Q)) = ∅.
Proof.
  intros protocol token raw s1 s2.
  assert (H0 : consistent protocol token (init 60%Q)).
  { split; [|split].
    - intros h (k & hs & Hk & _). simpl in Hk. rewrite lookup_empty in Hk. discriminate.
    - intros h (k & hs & Hk & _). simpl in Hk. rewrite lookup_empty in Hk. discriminate.
    - intros _ h tx Hget. simpl in Hget. discriminate. }
  pose proof (proj1 (@store_operations_keep_consistent protocol token
                       "0xaa"%string raw 1%Q (init 60%Q) []) H0) as H1.
  fold s1 in H1.
  pose proof (proj1 (@store_operations_keep_consistent protocol token
                       "0xbb"%string raw 2%Q s1 []) H1) as H2.
  fold s2 in H2.
  assert (Hin : forall (s : t) (h : string) (tx : Transaction),
             consistent protocol token s ->
             enable_custom_indexing s = true ->
             dict_get h (pending_txs s) = Some tx ->
             indexed (index_by_protocol s) h /\ indexed (index_by_token s) h).
  { intros s h tx (_ & _ & H) He Hget.
    destruct (H He h tx Hget) as [Hp Ht].
    destruct (Hp "uniswap"%string eq_refl eq_refl) as (hs & Hl & Hh).
    destruct (Ht "weth"%string eq_refl eq_refl) as (hs' & Hl' & Hh').
    split; [exists "uniswap"%string, hs | exists "weth"%string, hs']; auto. }
  split; [eexists; reflexivity|].
  split; [eapply Hin; [exact H1 | reflexivity | reflexivity]|].
  split; [eapply Hin; [exact H1 | reflexivity | reflexivity]|].
  split; [exact H2|].
  split; [eapply Hin; [exact H2 | reflexivity | reflexivity]|].
  split; [eapply Hin; [exact H2 | reflexivity | reflexivity]|].
  apply (proj2 (@store_operations_keep_consistent _identify_protocol _identify_token
                  "0xaa"%string raw 1%Q (init 60%Q)
                  [Process "0xaa" raw 1%Q; CleanUp 100%Q; Remove "0xbb"]));
    reflexivity.
Defined.

(** The removal path of the store: the entry leaves the primary table and
    the method raises [AttributeError] before any index is touched; the
    clean-up stops at the first expired entry. *)
Example remove_transaction_raises :
  let s := _process_transaction "0xaa"
             (Some {| raw_from := Some "0x01"%string; raw_to := None; raw_value := None;
                      raw_gasPrice := None; raw_gas := None; raw_nonce := None;
                      raw_input := None |})
             1%Q (init 60%Q) in
  fst (_remove_transaction "0xaa" s) = Exc AttributeError /\
  pending_txs (snd (_remove_transaction "0xaa" s)) = [].
Proof. split; reflexivity. Qed.

Example cleanup_stops_at_first_expired :
  let raw := Some {| raw_from := Some "0x01"%string; raw_to := None; raw_value := None;
                     raw_gasPrice := None; raw_gas := None; raw_nonce := None;
                     raw_input := None |} in
  let s := _process_transaction "0xbb" raw 2%Q
             (_process_transaction "0xaa" raw 1%Q (init 60%Q)) in
  fst (_cleanup_old_transactions 100%Q s) = Exc AttributeError /\
  List.map fst (pending_txs (snd (_cleanup_old_transactions 100%Q s))) = ["0xbb"%string].
Proof. split; vm_compute; reflexivity. Qed.

End MempoolFacts.

(** ** The numeric kernel *)

Module SIMDFacts.
Import Float64 Float64Facts SIMD.
Local Open Scope Q_scope.

(** The sentence fails on binary64 already at the edge of the integers
    that a float holds exactly: with liquidity 1 the sum [2^53 + 1] rounds
    down to [2^53] and the sum [2^53 + 3] rounds up to [2^53 + 4], so the
    impact falls from 1 to [1 - 2^-52] when the amount grows from [2^53]
    to [2^53 + 2]. *)
Lemma price_impact_not_monotone : ~ price_impact_monotone.
Proof.
  intros H.
  assert (E : fle (price_impact (Fin 9007199254740992) (Fin 1))
                  (price_impact (Fin 9007199254740994) (Fin 1)) = false)
    by (vm_compute; reflexivity).
  rewrite (H 9007199254740992 9007199254740994 1) in E.
  - discriminate E.
  - vm_compute. discriminate.
  - vm_compute. discriminate.
  - vm_compute. reflexivity.
  - vm_compute. reflexivity.
  - vm_compute. reflexivity.
  - vm_compute. reflexivity.
Qed.

Lemma impact_le (a a' l s s' : Q) :
  0 <= a -> a <= a' -> 0 < l -> s == a + l -> s' == a' + l ->
  a / s <= a' / s'.
Proof.
  intros Ha Haa Hl Es Es'.
  assert (Hs : 0 < s) by lra. assert (Hs' : 0 < s') by lra.
  apply Qle_shift_div_l; [exact Hs'|].
  assert (E : a / s * s' == a * s' / s) by (field; lra).
  rewrite E. apply Qle_shift_div_r; [exact Hs|].
  rewrite Es, Es'. nra.
Qed.

(** On integer amounts and liquidities whose sums stay below [2^53]
    nothing is rounded before the division, and the impact is monotone. *)
Lemma price_impact_monotone_integers (a a' l : Z) :
  (0 <= a)%Z -> (a <= a')%Z -> (0 < l)%Z -> (a' + l < 2 ^ 53)%Z ->
  fle (price_impact (Fin (inject_Z a)) (Fin (inject_Z l)))
      (price_impact (Fin (inject_Z a')) (Fin (inject_Z l))) = true.
Proof.
  intros Ha Haa Hl Hb.
  assert (Hsum : forall n : Z, (0 <= n <= a')%Z ->
            fadd (Fin (inject_Z n)) (Fin (inject_Z l)) = Fin (inject_Z (n + l))).
  { intros n Hn. unfold fadd.
    rewrite (@RN_Qeq (inject_Z n + inject_Z l) (inject_Z (n + l)))
      by (rewrite inject_Z_plus; reflexivity).
    apply RN_integer. lia. }
  unfold price_impact. rewrite (Hsum a), (Hsum a') by lia. unfold fdiv.
  assert (Hz : forall n : Z, (0 <= n)%Z -> Qeq_bool (inject_Z (n + l)) 0 = false).
  { intros n Hn. destruct (Qeq_bool (inject_Z (n + l)) 0) eqn:E; [|reflexivity].
    apply Qeq_bool_eq in E. unfold Qeq in E. simpl in E. lia. }
  rewrite (Hz a), (Hz a') by lia.
  assert (Qa : 0 <= inject_Z a) by (change 0 with (inject_Z 0); rewrite <- Zle_Qle; lia).
  assert (Qaa : inject_Z a <= inject_Z a') by (rewrite <- Zle_Qle; lia).
  assert (Ql : 0 < inject_Z l) by (change 0 with (inject_Z 0); rewrite <- Zlt_Qlt; lia).
  apply RN_mono.
  - apply Qle_shift_div_l; [rewrite inject_Z_plus; lra | lra].
  - apply impact_le with (inject_Z l); try assumption;
      rewrite inject_Z_plus; reflexivity.
Qed.

(** Where the two sums [a + l] and [a' + l] are computed without
    rounding error, the computed impact at [a] is at most the computed
    impact at [a']. *)
Lemma price_impact_monotone_exact_sums (a a' l s s' : Q) :
  0 <= a -> a <= a' -> 0 < l ->
  fadd (Fin a) (Fin l) = Fin s -> s == a + l ->
  fadd (Fin a') (Fin l) = Fin s' -> s' == a' + l ->
  fle (price_impact (Fin a) (Fin l)) (price_impact (Fin a') (Fin l)) = true.
Proof.
  intros Ha Haa Hl Hs Es Hs' Es'.
  unfold price_impact. rewrite Hs, Hs'. unfold fdiv.
  assert (Z1 : Qeq_bool s 0 = false).
  { destruct (Qeq_bool s 0) eqn:E; [|reflexivity].
    apply Qeq_bool_eq in E. exfalso. lra. }
  assert (Z2 : Qeq_bool s' 0 = false).
  { destruct (Qeq_bool s' 0) eqn:E; [|reflexivity].
    apply Qeq_bool_eq in E. exfalso. lra. }
  rewrite Z1, Z2.
  apply RN_mono.
  - apply Qle_shift_div_l; [lra|]. lra.
  - apply impact_le with l; assumption.
Qed.

(** C9.  The routine is not monotone on wei amounts, as the claim and
    the test-suite ("higher amounts = higher impact") require it to be:
    with the liquidity 1e20, the three numbers are floats, the amount
    100000000000499728 is above the amount 100000000000499712, and the
    impact computed for it, 0.0009990009990059861, is below the impact
    0.0009990009990059863 computed for the smaller amount.  So the
    sentence of the specification fails of the code. *)
Theorem price_impact_falls_on_wei_amounts :
  RN 100000000000499712 = Fin 100000000000499712 /\
  RN 100000000000499728 = Fin 100000000000499728 /\
  RN 100000000000000000000 = Fin 100000000000000000000 /\
  price_impact (Fin 100000000000499712) (Fin 100000000000000000000)
    = Fin (1151769734877725 # 1152921504606846976) /\
  price_impact (Fin 100000000000499728) (Fin 100000000000000000000)
    = Fin (4607078939510899 # 4611686018427387904) /\
  flt (price_impact (Fin 100000000000499728) (Fin 100000000000000000000))
      (price_impact (Fin 100000000000499712) (Fin 100000000000000000000)) = true /\
  ~ price_impact_monotone.
Proof.
  repeat (split; [vm_compute; reflexivity|]).
  intros H.
  assert (E : fle (price_impact (Fin 100000000000499712) (Fin 100000000000000000000))
                  (price_impact (Fin 100000000000499728) (Fin 100000000000000000000))
              = false) by (vm_compute; reflexivity).
  rewrite (H 100000000000499712 100000000000499728 100000000000000000000) in E.
  - discriminate E.
  - vm_compute. discriminate.
  - vm_compute. discriminate.
  - vm_compute. reflexivity.
  - vm_compute. reflexivity.
  - vm_compute. reflexivity.
  - vm_compute. reflexivity.
Qed.

(** The batch routine applies [price_impact] to each pair. *)
Lemma batch_price_impact_single (a l : t) :
  batch_price_impact [a] [l] = Some [price_impact a l].
Proof. reflexivity. Qed.

End SIMDFacts.

(** ** The sandwich strategy *)

Module SandwichFacts.
Import Float64 Sandwich.

#[local] Arguments RN : simpl never.
#[local] Arguments literal : simpl never.
#[local] Arguments of_Z : simpl never.
#[local] Arguments to_Z : simpl never.
#[local] Arguments fmul : simpl never.
#[local] Arguments fle : simpl never.
#[local] Arguments SIMD.batch_sandwich_optimization : simpl never.
#[local] Arguments _get_pool_liquidity : simpl never.

Ltac binds H := cbv beta iota delta [mbind option_bind] in H.





End SandwichFacts.

(** ** The flash-loan planner *)

Module FlashLoanFacts.
Import Float64 Float64Facts FlashLoan.
Local Open Scope Q_scope.

#[local] Arguments RN : simpl never.
#[local] Arguments literal : simpl never.
#[local] Arguments of_Z : simpl never.
#[local] Arguments fmul : simpl never.

Lemma of_Z_Fin (n : Z) (a : t) :
  of_Z n = Some a -> exists q, a = Fin q /\ - 2 ^ 1024 < q /\ q < 2 ^ 1024.
Proof.
  unfold of_Z. destruct (RN (inject_Z n)) as [q| |] eqn:E; try discriminate.
  intros H. inversion H; subst. exists q. split; [reflexivity|].
  apply RN_Fin_bound with (inject_Z n). exact E.
Qed.

Lemma scaled_fee_finite (q c : Q) :
  - 2 ^ 1024 < q -> q < 2 ^ 1024 -> 0 <= c -> c <= 1 # 1024 ->
  exists f, fmul (Fin q) (Fin c) = Fin f.
Proof.
  intros H1 H2 H3 H4. unfold fmul.
  assert (E : 2 ^ 1024 == 2 ^ 1014 * 1024).
  { change 1024 with (2 ^ 10). rewrite <- Qpower_plus by exact two_ne_0. reflexivity. }
  pose proof (pow2_pos 1014) as HP.
  apply RN_finite_abs with 1014%Z; [| | lia]; rewrite E in H1, H2; nra.
Qed.

Lemma small_literal (c : Q) :
  0 <= c -> c <= 1 # 1024 ->
  exists c', literal c = Fin c' /\ 0 <= c' /\ c' <= 1 # 1024.
Proof.
  intros H0 H1. unfold literal.
  assert (E : 2 ^ (-10) == 1 # 1024) by reflexivity.
  destruct (@RN_finite c (-10)%Z H0) as (c' & Hc & Hlo & Hhi); [rewrite E; exact H1 | lia |].
  exists c'. rewrite E in Hhi. auto.
Qed.

Lemma fee_is_finite (p : Provider) (amount : Z) (fee : t) :
  _get_provider_fee p amount = Some fee -> exists f, fee = Fin f.
Proof.
  unfold _get_provider_fee.
  destruct p; try (intros H; inversion H; eauto; fail);
    (destruct (of_Z amount) as [a|] eqn:Ea; [|discriminate]);
    cbv beta iota delta [mbind option_bind]; intros H; inversion H; subst;
    destruct (of_Z_Fin Ea) as (q & -> & Hlo & Hhi);
    match goal with
    | |- context [literal ?c] =>
        destruct (@small_literal c) as (c' & -> & Hc0 & Hc1);
          [vm_compute; discriminate | vm_compute; discriminate |]
    end;
    apply scaled_fee_finite; assumption.
Qed.

Lemma eligible_fee_unique (snap : Snapshot) (amount : Z) (p : Provider) (g g' : Q) :
  eligible snap amount p g -> eligible snap amount p g' -> g = g'.
Proof.
  intros (_ & H & _) (_ & H' & _). rewrite H in H'. inversion H'. reflexivity.
Qed.

Lemma consider_cases (snap : Snapshot) (amount : Z)
    (acc : option Provider * t) (p : Provider) :
  (exists g, eligible snap amount p g /\
             consider snap amount acc p
             = if flt (Fin g) (snd acc) then (Some p, Fin g) else acc) \/
  ((forall g, ~ eligible snap amount p g) /\ consider snap amount acc p = acc).
Proof.
  unfold consider, eligible.
  destruct (contract snap p) eqn:Hc; simpl.
  2: { right. split; [|reflexivity]. intros g (H & _). discriminate. }
  destruct (_get_provider_fee p amount) as [fee|] eqn:Hf.
  2: { right. split; [|reflexivity]. intros g (_ & H & _). discriminate. }
  destruct (fee_is_finite Hf) as (f & ->).
  destruct (liquidity snap p) as [av|] eqn:Hl.
  2: { right. split; [|reflexivity]. intros g (_ & _ & a & H & _). discriminate. }
  destruct (av <? amount)%Z eqn:Hlt.
  - right. split; [|reflexivity]. intros g (_ & _ & a & H & Hle).
    inversion H; subst. apply Z.ltb_lt in Hlt. lia.
  - left. exists f. split; [|reflexivity].
    split; [reflexivity|]. split; [reflexivity|].
    exists av. split; [reflexivity|]. apply Z.ltb_ge in Hlt. exact Hlt.
Qed.

Lemma consider_keeps_invariant (snap : Snapshot) (amount : Z)
    (seen : list Provider) (acc : option Provider * t) (p : Provider) :
  loop_invariant snap amount seen acc ->
  loop_invariant snap amount (seen ++ [p]) (consider snap amount acc p).
Proof.
  intros Hinv. destruct acc as [best low]. unfold loop_invariant in *. simpl in Hinv.
  destruct (consider_cases snap amount (best, low) p) as [(g & Hel & ->)|(Hne & ->)]; simpl.
  - destruct best as [v|].
    + destruct Hinv as (f & -> & before & after & Hs & Hv & Hb & Ha).
      simpl. destruct (Qle_bool f g) eqn:Hfg; simpl.
      * apply Qle_bool_iff in Hfg.
        exists f. split; [reflexivity|]. exists before, (after ++ [p]).
        split; [rewrite Hs, <- app_assoc; reflexivity|]. split; [exact Hv|].
        split; [exact Hb|].
        intros q h Hin Hq. apply in_app_or in Hin as [Hin|[<-|[]]]; [eauto|].
        rewrite (eligible_fee_unique Hq Hel). exact Hfg.
      * assert (Hlt : g < f).
        { apply Qnot_le_lt. intros C. apply Qle_bool_iff in C. congruence. }
        exists g. split; [reflexivity|]. exists seen, [].
        split; [reflexivity|]. split; [exact Hel|]. split; [|intros ? ? []].
        intros q h Hin Hq. rewrite Hs in Hin.
        apply in_app_or in Hin as [Hin|[<-|Hin]].
        -- specialize (Hb q h Hin Hq). lra.
        -- rewrite (eligible_fee_unique Hq Hv). exact Hlt.
        -- specialize (Ha q h Hin Hq). lra.
    + destruct Hinv as (-> & Hnone). simpl.
      exists g. split; [reflexivity|]. exists seen, [].
      split; [reflexivity|]. split; [exact Hel|]. split; [|intros ? ? []].
      intros q h Hin Hq. exfalso. exact (Hnone q h Hin Hq).
  - destruct best as [v|]; simpl in *.
    + destruct Hinv as (f & -> & before & after & Hs & Hv & Hb & Ha).
      exists f. split; [reflexivity|]. exists before, (after ++ [p]).
      split; [rewrite Hs, <- app_assoc; reflexivity|]. split; [exact Hv|].
      split; [exact Hb|].
      intros q h Hin Hq. apply in_app_or in Hin as [Hin|[<-|[]]]; [eauto|].
      exfalso. exact (Hne h Hq).
    + destruct Hinv as (-> & Hnone). split; [reflexivity|].
      intros q h Hin Hq. apply in_app_or in Hin as [Hin|[<-|[]]].
      * exact (Hnone q h Hin Hq).
      * exact (Hne h Hq).
Qed.

Lemma loop_keeps_invariant (snap : Snapshot) (amount : Z)
    (todo seen : list Provider) (acc : option Provider * t) :
  loop_invariant snap amount seen acc ->
  loop_invariant snap amount (seen ++ todo)
    (fold_left (consider snap amount) todo acc).
Proof.
  revert seen acc. induction todo as [|p rest IH]; intros seen acc Hinv; simpl.
  - rewrite app_nil_r. exact Hinv.
  - replace (seen ++ p :: rest) with ((seen ++ [p]) ++ rest)
      by (rewrite <- app_assoc; reflexivity).
    apply IH. apply consider_keeps_invariant. exact Hinv.
Qed.



End FlashLoanFacts.

(** ** The gas optimiser of utils/math.py *)

Module GasMathFacts.
Import Py GasMath.
Local Open Scope Q_scope.

(** C5, as the specification states it, fails: on the arrays of the
    test-suite the routine returns 80, the gas price at the highest success
    rate, which is not even inside the interval [21000, 500000]. *)
Lemma optimize_gas_is_not_weighted_tip : ~ returns_weighted_tip.
Proof.
  intros H.
  specialize (H test_gas_prices test_success_rates eq_refl ltac:(discriminate)).
  vm_compute in H. discriminate.
Qed.

Lemma argmax_from_spec (L : list Q) (l pre : list Q) (bi : nat) (b : Q) :
  L = pre ++ l ->
  nth_error L bi = Some b ->
  (forall j r, (j < List.length pre)%nat -> nth_error L j = Some r -> r <= b) ->
  (forall j r, (j < bi)%nat -> nth_error L j = Some r -> r < b) ->
  exists r,
    nth_error L (argmax_from l (List.length pre) bi b) = Some r /\
    (forall j r', nth_error L j = Some r' -> r' <= r) /\
    (forall j r', (j < argmax_from l (List.length pre) bi b)%nat ->
                  nth_error L j = Some r' -> r' < r).
Proof.
  revert pre bi b. induction l as [|y rest IH]; intros pre bi b HL Hb Hmax Hfirst.
  - simpl. exists b. split; [exact Hb|]. split; [|exact Hfirst].
    intros j r' Hj. apply (Hmax j r'); [|exact Hj].
    rewrite app_nil_r in HL. subst L.
    apply nth_error_Some. congruence.
  - assert (HL' : L = (pre ++ [y]) ++ rest) by (rewrite <- app_assoc; exact HL).
    assert (Hlen : List.length (pre ++ [y]) = S (List.length pre))
      by (rewrite length_app; simpl; lia).
    assert (Hy : nth_error L (List.length pre) = Some y).
    { rewrite HL. rewrite nth_error_app2 by lia. rewrite Nat.sub_diag. reflexivity. }
    simpl. unfold Qltb. destruct (Qle_bool y b) eqn:C; simpl.
    + apply Qle_bool_iff in C. rewrite <- Hlen. apply IH; try assumption.
      intros j r Hj Hr. rewrite Hlen in Hj.
      destruct (Nat.eq_dec j (List.length pre)) as [->|Hne].
      * rewrite Hy in Hr. inversion Hr; subst. exact C.
      * apply (Hmax j r); [lia | exact Hr].
    + assert (Hlt : b < y).
      { apply Qnot_le_lt. intros H. apply Qle_bool_iff in H. congruence. }
      rewrite <- Hlen. apply IH; try assumption.
      * intros j r Hj Hr. rewrite Hlen in Hj.
        destruct (Nat.eq_dec j (List.length pre)) as [->|Hne].
        -- rewrite Hy in Hr. inversion Hr; subst. apply Qle_refl.
        -- specialize (Hmax j r ltac:(lia) Hr). lra.
      * intros j r Hj Hr. specialize (Hmax j r Hj Hr). lra.
Qed.

Lemma argmax_spec (x : Q) (rest : list Q) :
  exists r,
    nth_error (x :: rest) (argmax_from rest 1 0 x) = Some r /\
    (forall j r', nth_error (x :: rest) j = Some r' -> r' <= r) /\
    (forall j r', (j < argmax_from rest 1 0 x)%nat ->
                  nth_error (x :: rest) j = Some r' -> r' < r).
Proof.
  apply (@argmax_from_spec (x :: rest) rest [x] 0%nat x).
  - reflexivity.
  - reflexivity.
  - intros j r Hj Hr. simpl in Hj. assert (j = 0%nat) by lia. subst.
    inversion Hr; subst. apply Qle_refl.
  - intros j r Hj. lia.
Qed.

Lemma no_negative_price (gas_prices : list Q) :
  Forall (fun g => 0 <= g) gas_prices ->
  existsb (fun g => Qltb g 0) gas_prices = false.
Proof.
  induction 1 as [|g l Hg _ IH]; simpl; [reflexivity|].
  rewrite IH. unfold Qltb.
  apply Qle_bool_iff in Hg. rewrite Hg. reflexivity.
Qed.

Lemma no_invalid_rate (success_rates : list Q) :
  Forall (fun r => 0 <= r /\ r <= 1) success_rates ->
  existsb (fun r => Qltb r 0 || Qgtb r 1) success_rates = false.
Proof.
  induction 1 as [|r l [H0 H1] _ IH]; simpl; [reflexivity|].
  rewrite IH. unfold Qltb, Qgtb.
  apply Qle_bool_iff in H0, H1. rewrite H0, H1. reflexivity.
Qed.

(** C5, amended.  For every pair of equal-length non-empty arrays of
    non-negative gas prices and of success rates between 0 and 1, the
    routine returns [int(gas_prices[k])], where [k] is the first index at
    which the success rate is largest.  No weighted sum, safety margin or
    clamping is applied. *)
Theorem optimize_gas_selects_best_rate (gas_prices success_rates : list Q) :
  List.length gas_prices = List.length success_rates ->
  gas_prices <> [] ->
  Forall (fun g => 0 <= g) gas_prices ->
  Forall (fun r => 0 <= r /\ r <= 1) success_rates ->
  exists (k : nat) (g r : Q),
    nth_error gas_prices k = Some g /\
    nth_error success_rates k = Some r /\
    (forall j r', nth_error success_rates j = Some r' -> r' <= r) /\
    (forall j r', (j < k)%nat -> nth_error success_rates j = Some r' -> r' < r) /\
    optimize_gas_vectorized gas_prices success_rates = Val (truncate g).
Proof.
  intros Hlen Hne Hg Hr. unfold optimize_gas_vectorized.
  rewrite (no_negative_price Hg), (no_invalid_rate Hr).
  destruct success_rates as [|x rest].
  { destruct gas_prices; [congruence | discriminate]. }
  unfold argmax.
  destruct (argmax_spec x rest) as (r & Hk & Hmax & Hfirst).
  set (k := argmax_from rest 1 0 x) in *.
  assert (Hkl : (k < List.length gas_prices)%nat).
  { rewrite Hlen. apply nth_error_Some. congruence. }
  destruct (nth_error gas_prices k) as [g|] eqn:Eg.
  - exists k, g, r. auto.
  - apply nth_error_None in Eg. lia.
Qed.

Lemma optimize_gas_selects_best_rate_witness :
  exists (k : nat) (g r : Q),
    nth_error test_gas_prices k = Some g /\
    nth_error test_success_rates k = Some r /\
    (forall j r', nth_error test_success_rates j = Some r' -> r' <= r) /\
    (forall j r', (j < k)%nat -> nth_error test_success_rates j = Some r' -> r' < r) /\
    optimize_gas_vectorized test_gas_prices test_success_rates = Val (truncate g).
Proof.
  apply (@optimize_gas_selects_best_rate test_gas_prices test_success_rates).
  - reflexivity.
  - discriminate.
  - repeat constructor; vm_compute; discriminate.
  - repeat constructor; vm_compute; discriminate.
Defined.

End GasMathFacts.

(** * Further properties of the embedded code *)
Module BreakerInvariants.
Import Py CircuitBreaker CircuitBreakerFacts.
Local Open Scope Q_scope.

#[local] Arguments Qplus : simpl never.
#[local] Arguments Qminus : simpl never.
#[local] Arguments Qmult : simpl never.
#[local] Arguments Qdiv : simpl never.
#[local] Arguments Qopp : simpl never.
#[local] Arguments Qabs : simpl never.
#[local] Arguments Qle_bool : simpl never.
#[local] Arguments Qeq_bool : simpl never.
#[local] Arguments Decimal.add : simpl never.
#[local] Arguments Decimal.sub : simpl never.
#[local] Arguments Decimal.mul : simpl never.
#[local] Arguments Decimal.div : simpl never.
#[local] Arguments Decimal.neg : simpl never.
#[local] Arguments Decimal.abs : simpl never.

Lemma health_keeps_invariant (now : Q) (s : t) :
  nonnegative_limits (limits s) -> within_limits s ->
  counter_reason (trigger_reason s) = false ->
  nonnegative_limits (limits (snd (_check_system_health now s))) /\
  within_limits (snd (_check_system_health now s)) /\
  counter_reason (trigger_reason (snd (_check_system_health now s))) = false.
Proof.
  intros Hn (Hp & Hg & Ht) Hr.
  destruct (health_cases now s) as (Hl & _ & [(_ & ->)|(_ & E1 & E2 & _ & E4 & _ & Htr)]).
  - simpl. split; [exact Hn|]. destruct Hn as (N1 & N2 & N3).
    split; [|exact Hr]. unfold within_limits. simpl. auto.
  - rewrite Hl. split; [exact Hn|].
    assert (L7 : max_tx_per_window (snd (_check_system_health now s)) = max_tx_per_window s)
      by (unfold limits in Hl; congruence).
    unfold within_limits. rewrite E1, E2, E4, L7. split; [auto|].
    destruct Htr as [(_ & ->)|(_ & [->|[(_ & C)|(_ & C)]])]; auto.
    + apply Qgtb_true in C. lra.
    + apply Qgtb_true in C. lra.
Qed.

Lemma filter_length_le {A} (f : A -> bool) (l : list A) :
  (List.length (List.filter f l) <= List.length l)%nat.
Proof.
  induction l as [|a l IH]; simpl; [lia|]. destruct (f a); simpl; lia.
Qed.

Lemma validate_keeps_invariant (tx : Tx) (clk : Clock) (s : t) :
  nonnegative_limits (limits s) -> within_limits s ->
  counter_reason (trigger_reason s) = false ->
  nonnegative_limits (limits (snd (validate_transaction tx clk s))) /\
  within_limits (snd (validate_transaction tx clk s)) /\
  counter_reason (trigger_reason (snd (validate_transaction tx clk s))) = false.
Proof.
  intros Hn Hw Hr.
  destruct (enabled s) eqn:Hen.
  2: { unfold validate_transaction. rewrite Hen. simpl. auto. }
  destruct (@health_keeps_invariant (now_health clk) s Hn Hw Hr) as (Hn1 & Hw1 & Hr1).
  fold (after_health clk s) in Hn1, Hw1, Hr1.
  destruct (validate_transaction tx clk s) as [[|] s'] eqn:E; simpl.
  - destruct (accepted_state E)
      as (_ & _ & Hnt & d & size & cost & spend & _ & _ & G1 & _ & _ & _ & G3 & G4 & _ & ->).
    apply Qgtb_false in G1, G3. apply Z.leb_gt in G4.
    split; [exact Hn1|]. split.
    + unfold within_limits. simpl. split; [exact G1|]. split; [exact G3|].
      rewrite length_app. simpl. lia.
    + exact Hr1.
  - destruct (rejected_state Hen E) as (Hl & _ & Hc & _ & Hs & Hts & Htr).
    rewrite Hl. split; [exact Hn1|].
    assert (Hl' := Hl). unfold limits in Hl'. inversion Hl' as [[L1 L2 L3 L4 L5 L6 L7 L8 L9 L10]].
    destruct Hw1 as (W1 & W2 & W3).
    split.
    + unfold within_limits. rewrite Hc, L1, L3, L7. split; [exact W1|]. split.
      * destruct Hs as [->|(d & cost & spend & _ & _ & _ & -> & G)]; [exact W2|].
        apply Qgtb_false in G. exact G.
      * destruct Hts as [->| ->]; [exact W3|].
        unfold in_window. pose proof (filter_length_le
          (fun t0 => Qle_bool (now_rate clk - t0) (tx_window (after_health clk s)))
          (tx_timestamps (after_health clk s))). lia.
    + destruct Htr as [(_ & ->)|(_ & r & -> & Hc')]; assumption.
Qed.

Lemma call_keeps_invariant (c : Call) (s : t) :
  nonnegative_limits (limits s) -> within_limits s ->
  counter_reason (trigger_reason s) = false ->
  nonnegative_limits (limits (call c s)) /\
  within_limits (call c s) /\
  counter_reason (trigger_reason (call c s)) = false.
Proof.
  intros Hn Hw Hr. destruct c as [tx clk|amount|now|]; simpl.
  - apply validate_keeps_invariant; assumption.
  - destruct (record_profit_loss_state amount s) as (Hl & _ & E1 & E2 & E4 & H).
    assert (L7 : max_tx_per_window (snd (record_profit_loss amount s)) = max_tx_per_window s)
      by (unfold limits in Hl; congruence).
    rewrite Hl. split; [exact Hn|].
    split; [unfold within_limits; rewrite E1, E2, E4, L7; exact Hw|].
    destruct (Decimal.add (current_daily_pnl (profit_metrics s)) amount) as [total|];
      [|rewrite H; exact Hr].
    destruct H as (_ & H). destruct (loss_limit s) as [limit|].
    + destruct H as (_ & H1 & H2). destruct (Qle_bool total limit).
      * rewrite (H1 eq_refl). reflexivity.
      * rewrite (H2 eq_refl). exact Hr.
    + destruct H as (_ & ->). exact Hr.
  - destruct Hn as (N1 & N2 & N3). unfold within_limits, nonnegative_limits. simpl. auto.
  - auto.
Qed.

Lemma run_keeps_invariant (calls : list Call) (s : t) :
  nonnegative_limits (limits s) -> within_limits s ->
  counter_reason (trigger_reason s) = false ->
  nonnegative_limits (limits (run calls s)) /\
  within_limits (run calls s) /\
  counter_reason (trigger_reason (run calls s)) = false.
Proof.
  revert s. induction calls as [|c rest IH]; intros s Hn Hw Hr; simpl; [auto|].
  destruct (call_keeps_invariant c Hn Hw Hr) as (Hn' & Hw' & Hr').
  apply IH; assumption.
Qed.

Lemma init_invariant (config : Config) (now : Q) :
  nonnegative_limits config ->
  nonnegative_limits (limits (init config now)) /\
  within_limits (init config now) /\
  counter_reason (trigger_reason (init config now)) = false.
Proof.
  intros (N1 & N2 & N3). unfold nonnegative_limits, within_limits. simpl. auto 10.
Qed.

(** X1.  A breaker built from a configuration with non-negative limits
    keeps its counters within the limits through every run of calls of
    [validate_transaction], [record_profit_loss], [reset_breaker] and
    [emergency_shutdown]: the position counter never exceeds
    [max_position_size], the daily gas counter never exceeds
    [max_daily_gas_spend], and never more than [max_tx_per_window]
    timestamps are held. *)
Theorem counters_stay_within_limits (config : Config) (now : Q) (calls : list Call) :
  nonnegative_limits config ->
  within_limits (run calls (init config now)).
Proof.
  intros Hn. destruct (init_invariant now Hn) as (H1 & H2 & H3).
  apply (run_keeps_invariant calls H1 H2 H3).
Qed.

(** X2.  The two counter checks of [_check_system_health] are dead: on a
    breaker built from a configuration with non-negative limits, no run of
    calls ever leaves the reason "Position limit exceeded" or "Daily gas
    spend limit exceeded". *)
Theorem health_counter_checks_never_fire (config : Config) (now : Q) (calls : list Call) :
  nonnegative_limits config ->
  trigger_reason (run calls (init config now)) <> Some PositionLimitExceeded /\
  trigger_reason (run calls (init config now)) <> Some DailyGasSpendLimitExceeded.
Proof.
  intros Hn. destruct (init_invariant now Hn) as (H1 & H2 & H3).
  destruct (run_keeps_invariant calls H1 H2 H3) as (_ & _ & H).
  split; intros C; rewrite C in H; discriminate.
Qed.


Lemma validate_keeps_limits (tx : Tx) (clk : Clock) (s : t) :
  limits (snd (validate_transaction tx clk s)) = limits s /\
  enabled (snd (validate_transaction tx clk s)) = enabled s.
Proof.
  destruct (enabled s) eqn:Hen.
  2: { unfold validate_transaction. rewrite Hen. simpl. auto. }
  destruct (health_cases (now_health clk) s) as (Hl & He & _).
  fold (after_health clk s) in Hl, He.
  destruct (validate_transaction tx clk s) as [[|] s'] eqn:E; simpl.
  - destruct (accepted_state E)
      as (_ & _ & _ & d & size & cost & spend & _ & _ & _ & _ & _ & _ & _ & _ & _ & ->).
    split; [rewrite <- Hl; reflexivity|]. simpl. congruence.
  - destruct (rejected_state Hen E) as (Hl' & He' & _).
    split; congruence.
Qed.

Lemma call_keeps_limits (c : Call) (s : t) :
  limits (call c s) = limits s /\ enabled (call c s) = enabled s.
Proof.
  destruct c as [tx clk|amount|now|]; simpl.
  - apply validate_keeps_limits.
  - destruct (record_profit_loss_state amount s) as (Hl & He & _). auto.
  - auto.
  - auto.
Qed.

(** X3.  No call changes a limit of the breaker or disables it: after every
    run of calls on a breaker built from a configuration, the limits are
    those of the configuration and the breaker is enabled. *)
Theorem limits_never_change (config : Config) (now : Q) (calls : list Call) :
  limits (run calls (init config now)) = config /\
  enabled (run calls (init config now)) = true.
Proof.
  assert (H : forall s, limits (run calls s) = limits s /\ enabled (run calls s) = enabled s).
  { induction calls as [|c rest IH]; intros s; simpl; [auto|].
    destruct (IH (call c s)) as [H1 H2]. destruct (call_keeps_limits c s) as [H3 H4].
    split; congruence. }
  destruct (H (init config now)) as [H1 H2]. rewrite H1, H2.
  destruct config; split; reflexivity.
Qed.

(** X4.  A transaction dict without ['value'], or whose value is negative
    or beyond [2^256 - 1], is rejected without tripping the breaker: the
    call returns [False] and leaves the state that its health check left. *)
Theorem unreadable_value_rejected (tx : Tx) (clk : Clock) (s : t) :
  enabled s = true ->
  (tx_value tx = None \/
   exists v, tx_value tx = Some v /\ (v < 0 \/ 2 ^ 256 - 1 < v)%Z) ->
  validate_transaction tx clk s = (false, after_health clk s).
Proof.
  intros Hen Hv. unfold validate_transaction, after_health. rewrite Hen. simpl.
  unfold try_except, validate_checks. unfold bind at 1 2.
  destruct (_check_system_health (now_health clk) s) as [[[]|e] s1]; [|reflexivity].
  unfold gets at 1. simpl.
  destruct (triggered s1); [reflexivity|].
  assert (Hd : transaction_details tx s1 = (Exc KeyError, s1) \/
               transaction_details tx s1 = (Exc ValueError, s1)).
  { unfold transaction_details, bind, subscript, or_raise, raise, ret.
    destruct Hv as [->|(v & -> & Hr)]; [left; reflexivity|].
    right. unfold from_wei.
    assert (E0 : (v =? 0)%Z = false) by (apply Z.eqb_neq; lia).
    assert (E1 : ((v <? 0) || (2 ^ 256 - 1 <? v))%Z = true).
    { apply orb_true_iff. destruct Hr; [left; apply Z.ltb_lt | right; apply Z.ltb_lt]; lia. }
    rewrite E0, E1. reflexivity. }
  unfold bind at 1. destruct Hd as [-> | ->]; reflexivity.
Qed.

Lemma unreadable_value_rejected_witness :
  validate_transaction
    {| tx_value := None; tx_gasPrice := None; tx_gas := None;
       tx_expected_profit := None; tx_expected_price := None; tx_actual_price := None |}
    (Scenario.at_time 1) Scenario.fresh
  = (false, after_health (Scenario.at_time 1) Scenario.fresh).
Proof.
  apply (@unreadable_value_rejected _ (Scenario.at_time 1) Scenario.fresh).
  - reflexivity.
  - left. reflexivity.
Defined.

(** X5.  The daily-loss breaker latches.  After a series of
    [record_profit_loss] calls the breaker is triggered exactly when it
    was triggered before or one of the running totals of the day, each
    the sum that the decimal context rounds to 28 digits, was at or below
    the loss limit, the negation of [max_daily_loss] as the context
    rounds it; profits recorded afterwards do not release it.  (When the
    negation itself raises, no record triggers the breaker.) *)
Theorem daily_loss_latches (amounts : list Q) (s : t) :
  triggered (run (List.map RecordProfitLoss amounts) s)
  = match loss_limit s with
    | Some limit =>
        triggered s
        || existsb (fun total => Qle_bool total limit)
                   (running_totals (current_daily_pnl (profit_metrics s)) amounts)
    | None => triggered s
    end.
Proof.
  revert s. induction amounts as [|a rest IH]; intros s; simpl.
  - destruct (loss_limit s); rewrite ?orb_false_r; reflexivity.
  - rewrite IH. destruct (record_profit_loss_state a s) as (Hl & _ & _ & _ & _ & H).
    assert (Hlim : loss_limit (snd (record_profit_loss a s)) = loss_limit s)
      by (unfold loss_limit; unfold limits in Hl; congruence).
    rewrite Hlim.
    destruct (Decimal.add (current_daily_pnl (profit_metrics s)) a) as [total|].
    + destruct H as (Hp & H). rewrite Hp. destruct (loss_limit s) as [limit|].
      * destruct H as (-> & _). simpl. rewrite orb_assoc. reflexivity.
      * destruct H as (-> & _). reflexivity.
    + rewrite H. reflexivity.
Qed.

(** X6.  [reset_breaker] puts the breaker back to work.  On a breaker
    with non-negative limits, a loss limit (the rounded negation of
    [max_daily_loss]) below zero and room for at least one transaction per
    window, the first transaction after a reset that carries no price pair
    and is within the limits on its own is accepted, whatever had been
    recorded or triggered before the reset.  Within the limits on its own
    is meant as the code tests it: the value and the gas cost are added
    to a counter at zero under the decimal context, and the rounded sums
    are compared with [max_position_size] and [max_daily_gas_spend]. *)
Theorem reset_reenables
    (s : t) (now : Q) (tx : Tx) (clk : Clock) (d : Details)
    (limit size cost spend : Q) :
  enabled s = true ->
  nonnegative_limits (limits s) ->
  loss_limit s = Some limit ->
  limit < 0 ->
  (0 < max_tx_per_window s)%Z ->
  fst (transaction_details tx s) = Val d ->
  tx_expected_price tx = None ->
  Decimal.add 0 (value d) = Some size ->
  size <= max_size (position_limit s) ->
  gas_price d <= max_price_gwei (gas_limit s) ->
  gas_cost d = Some cost ->
  Decimal.add 0 cost = Some spend ->
  spend <= max_daily_spend (gas_limit s) ->
  min_profit_threshold (profit_metrics s) <= expected_profit d ->
  fst (validate_transaction tx clk (reset_breaker now s)) = true.
Proof.
  intros Hen (N1 & N2 & N3) Hlim Hloss Htx Hd Hnp Hsize Hv Hp Hcost Hspend Hc Hm.
  simpl in N1, N2, N3.
  assert (Hd' : forall s0, transaction_details tx s0 = (Val d, s0)).
  { intros s0. revert Hd.
    unfold transaction_details, bind, subscript, or_raise, raise, ret.
    destruct (tx_value tx) as [v|]; simpl; [|discriminate].
    destruct (from_wei v ether); simpl; [|discriminate].
    destruct (tx_gasPrice tx) as [g|]; simpl.
    - destruct (from_wei g gwei); simpl; [|discriminate].
      destruct (from_wei (default 0%Z (tx_expected_profit tx)) ether); simpl; [|discriminate].
      intros H; inversion H; reflexivity.
    - destruct (from_wei (default 0%Z (tx_expected_profit tx)) ether); simpl; [|discriminate].
      intros H; inversion H; reflexivity. }
  set (s0 := reset_breaker now s).
  assert (Hs1 : exists s1, _check_system_health (now_health clk) s0 = (Val tt, s1) /\
                  triggered s1 = false /\ limits s1 = limits s /\
                  current_size (position_limit s1) = 0 /\
                  current_daily_spend (gas_limit s1) = 0 /\
                  tx_timestamps s1 = []).
  { assert (C1 : Qgtb 0 (max_size (position_limit s)) = false) by (apply Qgtb_false; exact N1).
    assert (C2 : Qle_bool 0 limit = false) by (apply Qle_bool_false; exact Hloss).
    assert (C3 : Qgtb 0 (max_daily_spend (gas_limit s)) = false) by (apply Qgtb_false; exact N2).
    unfold loss_limit in Hlim.
    unfold _check_system_health, bind, gets, modify, when, trigger_breaker, decimal,
      or_raise, ret, raise, id.
    subst s0. simpl. rewrite C1, Hlim, C3.
    destruct (Qgeb _ _); simpl;
      [eexists; split; [reflexivity|]; simpl; repeat split; reflexivity|].
    destruct (Qgeb _ _); simpl; rewrite ?C2; simpl;
      eexists; (split; [reflexivity|]); simpl; repeat split; reflexivity. }
  destruct Hs1 as (s1 & Hs1 & Hnt & Hl & Z1 & Z2 & Z3).
  assert (Hl' := Hl). unfold limits in Hl'. inversion Hl' as [[L1 L2 L3 L4 L5 L6 L7 L8 L9 L10]].
  unfold gas_cost in Hcost.
  destruct (Decimal.mul (gas_price d) (gas d)) as [product|] eqn:Hmul;
    simpl in Hcost; [|discriminate].
  unfold validate_transaction. change (enabled s0) with (enabled s). rewrite Hen. simpl.
  unfold try_except, validate_checks. unfold bind at 1 2. rewrite Hs1.
  unfold gets at 1. simpl. rewrite Hnt.
  unfold bind at 1. rewrite Hd'.
  unfold _check_position_size, _check_gas_limits, _check_tx_rate, _check_profit_threshold,
    slippage_check, bind, gets, modify, trigger_breaker, decimal, or_raise, ret, raise, id.
  cbv zeta. simpl.
  assert (C1 : Qgtb size (max_size (position_limit s)) = false)
    by (apply Qgtb_false; exact Hv).
  assert (C2 : Qgtb (gas_price d) (max_price_gwei (gas_limit s)) = false)
    by (apply Qgtb_false; exact Hp).
  assert (C3 : Qgtb spend (max_daily_spend (gas_limit s)) = false)
    by (apply Qgtb_false; exact Hc).
  assert (C4 : (max_tx_per_window s <=? Z.of_nat 0)%Z = false) by (apply Z.leb_gt; lia).
  assert (C5 : Qltb (expected_profit d) (min_profit_threshold (profit_metrics s)) = false).
  { unfold Qltb. apply negb_false_iff. apply Qle_bool_iff. exact Hm. }
  rewrite Z1, Hsize. simpl. rewrite L1, C1. simpl.
  rewrite L2, C2, Hmul. simpl. rewrite Hcost. simpl. rewrite Z2, Hspend. simpl.
  rewrite L3, C3. simpl.
  rewrite Z3, L7. simpl. rewrite C4. simpl. rewrite L4, C5. simpl.
  rewrite Hnp. simpl. rewrite Z1, Hsize. reflexivity.
Qed.


Lemma counters_stay_within_limits_witness :
  within_limits
    (run [Validate Scenario.tx_ok (Scenario.at_time 1); RecordProfitLoss (-6);
          ResetBreaker 2; Validate Scenario.tx_ok (Scenario.at_time 3)]
       (init Scenario.config 0)).
Proof.
  apply (@counters_stay_within_limits Scenario.config 0).
  repeat split; vm_compute; discriminate.
Defined.

Lemma health_counter_checks_never_fire_witness :
  trigger_reason
    (run [Validate Scenario.tx_ok (Scenario.at_time 1); RecordProfitLoss (-6);
          Validate Scenario.tx_ok (Scenario.at_time 100)]
       (init Scenario.config 0)) <> Some PositionLimitExceeded.
Proof.
  apply (@health_counter_checks_never_fire Scenario.config 0).
  repeat split; vm_compute; discriminate.
Defined.

Lemma reset_reenables_witness :
  triggered Scenario.tripped = true /\
  fst (validate_transaction Scenario.tx_ok (Scenario.at_time 3)
         (reset_breaker 2 Scenario.tripped)) = true.
Proof.
  split; [reflexivity|].
  apply (@reset_reenables Scenario.tripped 2 Scenario.tx_ok (Scenario.at_time 3)
           Scenario.details_ok (-5) 1 (21 # 2500) (21 # 2500)).
  - reflexivity.
  - repeat split; vm_compute; discriminate.
  - vm_compute. reflexivity.
  - vm_compute. reflexivity.
  - vm_compute. reflexivity.
  - vm_compute. reflexivity.
  - reflexivity.
  - vm_compute. reflexivity.
  - vm_compute. discriminate.
  - vm_compute. discriminate.
  - vm_compute. reflexivity.
  - vm_compute. reflexivity.
  - vm_compute. discriminate.
  - vm_compute. discriminate.
Defined.

End BreakerInvariants.

Module SafetyCoordinatorFacts.
Import Py.
Local Open Scope Q_scope.

#[local] Arguments CircuitBreaker.validate_transaction : simpl never.

Lemma no_gas_price (s : SafetyCoordinator.t) (tx : CircuitBreaker.Tx) :
  CircuitBreaker.tx_gasPrice tx = None ->
  SafetyCoordinator._validate_gas_price s tx = false.
Proof.
  intros H. unfold SafetyCoordinator._validate_gas_price, try_except, bind, subscript.
  rewrite H. reflexivity.
Qed.

(** X7.  The coordinator never accepts a transaction dict without
    ['gasPrice'], although the breaker reads a missing gas price as zero:
    when the breaker accepts such a dict, the coordinator answers [False],
    counts neither a circuit break nor a transaction, and keeps the
    breaker in the state in which it has recorded the transaction. *)
Theorem coordinator_requires_gas_price (tx : CircuitBreaker.Tx) (tx_to : option string)
    (clk : CircuitBreaker.Clock) (s : SafetyCoordinator.t) :
  CircuitBreaker.tx_gasPrice tx = None ->
  fst (SafetyCoordinator.validate_transaction tx tx_to clk s) = false /\
  SafetyCoordinator.circuit_breaker (snd (SafetyCoordinator.validate_transaction tx tx_to clk s))
  = snd (CircuitBreaker.validate_transaction tx clk (SafetyCoordinator.circuit_breaker s)) /\
  (fst (CircuitBreaker.validate_transaction tx clk (SafetyCoordinator.circuit_breaker s)) = true ->
   Coordinator.metrics
     (SafetyCoordinator.coordinator (snd (SafetyCoordinator.validate_transaction tx tx_to clk s)))
   = Coordinator.metrics (SafetyCoordinator.coordinator s)).
Proof.
  intros H. unfold SafetyCoordinator.validate_transaction.
  destruct (CircuitBreaker.validate_transaction tx clk (SafetyCoordinator.circuit_breaker s))
    as [[|] b]; simpl.
  - rewrite (no_gas_price _ H). simpl. auto.
  - split; [reflexivity|]. split; [reflexivity|]. discriminate.
Qed.

Lemma coordinator_requires_gas_price_witness :
  fst (CircuitBreaker.validate_transaction
         {| CircuitBreaker.tx_value := Some (10 ^ 18)%Z;
            CircuitBreaker.tx_gasPrice := None;
            CircuitBreaker.tx_gas := None;
            CircuitBreaker.tx_expected_profit := Some (2 * 10 ^ 17)%Z;
            CircuitBreaker.tx_expected_price := None;
            CircuitBreaker.tx_actual_price := None |}
         (Scenario.at_time 1) Scenario.fresh) = true /\
  fst (SafetyCoordinator.validate_transaction
         {| CircuitBreaker.tx_value := Some (10 ^ 18)%Z;
            CircuitBreaker.tx_gasPrice := None;
            CircuitBreaker.tx_gas := None;
            CircuitBreaker.tx_expected_profit := Some (2 * 10 ^ 17)%Z;
            CircuitBreaker.tx_expected_price := None;
            CircuitBreaker.tx_actual_price := None |}
         None (Scenario.at_time 1)
         (SafetyCoordinator.init Scenario.config 1000 [] 0)) = false.
Proof.
  split; [vm_compute; reflexivity|].
  apply (@coordinator_requires_gas_price _ None (Scenario.at_time 1)
           (SafetyCoordinator.init Scenario.config 1000 [] 0)).
  reflexivity.
Defined.

(** X8.  When the gas-price limit of the coordinator is not below the
    one of its breaker, its own gas-price check is redundant for a dict
    that carries ['gasPrice']: once the breaker has accepted the
    transaction the check passes, and the coordinator answers what the
    whitelist check answers. *)
Theorem coordinator_gas_check_redundant (tx : CircuitBreaker.Tx) (tx_to : option string)
    (clk : CircuitBreaker.Clock) (s : SafetyCoordinator.t) (wei : Z) :
  CircuitBreaker.max_price_gwei (CircuitBreaker.gas_limit (SafetyCoordinator.circuit_breaker s))
    <= SafetyCoordinator.max_gas_price_gwei s ->
  CircuitBreaker.tx_gasPrice tx = Some wei ->
  fst (CircuitBreaker.validate_transaction tx clk (SafetyCoordinator.circuit_breaker s)) = true ->
  fst (SafetyCoordinator.validate_transaction tx tx_to clk s)
  = Coordinator._validate_contract_interaction (SafetyCoordinator.coordinator s) tx_to.
Proof.
  intros Hmax Hwei Hok. unfold SafetyCoordinator.validate_transaction.
  destruct (CircuitBreaker.validate_transaction tx clk (SafetyCoordinator.circuit_breaker s))
    as [ok b] eqn:E. simpl in Hok. subst ok.
  destruct (CircuitBreakerFacts.accepted_state E)
    as (_ & _ & _ & d & size & cost & spend & Hd & _ & _ & Hprice & _).
  destruct (CircuitBreakerFacts.health_cases (CircuitBreaker.now_health clk)
              (SafetyCoordinator.circuit_breaker s)) as (Hl & _).
  fold (CircuitBreaker.after_health clk (SafetyCoordinator.circuit_breaker s)) in Hl.
  assert (L : CircuitBreaker.max_price_gwei
                (CircuitBreaker.gas_limit
                   (CircuitBreaker.after_health clk (SafetyCoordinator.circuit_breaker s)))
              = CircuitBreaker.max_price_gwei
                  (CircuitBreaker.gas_limit (SafetyCoordinator.circuit_breaker s)))
    by (unfold CircuitBreaker.limits in Hl; congruence).
  rewrite L in Hprice. apply CircuitBreakerFacts.Qgtb_false in Hprice.
  assert (Hg : CircuitBreaker.from_wei wei CircuitBreaker.gwei
               = Some (CircuitBreaker.gas_price d)).
  { revert Hd. unfold CircuitBreaker.transaction_details, bind, subscript, or_raise, raise, ret.
    rewrite Hwei.
    destruct (CircuitBreaker.tx_value tx) as [v|]; simpl; [|discriminate].
    destruct (CircuitBreaker.from_wei v CircuitBreaker.ether); simpl; [|discriminate].
    destruct (CircuitBreaker.from_wei wei CircuitBreaker.gwei); simpl; [|discriminate].
    destruct (CircuitBreaker.from_wei _ CircuitBreaker.ether); simpl; [|discriminate].
    intros H. inversion H. reflexivity. }
  assert (Hv : SafetyCoordinator._validate_gas_price
                 (SafetyCoordinator.set_circuit_breaker b s) tx = true).
  { unfold SafetyCoordinator._validate_gas_price, try_except, bind, subscript, or_raise, ret.
    rewrite Hwei, Hg. simpl.
    assert (C : Qgtb (CircuitBreaker.gas_price d) (SafetyCoordinator.max_gas_price_gwei s) = false)
      by (apply CircuitBreakerFacts.Qgtb_false; lra).
    rewrite C. reflexivity. }
  cbn [negb]. cbv iota. rewrite Hv. cbn [negb]. cbv iota.
  cbn [SafetyCoordinator.coordinator SafetyCoordinator.set_circuit_breaker].
  destruct (Coordinator._validate_contract_interaction _ tx_to); reflexivity.
Qed.

Lemma coordinator_gas_check_redundant_witness :
  fst (SafetyCoordinator.validate_transaction Scenario.tx_ok None (Scenario.at_time 1)
         (SafetyCoordinator.init Scenario.config 1000 [] 0)) = true.
Proof.
  rewrite (@coordinator_gas_check_redundant Scenario.tx_ok None (Scenario.at_time 1)
             (SafetyCoordinator.init Scenario.config 1000 [] 0) (400 * 10 ^ 9)).
  - reflexivity.
  - vm_compute. discriminate.
  - reflexivity.
  - vm_compute. reflexivity.
Defined.

Lemma coordinator_step (tx : CircuitBreaker.Tx) (tx_to : option string)
    (clk : CircuitBreaker.Clock) (s : SafetyCoordinator.t) :
  let r := SafetyCoordinator.validate_transaction tx tx_to clk s in
  let m := Coordinator.metrics (SafetyCoordinator.coordinator s) in
  let m' := Coordinator.metrics (SafetyCoordinator.coordinator (snd r)) in
  Coordinator.total_transactions m'
    = (Coordinator.total_transactions m + if fst r then 1 else 0)%Z /\
  (Coordinator.circuit_breaks m <= Coordinator.circuit_breaks m'
     <= Coordinator.circuit_breaks m + if fst r then 0 else 1)%Z /\
  Coordinator.failed_transactions m' = Coordinator.failed_transactions m.
Proof.
  unfold SafetyCoordinator.validate_transaction.
  destruct (CircuitBreaker.validate_transaction tx clk (SafetyCoordinator.circuit_breaker s))
    as [[|] b]; simpl.
  - destruct (SafetyCoordinator._validate_gas_price _ tx); simpl; [|lia].
    destruct (Coordinator._validate_contract_interaction _ tx_to); simpl; lia.
  - lia.
Qed.

(** X9.  The counters of the coordinator.  Over any run of
    [validate_transaction] calls, [total_transactions] grows by exactly
    the number of calls answered [True]; [circuit_breaks] grows by at most
    the number answered [False] (a refusal by the gas-price or whitelist
    check is counted nowhere); [failed_transactions] never changes. *)
Theorem coordinator_counters
    (calls : list (CircuitBreaker.Tx * option string * CircuitBreaker.Clock))
    (s : SafetyCoordinator.t) :
  let r := SafetyCoordinator.validate_all calls s in
  let m := Coordinator.metrics (SafetyCoordinator.coordinator s) in
  let m' := Coordinator.metrics (SafetyCoordinator.coordinator (snd r)) in
  Coordinator.total_transactions m'
    = (Coordinator.total_transactions m + SafetyCoordinator.count true (fst r))%Z /\
  (Coordinator.circuit_breaks m <= Coordinator.circuit_breaks m'
     <= Coordinator.circuit_breaks m + SafetyCoordinator.count false (fst r))%Z /\
  Coordinator.failed_transactions m' = Coordinator.failed_transactions m.
Proof.
  revert s. induction calls as [|[[tx tx_to] clk] rest IH]; intros s; simpl.
  - unfold SafetyCoordinator.count. simpl. lia.
  - pose proof (coordinator_step tx tx_to clk s) as Hs. simpl in Hs.
    destruct (SafetyCoordinator.validate_transaction tx tx_to clk s) as [b s1].
    specialize (IH s1). simpl in IH, Hs.
    destruct (SafetyCoordinator.validate_all rest s1) as [bs s2]. simpl in *.
    unfold SafetyCoordinator.count in *. simpl.
    destruct b; simpl; lia.
Qed.

End SafetyCoordinatorFacts.

Module IncidentFacts.
Import Coordinator.
Local Open Scope Z_scope.

Lemma record_incident_flags (level : EmergencyLevel) (now : Q) (s : t) :
  exited s = false ->
  shutdown_triggered (record_incident level now s) = shutdown_triggered s || severe level /\
  exited (record_incident level now s)
  = negb (shutdown_triggered s) && match level with FATAL => true | _ => false end.
Proof.
  intros H. unfold record_incident, trigger_shutdown. rewrite H.
  destruct level; simpl; destruct (shutdown_triggered s) eqn:E; simpl;
    rewrite ?H, ?E; auto.
Qed.

Lemma replay_exited (history : list (EmergencyLevel * Q)) (s : t) :
  exited s = true -> replay history s = s.
Proof.
  intros H. induction history as [|i rest IH]; [reflexivity|].
  unfold replay in *. simpl. unfold record_incident at 2. rewrite H. exact IH.
Qed.

Lemma replay_after_shutdown (history : list (EmergencyLevel * Q)) (s : t) :
  exited s = false -> shutdown_triggered s = true ->
  exited (replay history s) = false /\ shutdown_triggered (replay history s) = true.
Proof.
  revert s. induction history as [|[level now] rest IH]; intros s He Hs; [auto|].
  change (replay ((level, now) :: rest) s) with (replay rest (record_incident level now s)).
  destruct (record_incident_flags level now He) as [H1 H2].
  rewrite Hs in H1, H2. simpl in H1, H2. apply IH; assumption.
Qed.

(** X10.  Which incidents end the process.  After any history of incidents
    recorded by a fresh coordinator, the emergency shutdown has been
    triggered exactly when the history holds a [CRITICAL] or [FATAL]
    incident, and the process has left through [os._exit] exactly when the
    first such incident is [FATAL]: a [FATAL] incident that comes after a
    [CRITICAL] one finds the shutdown already triggered and does not end
    the process. *)
Theorem exit_only_on_first_fatal (history : list (EmergencyLevel * Q))
    (whitelist : list string) :
  shutdown_triggered (replay history (init whitelist))
  = existsb (fun i => severe (fst i)) history /\
  exited (replay history (init whitelist))
  = match first_severe history with
    | Some FATAL => true
    | _ => false
    end.
Proof.
  assert (H : forall s, exited s = false -> shutdown_triggered s = false ->
            shutdown_triggered (replay history s)
            = existsb (fun i => severe (fst i)) history /\
            exited (replay history s)
            = match first_severe history with Some FATAL => true | _ => false end).
  { induction history as [|[level now] rest IH]; intros s He Hs; [simpl; auto|].
    change (replay ((level, now) :: rest) s) with (replay rest (record_incident level now s)).
    destruct (record_incident_flags level now He) as [H1 H2].
    rewrite Hs in H1, H2. simpl in H1, H2.
    unfold first_severe. simpl.
    destruct level; simpl in *.
    - apply IH; assumption.
    - apply IH; assumption.
    - destruct (@replay_after_shutdown rest _ H2 H1) as [E1 E2]. auto.
    - rewrite (replay_exited rest H2). auto. }
  apply H; reflexivity.
Qed.

Lemma record_incident_counts (level : EmergencyLevel) (now : Q) (s : t) :
  exited s = false ->
  emergency_events (metrics (record_incident level now s))
  = emergency_events (metrics s) + 1 /\
  last_incident_time (metrics (record_incident level now s)) = Some now.
Proof.
  intros H. unfold record_incident, trigger_shutdown. rewrite H.
  destruct level; simpl; try (split; reflexivity);
    destruct (shutdown_triggered s); split; reflexivity.
Qed.

Lemma replay_still_running (history : list (EmergencyLevel * Q))
    (i : EmergencyLevel * Q) (s : t) :
  exited (replay (history ++ [i]) s) = false -> exited (replay history s) = false.
Proof.
  rewrite CoordinatorFacts.replay_snoc. unfold record_incident.
  destruct (exited (replay history s)) eqn:E; [intros H; congruence | reflexivity].
Qed.

(** X11.  While the process runs, [emergency_events] counts every
    recorded incident, whatever its level, and [last_incident_time] is the
    time of the latest one. *)
Theorem every_incident_is_counted (history : list (EmergencyLevel * Q)) (s : t) :
  exited (replay history s) = false ->
  emergency_events (metrics (replay history s))
  = emergency_events (metrics s) + Z.of_nat (List.length history) /\
  last_incident_time (metrics (replay history s))
  = match List.last (List.map (fun i => Some (snd i)) history) None with
    | Some now => Some now
    | None => last_incident_time (metrics s)
    end.
Proof.
  induction history as [|i rest IH] using rev_ind; intros He.
  - simpl. split; [lia | reflexivity].
  - pose proof (replay_still_running He) as He'.
    destruct (IH He') as [IH1 _].
    rewrite CoordinatorFacts.replay_snoc.
    destruct (record_incident_counts (fst i) (snd i) He') as [H1 H2].
    rewrite H1, H2, IH1. rewrite length_app, List.map_app. cbn [List.map].
    rewrite List.last_last. simpl.
    split; [lia | reflexivity].
Qed.

Lemma every_incident_is_counted_witness :
  emergency_events
    (metrics (replay [(WARNING, 1%Q); (CRITICAL, 2%Q); (FATAL, 3%Q)] (init [])))
  = 3.
Proof.
  apply (@every_incident_is_counted [(WARNING, 1%Q); (CRITICAL, 2%Q); (FATAL, 3%Q)] (init [])).
  reflexivity.
Defined.

End IncidentFacts.

Module MathFacts.
Import Py Float64 GasMath.
Local Open Scope Q_scope.

#[local] Arguments fmul : simpl never.
#[local] Arguments fsub : simpl never.
#[local] Arguments fle : simpl never.

Lemma nth_error_zip_with {A B C} (f : A -> B -> C) (l : list A) (k : list B) (i : nat) :
  nth_error (zip_with f l k) i
  = match nth_error l i, nth_error k i with
    | Some a, Some b => Some (f a b)
    | _, _ => None
    end.
Proof.
  revert k i. induction l as [|a l IH]; intros k i; simpl.
  - destruct i; reflexivity.
  - destruct k as [|b k]; simpl.
    + destruct i; simpl; [reflexivity|]. destruct (nth_error l i); reflexivity.
    + destruct i; simpl; [reflexivity | apply IH].
Qed.

(** X12.  [calculate_profits_vectorized] raises [ValueError] when an array
    is empty or the lengths differ, and only then; otherwise it returns an
    array of the common length whose element [i] is the float
    [prices[i] * amounts[i] - fees[i]], the product rounded before the
    subtraction. *)
Theorem profits_elementwise (prices amounts fees : list t) :
  (calculate_profits_vectorized prices amounts fees = Exc ValueError <->
   prices = [] \/ List.length prices <> List.length amounts
   \/ List.length amounts <> List.length fees) /\
  (forall profits,
     calculate_profits_vectorized prices amounts fees = Val profits ->
     List.length profits = List.length prices /\
     forall i p a f,
       nth_error prices i = Some p -> nth_error amounts i = Some a ->
       nth_error fees i = Some f ->
       nth_error profits i = Some (fsub (fmul p a) f)).
Proof.
  unfold calculate_profits_vectorized.
  destruct (Nat.eqb_spec (List.length prices) 0) as [P0|P0]; cbn [orb].
  { assert (prices = []) by (destruct prices; [reflexivity | discriminate]).
    split; [split; auto | discriminate]. }
  set (empty := Nat.eqb (List.length amounts) 0 || Nat.eqb (List.length fees) 0).
  destruct (Nat.eqb_spec (List.length prices) (List.length amounts)) as [PA|PA].
  2: { destruct empty; cbn [andb negb]; (split; [split; auto | discriminate]). }
  destruct (Nat.eqb_spec (List.length amounts) (List.length fees)) as [AF|AF].
  2: { destruct empty; cbn [andb negb]; (split; [split; auto | discriminate]). }
  assert (E : empty = false).
  { unfold empty. apply orb_false_iff. split; apply Nat.eqb_neq; lia. }
  rewrite E. cbn [andb negb]. cbv zeta. split.
  - split; [discriminate|]. intros [C|[C|C]]; [subst; contradiction | |]; contradiction.
  - intros profits H. injection H as <-.
    split; [rewrite !length_zip_with; lia|].
    intros i x a f Hp Ha Hf.
    rewrite !nth_error_zip_with, Hp, Ha, Hf. reflexivity.
Qed.


Lemma where_from_spec (mask : list bool) (i j : nat) :
  In j (where_from i mask) <->
  exists k, j = (i + k)%nat /\ nth_error mask k = Some true.
Proof.
  revert i. induction mask as [|b rest IH]; intros i; simpl.
  - split; [intros [] | intros (k & _ & H)]. destruct k; discriminate.
  - assert (Hrest : In j (where_from (S i) rest) <->
                    exists k, j = (i + S k)%nat /\ nth_error rest k = Some true).
    { rewrite IH. split; intros (k & -> & H); exists k; split; auto; lia. }
    destruct b; simpl; rewrite ?Hrest; split.
    + intros [<-|(k & -> & H)]; [exists 0%nat | exists (S k)]; split; auto; lia.
    + intros ([|k] & -> & H); [left; lia | right; exists k; auto].
    + intros (k & -> & H). exists (S k). auto.
    + intros ([|k] & -> & H); [discriminate | exists k; auto].
Qed.

Lemma where_from_sorted (mask : list bool) (i : nat) :
  StronglySorted lt (where_from i mask).
Proof.
  revert i. induction mask as [|b rest IH]; intros i; simpl; [constructor|].
  destruct b; [|apply IH].
  constructor; [apply IH|].
  apply List.Forall_forall. intros j Hj. apply where_from_spec in Hj as (k & -> & _). lia.
Qed.

(** X13.  The indices that [analyze_opportunities_vectorized] reports as
    profitable are exactly the positions whose expected profit is at least
    [min_profit] (a NaN profit never is), listed in ascending order
    without repetition; the expected profits are those of
    [calculate_profits_vectorized]. *)
Theorem profitable_indices_exact (market_data : MarketData) (min_profit : t)
    (r : Opportunities) :
  analyze_opportunities_vectorized market_data min_profit = Val r ->
  (forall i, In i (profitable_indices r) <->
             exists p, nth_error (expected_profits r) i = Some p /\
                       fle min_profit p = true) /\
  StronglySorted lt (profitable_indices r) /\
  exists prices amounts fees,
    md_prices market_data = Some prices /\
    md_amounts market_data = Some amounts /\
    md_fees market_data = Some fees /\
    calculate_profits_vectorized prices amounts fees = Val (expected_profits r).
Proof.
  unfold analyze_opportunities_vectorized. intros H.
  destruct (md_prices market_data) as [prices|]; [|discriminate].
  destruct (md_amounts market_data) as [amounts|]; [|discriminate].
  destruct (md_fees market_data) as [fees|]; [|discriminate].
  destruct (calculate_profits_vectorized prices amounts fees) as [profits|e] eqn:E;
    [|discriminate].
  inversion H; subst r; clear H. cbn [profitable_indices expected_profits].
  split; [|split; [apply where_from_sorted | exists prices, amounts, fees; auto]].
  intros i. rewrite where_from_spec. split.
  - intros (k & -> & Hk). simpl. rewrite nth_error_map in Hk.
    destruct (nth_error profits k) as [p|]; [|discriminate].
    exists p. split; [reflexivity|]. simpl in Hk. congruence.
  - intros (p & Hp & Hle). exists i. split; [reflexivity|].
    rewrite nth_error_map, Hp. simpl. rewrite Hle. reflexivity.
Qed.

Lemma profitable_indices_exact_witness :
  analyze_opportunities_vectorized test_market (Fin 100) = Val test_opportunities /\
  StronglySorted lt (profitable_indices test_opportunities).
Proof.
  split; [vm_compute; reflexivity|].
  refine (proj1 (proj2 (@profitable_indices_exact test_market (Fin 100)
                          test_opportunities _))).
  vm_compute. reflexivity.
Defined.

Lemma truncate_nonneg (x : Q) : 0 <= x -> (0 <= truncate x)%Z.
Proof.
  intros H. unfold truncate. apply Z.quot_pos; [|lia].
  unfold Qle in H. simpl in H. lia.
Qed.

(** X14.  [BaseStrategy.optimize_gas] never raises and never proposes a
    negative gas price: it returns the configured default when the
    vectorized routine raises, and otherwise [int(g)] for one of the
    candidate prices [g], none of which is negative. *)
Theorem optimize_gas_never_negative (default_gas_price : Z)
    (gas_prices success_rates : list Q) :
  (0 <= default_gas_price)%Z ->
  (0 <= optimize_gas default_gas_price gas_prices success_rates)%Z /\
  (optimize_gas default_gas_price gas_prices success_rates = default_gas_price \/
   exists g, In g gas_prices /\ 0 <= g /\
             optimize_gas default_gas_price gas_prices success_rates = truncate g).
Proof.
  intros Hd. unfold optimize_gas, optimize_gas_vectorized.
  destruct (existsb (fun g => Qltb g 0) gas_prices) eqn:Hneg; [auto|].
  destruct (existsb _ success_rates); [auto|].
  destruct (argmax success_rates) as [k|]; [|auto].
  destruct (nth_error gas_prices k) as [g|] eqn:Hg; [|auto].
  assert (Hin : In g gas_prices) by (eapply nth_error_In; eassumption).
  assert (H0 : 0 <= g).
  { destruct (Qltb g 0) eqn:C.
    - exfalso. assert (existsb (fun g => Qltb g 0) gas_prices = true)
        by (apply existsb_exists; exists g; auto). congruence.
    - unfold Qltb in C. apply negb_false_iff in C. apply Qle_bool_iff in C. exact C. }
  split; [apply truncate_nonneg; exact H0|].
  right. exists g. auto.
Qed.

Lemma optimize_gas_never_negative_witness :
  (0 <= optimize_gas 50 test_gas_prices test_success_rates)%Z.
Proof.
  apply (@optimize_gas_never_negative 50 test_gas_prices test_success_rates).
  lia.
Defined.

End MathFacts.

Module ImpactFacts.
Import Float64 Float64Facts SIMD.
Local Open Scope Q_scope.

Lemma RN_positive (x : Q) :
  0 < x -> RN x = Inf false \/ exists q, RN x = Fin q /\ 0 <= q.
Proof.
  intros Hx. unfold RN.
  destruct (Qcompare x 0) eqn:Cx; qcompare_hyps; [exfalso; lra | exfalso; lra |].
  cbv zeta. destruct (Qle_bool (2 ^ 1024) (round_pos x)); [left; reflexivity|].
  right. eexists. split; [reflexivity|]. rewrite Qred_correct.
  apply round_pos_nonneg. exact Cx.
Qed.

(** X15.  The computed price impact of a non-negative amount on a positive
    liquidity is a finite float between 0 and 1, rounding and overflow of
    the sum included: when [amount + liquidity] overflows to infinity the
    quotient is 0, and otherwise the rounded sum is at least the amount. *)
Theorem price_impact_between_0_and_1 (a l : Q) :
  0 <= a -> 0 < l -> RN a = Fin a -> RN l = Fin l ->
  exists q, price_impact (Fin a) (Fin l) = Fin q /\ 0 <= q /\ q <= 1.
Proof.
  intros Ha Hl Ra Rl. unfold price_impact, fadd.
  assert (Hsum : 0 < a + l) by lra.
  destruct (RN_positive Hsum) as [E|(s & E & _)]; rewrite E.
  - exists 0. simpl. split; [reflexivity|]. split; lra.
  - assert (Has : a <= s).
    { pose proof (@RN_mono a (a + l) Ha ltac:(lra)) as M.
      rewrite Ra, E in M. simpl in M. apply Qle_bool_iff. exact M. }
    assert (Hls : l <= s).
    { pose proof (@RN_mono l (a + l) ltac:(lra) ltac:(lra)) as M.
      rewrite Rl, E in M. simpl in M. apply Qle_bool_iff. exact M. }
    unfold fdiv.
    assert (Z1 : Qeq_bool s 0 = false).
    { destruct (Qeq_bool s 0) eqn:C; [|reflexivity].
      apply Qeq_bool_eq in C. exfalso. lra. }
    rewrite Z1.
    assert (H0 : 0 <= a / s) by (apply Qle_shift_div_l; lra).
    assert (H1 : a / s <= 2 ^ 0).
    { change (2 ^ 0) with 1. apply Qle_shift_div_r; lra. }
    destruct (@RN_finite (a / s) 0%Z H0 H1 ltac:(lia)) as (q & Hq & Hq0 & Hq1).
    exists q. split; [exact Hq|]. split; [exact Hq0|]. exact Hq1.
Qed.

Lemma price_impact_between_0_and_1_witness :
  exists q, price_impact (Fin 1) (Fin 3) = Fin q /\ 0 <= q /\ q <= 1.
Proof.
  apply (@price_impact_between_0_and_1 1 3).
  - vm_compute. discriminate.
  - vm_compute. reflexivity.
  - vm_compute. reflexivity.
  - vm_compute. reflexivity.
Defined.

Lemma zip_with_impact (amounts liquidities : list t) :
  zip_with fdiv amounts (zip_with fadd amounts liquidities)
  = zip_with price_impact amounts liquidities.
Proof.
  revert liquidities. induction amounts as [|a amounts IH]; intros [|l liquidities];
    simpl; try reflexivity.
  rewrite IH. reflexivity.
Qed.

(** X16.  On arrays of equal length [batch_price_impact] returns the price
    impact of each pair, in order; on arrays of different lengths, neither
    of which has length one, numpy's broadcasting fails and the routine
    raises. *)
Theorem batch_price_impact_pairs (amounts liquidities : list t) :
  (List.length amounts = List.length liquidities ->
   batch_price_impact amounts liquidities
   = Some (zip_with price_impact amounts liquidities)) /\
  (List.length amounts <> List.length liquidities ->
   List.length amounts <> 1%nat -> List.length liquidities <> 1%nat ->
   batch_price_impact amounts liquidities = None).
Proof.
  unfold batch_price_impact, broadcast. split.
  - intros H. apply Nat.eqb_eq in H. rewrite H. simpl.
    apply Nat.eqb_eq in H.
    assert (L : Nat.eqb (List.length amounts)
                  (List.length (zip_with fadd amounts liquidities)) = true).
    { apply Nat.eqb_eq. rewrite length_zip_with. lia. }
    rewrite L, zip_with_impact. reflexivity.
  - intros H H1 H2. apply Nat.eqb_neq in H. rewrite H.
    destruct amounts as [|a [|a' amounts]]; [| simpl in H1; lia |].
    + destruct liquidities as [|l [|l' liquidities]]; simpl in *;
        try reflexivity; try lia; discriminate.
    + destruct liquidities as [|l [|l' liquidities]]; simpl in *;
        try reflexivity; lia.
Qed.

End ImpactFacts.

Module LoanFacts.
Import Float64 Float64Facts FlashLoan FlashLoanFacts.
Local Open Scope Q_scope.

#[local] Arguments RN : simpl never.
#[local] Arguments literal : simpl never.
#[local] Arguments of_Z : simpl never.
#[local] Arguments fmul : simpl never.

Lemma Provider_eq_dec (p q : Provider) : {p = q} + {p <> q}.
Proof. decide equality. Qed.

Lemma literal_fee (p : Provider) :
  p <> DYDX -> exists c, literal (fee_fraction p) = Fin c /\ 1 # 16384 <= c.
Proof.
  intros Hp. destruct p; try congruence; cbn [fee_fraction];
    match goal with
    | |- context [literal ?c] =>
        let v := eval vm_compute in (literal c) in
        replace (literal c) with v by (vm_compute; reflexivity)
    end;
    eexists; (split; [reflexivity|]); vm_compute; discriminate.
Qed.

Lemma of_Z_positive (n : Z) (q : Q) :
  (0 < n)%Z -> of_Z n = Some (Fin q) -> 1 <= q.
Proof.
  intros Hn. unfold of_Z.
  assert (M : fle (RN 1) (RN (inject_Z n)) = true).
  { apply RN_mono; [lra|]. change 1 with (inject_Z 1). rewrite <- Zle_Qle. lia. }
  replace (RN 1) with (Fin 1) in M by (vm_compute; reflexivity).
  destruct (RN (inject_Z n)) as [q0| |]; try discriminate.
  intros H. inversion H; subst. simpl in M. apply Qle_bool_iff. exact M.
Qed.

Lemma fee_positive (p : Provider) (amount : Z) (g : Q) :
  (0 < amount)%Z -> p <> DYDX ->
  _get_provider_fee p amount = Some (Fin g) -> 0 < g.
Proof.
  intros Ha Hp. destruct (literal_fee Hp) as (c & Hc & Hlo).
  assert (H : forall a, of_Z amount = Some a ->
                Some (fmul a (literal (fee_fraction p))) = Some (Fin g) -> 0 < g).
  { intros a Ea E. destruct (of_Z_Fin Ea) as (q & -> & _).
    pose proof (of_Z_positive Ha Ea) as Hq.
    rewrite Hc in E. unfold fmul in E. inversion E as [E'].
    assert (M : fle (RN (1 # 16384)) (RN (q * c)) = true).
    { apply RN_mono; [vm_compute; discriminate|]. nra. }
    replace (RN (1 # 16384)) with (Fin (1 # 16384)) in M by (vm_compute; reflexivity).
    rewrite E' in M. simpl in M. apply Qle_bool_iff in M.
    assert (0 < 1 # 16384) by reflexivity. lra. }
  unfold _get_provider_fee.
  destruct p; try congruence;
    (destruct (of_Z amount) as [a|] eqn:Ea; [|discriminate]);
    cbv beta iota delta [mbind option_bind]; apply (H a eq_refl).
Qed.

Lemma of_Z_mono (n n' : Z) (q q' : Q) :
  (0 <= n <= n')%Z -> of_Z n = Some (Fin q) -> of_Z n' = Some (Fin q') ->
  0 <= q /\ q <= q'.
Proof.
  intros [H0 Hn]. unfold of_Z.
  assert (Q0 : 0 <= inject_Z n) by (change 0 with (inject_Z 0); rewrite <- Zle_Qle; lia).
  assert (M0 : fle (RN 0) (RN (inject_Z n)) = true) by (apply RN_mono; lra).
  assert (M : fle (RN (inject_Z n)) (RN (inject_Z n')) = true).
  { apply RN_mono; [exact Q0|]. rewrite <- Zle_Qle. lia. }
  replace (RN 0) with (Fin 0) in M0 by (vm_compute; reflexivity).
  destruct (RN (inject_Z n)) as [x| |]; try discriminate.
  destruct (RN (inject_Z n')) as [x'| |]; try discriminate.
  intros E E'. inversion E; inversion E'; subst.
  simpl in M0, M. split; apply Qle_bool_iff; assumption.
Qed.

(** X17.  The fee of a provider never falls when the amount grows: for
    amounts [0 <= a <= a'] that both have a fee, the float fee computed
    for [a] is at most the one computed for [a'], roundings of the
    conversion and of the product included. *)
Theorem fee_monotone (p : Provider) (a a' : Z) (f f' : t) :
  (0 <= a <= a')%Z ->
  _get_provider_fee p a = Some f ->
  _get_provider_fee p a' = Some f' ->
  fle f f' = true.
Proof.
  intros Ha. destruct (Provider_eq_dec p DYDX) as [->|Hp].
  - simpl. intros E E'. inversion E; inversion E'; subst. reflexivity.
  - destruct (literal_fee Hp) as (c & Hc & Hlo).
    assert (H : forall x x', of_Z a = Some x -> of_Z a' = Some x' ->
                  fle (fmul x (literal (fee_fraction p)))
                      (fmul x' (literal (fee_fraction p))) = true).
    { intros x x' Ex Ex'.
      destruct (of_Z_Fin Ex) as (q & -> & _). destruct (of_Z_Fin Ex') as (q' & -> & _).
      destruct (of_Z_mono Ha Ex Ex') as [Hq0 Hqq].
      rewrite Hc. unfold fmul.
      assert (0 < 1 # 16384) by reflexivity.
      apply RN_mono; nra. }
    unfold _get_provider_fee.
    destruct p; try congruence;
      (destruct (of_Z a) as [x|] eqn:Ex; [|discriminate]);
      (destruct (of_Z a') as [x'|] eqn:Ex'; [|discriminate]);
      cbv beta iota delta [mbind option_bind];
      intros E E'; injection E as <-; injection E' as <-;
      apply (H x x' eq_refl eq_refl).
Qed.

Lemma fee_monotone_witness :
  exists f f',
    _get_provider_fee AAVE_V3 1000 = Some f /\
    _get_provider_fee AAVE_V3 2000 = Some f' /\
    fle f f' = true.
Proof.
  eexists. eexists. split; [reflexivity|]. split; [reflexivity|].
  apply (@fee_monotone AAVE_V3 1000 2000).
  - lia.
  - reflexivity.
  - reflexivity.
Defined.

(** X18.  For a positive amount the selection always returns dydx when
    dydx is initialised and reports enough liquidity: its fee is zero and
    every other fee is positive. *)
Theorem dydx_preferred (snap : Snapshot) (amount available : Z) :
  (0 < amount)%Z ->
  contract snap DYDX = true ->
  liquidity snap DYDX = Some available ->
  (amount <= available)%Z ->
  get_optimal_provider snap amount = Some DYDX.
Proof.
  intros Ha Hc Hl Hle.
  assert (Hd : eligible snap amount DYDX 0).
  { split; [exact Hc|]. split; [reflexivity|]. exists available. auto. }
  assert (Hstep2 : forall acc,
            acc = (None, Inf false) \/ (exists g, acc = (Some AAVE_V3, Fin g) /\ 0 < g) ->
            consider snap amount acc DYDX = (Some DYDX, Fin 0)).
  { intros acc Hacc.
    destruct (consider_cases snap amount acc DYDX) as [(g & Hel & ->)|(Hne & _)].
    - rewrite (eligible_fee_unique Hel Hd).
      destruct Hacc as [->|(g0 & -> & Hg0)]; simpl; [reflexivity|].
      assert (C : Qle_bool g0 0 = false).
      { destruct (Qle_bool g0 0) eqn:C; [|reflexivity].
        apply Qle_bool_iff in C. exfalso. lra. }
      rewrite C. reflexivity.
    - exfalso. exact (Hne 0 Hd). }
  assert (Hlater : forall p, p <> DYDX ->
            consider snap amount (Some DYDX, Fin 0) p = (Some DYDX, Fin 0)).
  { intros p Hp.
    destruct (consider_cases snap amount (Some DYDX, Fin 0) p) as [(g & Hel & ->)|(_ & ->)];
      [|reflexivity].
    destruct Hel as (_ & Hfee & _).
    pose proof (fee_positive Ha Hp Hfee) as Hg. simpl.
    assert (C : Qle_bool 0 g = true) by (apply Qle_bool_iff; lra).
    rewrite C. reflexivity. }
  unfold get_optimal_provider, providers. cbn [fold_left].
  rewrite (Hstep2 (consider snap amount (None, Inf false) AAVE_V3)).
  - rewrite !Hlater by discriminate. reflexivity.
  - destruct (consider_cases snap amount (None, Inf false) AAVE_V3)
      as [(g & Hel & ->)|(_ & ->)]; [|left; reflexivity].
    right. exists g. simpl. split; [reflexivity|].
    destruct Hel as (_ & Hfee & _).
    apply (@fee_positive AAVE_V3 amount g Ha ltac:(discriminate) Hfee).
Qed.

Lemma dydx_preferred_witness :
  get_optimal_provider (all_liquid (10 ^ 18)) (10 ^ 18) = Some DYDX.
Proof.
  apply (@dydx_preferred (all_liquid (10 ^ 18)) (10 ^ 18) (10 ^ 18)).
  - reflexivity.
  - reflexivity.
  - reflexivity.
  - lia.
Defined.

Lemma optimal_none_iff (snap : Snapshot) (amount : Z) :
  get_optimal_provider snap amount = None <-> forall p g, ~ eligible snap amount p g.
Proof.
  assert (H0 : loop_invariant snap amount [] (None, Inf false)).
  { split; [reflexivity|]. intros p g []. }
  pose proof (@loop_keeps_invariant snap amount providers [] _ H0) as H.
  unfold get_optimal_provider. unfold loop_invariant in H. simpl app in H.
  destruct (fst (fold_left (consider snap amount) providers (None, Inf false))) as [v|].
  - destruct H as (f & _ & before & after & _ & Hel & _).
    split; [discriminate|]. intros Hn. exfalso. exact (Hn v f Hel).
  - destruct H as (_ & Hn). split; [|reflexivity].
    intros _ p g. apply Hn. destruct p; simpl; auto.
Qed.

Lemma venue_id_truthy (p : Provider) : truthy (Some (venue_id p)) = true.
Proof. destruct p; reflexivity. Qed.

(** X19.  [prepare_loan] returns [None] exactly when no route is given
    (or an empty one) and no provider is eligible.  A route that is given
    is taken as the provider as it stands, whatever the providers report;
    without one the provider is the venue that [get_optimal_provider]
    selects.  The amount and the token are passed on unchanged. *)
Theorem prepare_loan_provider (snap : Snapshot) (amount : Z) (token : string)
    (route : option string) :
  (prepare_loan snap amount token route = None <->
   truthy route = false /\ forall p g, ~ eligible snap amount p g) /\
  (forall params,
     prepare_loan snap amount token route = Some params ->
     FlashLoan.amount params = amount /\ token_address params = token /\
     if truthy route then route = Some (provider params)
     else exists v, get_optimal_provider snap amount = Some v /\
                    provider params = venue_id v).
Proof.
  unfold prepare_loan.
  destruct (truthy route) eqn:Hr; cbv beta iota zeta.
  - rewrite Hr. cbn [negb]. cbv iota. split.
    + split; [intros C; discriminate C | intros [C _]; discriminate C].
    + intros params H. injection H as <-. cbn [FlashLoan.amount token_address provider].
      split; [reflexivity|]. split; [reflexivity|].
      destruct route as [[|c r]|]; try discriminate Hr. reflexivity.
  - rewrite <- optimal_none_iff.
    destruct (get_optimal_provider snap amount) as [v|]; cbn [option_map].
    + rewrite venue_id_truthy. cbn [negb]. cbv iota. split.
      * split; [intros C; discriminate C | intros [_ C]; discriminate C].
      * intros params H. injection H as <-. cbn [FlashLoan.amount token_address provider default].
        split; [reflexivity|]. split; [reflexivity|]. exists v. auto.
    + cbn [truthy negb]. cbv iota. split; [tauto | intros params C; discriminate C].
Qed.

End LoanFacts.

Module SandwichStats.
Import Float64 Sandwich SandwichFacts.
Local Open Scope Z_scope.

#[local] Arguments RN : simpl never.
#[local] Arguments literal : simpl never.
#[local] Arguments of_Z : simpl never.
#[local] Arguments to_Z : simpl never.
#[local] Arguments fmul : simpl never.
#[local] Arguments fadd : simpl never.
#[local] Arguments fle : simpl never.
#[local] Arguments _get_pool_liquidity : simpl never.

Lemma execute_step (relay : Relay) (params : SandwichParams) (st : Stats) (n : Z) :
  total_gas_used st = 300000 * successful_attempts st ->
  0 <= successful_attempts st <= total_attempts st ->
  total_attempts st <= n ->
  let st' := stats (execute_sandwich relay params st) in
  total_gas_used st' = 300000 * successful_attempts st' /\
  0 <= successful_attempts st' <= total_attempts st' /\
  total_attempts st' <= n + 1 /\
  (success (execute_sandwich relay params st) = true ->
   successful_attempts st' = successful_attempts st + 1).
Proof.
  intros Hg Hs Hn. unfold execute_sandwich, _create_swap_tx.
  destruct (gas_price_front relay) as [g1|]; cbv beta iota delta [mbind option_bind];
    [|cbn [stats success]; repeat split; try lia; discriminate].
  destruct (gas_price_back relay) as [g2|];
    [|cbn [stats success]; repeat split; try lia; discriminate].
  destruct (send_bundle relay _) as [[|]|];
    cbn [stats success total_gas_used successful_attempts total_attempts gas];
    repeat split; try lia; discriminate.
Qed.

(** X20.  The statistics of the strategy.  After any series of
    [execute_sandwich] calls on a fresh strategy, whatever the relay
    answers or raises, [successful_attempts] is at most [total_attempts],
    which is at most the number of calls, and [total_gas_used] is 300000
    for each successful attempt. *)
Theorem sandwich_statistics (runs : list (Relay * SandwichParams)) :
  total_gas_used (execute_all runs no_stats)
  = 300000 * successful_attempts (execute_all runs no_stats) /\
  0 <= successful_attempts (execute_all runs no_stats)
    <= total_attempts (execute_all runs no_stats) /\
  total_attempts (execute_all runs no_stats) <= Z.of_nat (List.length runs).
Proof.
  assert (H : forall st n,
            total_gas_used st = 300000 * successful_attempts st ->
            0 <= successful_attempts st <= total_attempts st ->
            total_attempts st <= n ->
            total_gas_used (execute_all runs st)
            = 300000 * successful_attempts (execute_all runs st) /\
            0 <= successful_attempts (execute_all runs st)
              <= total_attempts (execute_all runs st) /\
            total_attempts (execute_all runs st) <= n + Z.of_nat (List.length runs)).
  { induction runs as [|[relay params] rest IH]; intros st n Hg Hs Hn.
    - simpl. repeat split; lia.
    - destruct (execute_step relay params Hg Hs Hn) as (Hg' & Hs' & Hn' & _).
      destruct (IH _ _ Hg' Hs' Hn') as (A & B & C).
      change (execute_all ((relay, params) :: rest) st)
        with (execute_all rest (stats (execute_sandwich relay params st))).
      split; [exact A|]. split; [exact B|].
      change (List.length ((relay, params) :: rest)) with (S (List.length rest)). lia. }
  apply (H no_stats 0); simpl; lia.
Qed.

(** X21.  What an opportunity is.  [analyze_opportunity] returns an
    opportunity only for a victim transaction that carries a non-zero
    ['value']; the front amount is [int(float(value) * 0.1)] and is not
    zero, the expected profit is not [<= 0], and the token and the pool
    are those of the pool description. *)
Theorem opportunity_facts (relay : Relay) (target_tx : TargetTx)
    (pool_info : PoolInfo) (params : SandwichParams) :
  analyze_opportunity relay target_tx pool_info = Some params ->
  (exists v target,
     tx_value target_tx = Some v /\ v <> 0 /\
     of_Z v = Some target /\
     to_Z (fmul target (literal (1 # 10))) = Some (front_amount params)) /\
  front_amount params <> 0 /\
  fle (expected_profit params) (Fin 0) = false /\
  info_token pool_info = Some (token params) /\
  info_address pool_info = Some (pool params).
Proof.
  unfold analyze_opportunity. intros H.
  destruct (info_token pool_info) as [tk|]; [|discriminate].
  destruct (info_address pool_info) as [pl|]; [|discriminate].
  destruct (gas_price_analysis relay) as [gp|]; [|discriminate].
  binds H.
  destruct (default 0 (tx_value target_tx) =? 0) eqn:Hv0; [discriminate|].
  destruct (_get_pool_liquidity pl =? 0); [discriminate|]. cbn [orb] in H.
  destruct (of_Z (default 0%Z (tx_value target_tx))) as [tg|] eqn:Htg; [|discriminate].
  destruct (of_Z (_get_pool_liquidity pl)) as [dp|]; [|discriminate].
  unfold SIMD.batch_sandwich_optimization, SIMD.batch_price_impact, SIMD.broadcast in H.
  cbn [List.length List.map Nat.eqb zip_with] in H. binds H.
  cbn [List.length List.map Nat.eqb zip_with head] in H.
  destruct (to_Z (fmul tg (literal (1 # 10)))) as [fa|] eqn:Hfa; [|discriminate].
  destruct (fa =? 0) eqn:Hfa0; [discriminate|]. cbn [orb] in H.
  match type of H with
  | context [fle ?p (Fin 0)] => destruct (fle p (Fin 0)) eqn:Hp; [discriminate|]
  end.
  destruct (of_Z fa) as [ff|]; [|discriminate].
  destruct (to_Z (fmul ff (literal (102 # 100)))) as [ba|]; [|discriminate].
  destruct (tx_hash target_tx) as [h|]; [|discriminate].
  injection H as <-.
  cbn [front_amount expected_profit token pool].
  apply Z.eqb_neq in Hv0, Hfa0.
  split.
  - destruct (tx_value target_tx) as [v|]; [|exfalso; apply Hv0; reflexivity].
    exists v, tg. auto.
  - auto.
Qed.

Lemma opportunity_facts_witness :
  front_amount test_params <> 0 /\
  fle (expected_profit test_params) (Fin 0) = false.
Proof.
  refine (let H := @opportunity_facts test_relay test_target test_pool test_params _ in
          conj (proj1 (proj2 H)) (proj1 (proj2 (proj2 H)))).
  vm_compute. reflexivity.
Defined.

End SandwichStats.

Module StoreFacts.
Import Py Mempool MempoolFacts.

Lemma dict_get_in {A} (k : string) (v : A) (d : list (string * A)) :
  In (k, v) d -> exists v', dict_get k d = Some v'.
Proof.
  induction d as [|[k' v'] rest IH]; intros H; [destruct H|].
  simpl. destruct (String.eqb_spec k k') as [->|Hne]; [eauto|].
  destruct H as [H|H]; [|auto].
  inversion H; subst. congruence.
Qed.

(** X22.  What the clean-up of the store does.  With custom indexing on,
    as the constructor sets it, [_cleanup_old_transactions] returns
    normally and changes nothing when no entry has a timestamp below the
    float64 difference of the current time and the threshold; otherwise
    it removes the first such entry of the table from the primary table
    and then raises [AttributeError] (the method [_remove_from_indexes]
    does not exist), so that every other expired entry stays. *)
Theorem cleanup_removes_first_expired (current_time : Q) (s : t) :
  enable_custom_indexing s = true ->
  _cleanup_old_transactions current_time s
  = match expired current_time s with
    | [] => (Val tt, s)
    | (tx_hash, _) :: _ =>
        (Exc AttributeError, set_pending_txs (dict_del tx_hash (pending_txs s)) s)
    end.
Proof.
  intros Hen. unfold _cleanup_old_transactions, bind at 1, gets, id.
  fold (expired current_time s).
  destruct (expired current_time s) as [|[h tx] rest] eqn:E; [reflexivity|].
  assert (Hin : In (h, tx) (pending_txs s)).
  { assert (H : In (h, tx) (expired current_time s)) by (rewrite E; left; reflexivity).
    unfold expired in H. apply List.filter_In in H. tauto. }
  destruct (dict_get_in Hin) as [tx' Hget].
  cbn [List.map for_each fst].
  unfold bind at 1, _remove_transaction, bind at 1, gets, id.
  rewrite Hget. unfold bind, modify, raise. rewrite Hen. reflexivity.
Qed.

Lemma cleanup_removes_first_expired_witness :
  fst (_cleanup_old_transactions 100%Q
         (_process_transaction "0xaa"
            (Some {| raw_from := Some "0x01"%string; raw_to := None; raw_value := None;
                     raw_gasPrice := None; raw_gas := None; raw_nonce := None;
                     raw_input := None |})
            1%Q (init 60%Q)))
  = Exc AttributeError.
Proof.
  rewrite (@cleanup_removes_first_expired 100%Q _); vm_compute; reflexivity.
Defined.

(** The threshold of the clean-up is the rounded difference: with a
    threshold of 0.7 s at time 1700000000, an entry stamped with the
    float below 1699999999.3 is as old as the rounded difference, not
    older, and stays. *)
Example cleanup_threshold_is_rounded :
  let raw := Some {| raw_from := Some "0x01"%string; raw_to := None; raw_value := None;
                     raw_gasPrice := None; raw_gas := None; raw_nonce := None;
                     raw_input := None |} in
  let s := _process_transaction "0xaa" raw (7130316797063987 # 4194304)%Q
             (init (3152519739159347 # 4503599627370496)%Q) in
  ((7130316797063987 # 4194304) < 1700000000 - (3152519739159347 # 4503599627370496))%Q /\
  expired 1700000000%Q s = [] /\
  fst (_cleanup_old_transactions 1700000000%Q s) = Val tt /\
  List.map fst (pending_txs (snd (_cleanup_old_transactions 1700000000%Q s)))
  = ["0xaa"%string].
Proof. repeat split; vm_compute; reflexivity. Qed.

Lemma dict_set_keys {A} (k : string) (v : A) (d : list (string * A)) :
  List.map fst (dict_set k v d)
  = match dict_get k d with
    | Some _ => List.map fst d
    | None => List.map fst d ++ [k]
    end.
Proof.
  induction d as [|[k' v'] rest IH]; simpl; [reflexivity|].
  destruct (String.eqb k k') eqn:E; simpl; [reflexivity|].
  rewrite IH. destruct (dict_get k rest); reflexivity.
Qed.

Lemma dict_get_none_keys {A} (k : string) (d : list (string * A)) :
  dict_get k d = None -> ~ In k (List.map fst d).
Proof.
  induction d as [|[k' v'] rest IH]; simpl; [tauto|].
  destruct (String.eqb_spec k k') as [->|Hne]; [discriminate|].
  intros H [C|C]; [congruence | exact (IH H C)].
Qed.

Lemma dict_set_nodup {A} (k : string) (v : A) (d : list (string * A)) :
  List.NoDup (List.map fst d) -> List.NoDup (List.map fst (dict_set k v d)).
Proof.
  intros H. rewrite dict_set_keys.
  destruct (dict_get k d) eqn:E; [exact H|].
  apply dict_get_none_keys in E.
  apply List.NoDup_rev in H. rewrite <- List.rev_involutive.
  apply List.NoDup_rev. rewrite List.rev_app_distr. simpl.
  constructor; [|exact H]. rewrite <- List.in_rev. exact E.
Qed.

Section AnyHooks.

Variable identify_protocol : list Byte.byte -> option string.
Variable identify_token : option string -> option string.

(** X23.  The primary table is a dict.  Processing a fetched transaction
    that names its sender stores it under its hash with the time of
    processing, so that a lookup of the hash returns it; every other key
    keeps its entry; a hash that was already stored keeps its place in the
    iteration order and a new one goes to the end; and no key ever occurs
    twice.  A transaction that could not be fetched, or whose dict has no
    ['from'], changes nothing. *)
Theorem process_then_lookup (tx_hash : string) (fetched : option RawTx) (now : Q) (s : t) :
  let s' := process_transaction_with identify_protocol identify_token tx_hash fetched now s in
  match fetched with
  | Some tx =>
      match raw_from tx with
      | Some sender =>
          (exists stored,
             dict_get tx_hash (pending_txs s') = Some stored /\
             hash stored = tx_hash /\ from_address stored = sender /\
             timestamp stored = now) /\
          (forall h, h <> tx_hash ->
             dict_get h (pending_txs s') = dict_get h (pending_txs s)) /\
          List.map fst (pending_txs s')
          = match dict_get tx_hash (pending_txs s) with
            | Some _ => List.map fst (pending_txs s)
            | None => List.map fst (pending_txs s) ++ [tx_hash]
            end /\
          (List.NoDup (List.map fst (pending_txs s)) ->
           List.NoDup (List.map fst (pending_txs s')))
      | None => s' = s
      end
  | None => s' = s
  end.
Proof.
  cbv zeta. unfold process_transaction_with.
  destruct fetched as [tx|]; [|reflexivity].
  destruct (raw_from tx) as [sender|]; [|reflexivity].
  match goal with
  | |- context [dict_set tx_hash ?tr (pending_txs s)] => set (stored := tr)
  end.
  set (s1 := set_pending_txs (dict_set tx_hash stored (pending_txs s)) s).
  assert (Hp : pending_txs
                 (if enable_custom_indexing s1
                  then update_indexes_with identify_protocol identify_token stored s1
                  else s1)
               = dict_set tx_hash stored (pending_txs s)).
  { destruct (enable_custom_indexing s1); [|reflexivity].
    destruct (@update_pending identify_protocol identify_token stored s1) as [-> _].
    reflexivity. }
  rewrite Hp. split; [|split; [|split]].
  - exists stored. split; [apply dict_get_set_eq|]. auto.
  - intros h Hne. apply dict_get_set_ne. exact Hne.
  - apply dict_set_keys.
  - apply dict_set_nodup.
Qed.

End AnyHooks.

Section FilterFacts.

Variable Dict : Type.
Variable value_of : Dict -> option Z.
Variable gas_of : Dict -> option Z.

Lemma filter_loop_spec (min_value max_gas : option Z) (transactions filtered : list Dict) :
  List.Forall (readable value_of gas_of min_value max_gas) transactions ->
  filter_loop value_of gas_of min_value max_gas transactions filtered
  = Val (filtered ++ List.filter (passes value_of gas_of min_value max_gas) transactions).
Proof.
  intros H. revert filtered. induction H as [|tx rest [Hv Hg] _ IH]; intros filtered.
  - simpl. rewrite app_nil_r. reflexivity.
  - cbn [filter_loop List.filter]. unfold passes.
    destruct min_value as [floor|], max_gas as [cap|].
    + destruct (value_of tx) as [v|]; [|exfalso; apply Hv; congruence].
      destruct (gas_of tx) as [g|]; [|exfalso; apply Hg; congruence].
      destruct (v <? floor)%Z, (cap <? g)%Z; simpl; rewrite IH, <- ?app_assoc; reflexivity.
    + destruct (value_of tx) as [v|]; [|exfalso; apply Hv; congruence].
      destruct (v <? floor)%Z; simpl; rewrite IH, <- ?app_assoc; reflexivity.
    + destruct (gas_of tx) as [g|]; [|exfalso; apply Hg; congruence].
      destruct (cap <? g)%Z; simpl; rewrite IH, <- ?app_assoc; reflexivity.
    + simpl. rewrite IH, <- app_assoc. reflexivity.
Qed.

(** X24.  [filter_transactions] returns, in their order, exactly the
    transactions whose value is at least [min_value] and whose gas is at
    most [max_gas], a criterion that is [None] filtering nothing, provided
    every dict has the key that each given criterion reads.  A dict that
    fails the value criterion is dropped, one that lacks ['value'] under a
    value criterion raises [KeyError]. *)
Theorem filter_transactions_spec (transactions : list Dict) (min_value max_gas : option Z) :
  List.Forall (readable value_of gas_of min_value max_gas) transactions ->
  filter_transactions value_of gas_of transactions min_value max_gas
  = Val (List.filter (passes value_of gas_of min_value max_gas) transactions).
Proof.
  intros H. unfold filter_transactions. rewrite (filter_loop_spec [] H). reflexivity.
Qed.

End FilterFacts.

Lemma filter_transactions_spec_witness :
  filter_transactions fst snd
    [(Some 5%Z, Some 21000%Z); (Some 1%Z, Some 21000%Z); (Some 9%Z, Some 900000%Z)]
    (Some 2%Z) (Some 100000%Z)
  = Val [(Some 5%Z, Some 21000%Z)].
Proof.
  rewrite (@filter_transactions_spec (option Z * option Z) fst snd).
  - reflexivity.
  - repeat constructor; simpl; discriminate.
Defined.

End StoreFacts.

Module MonitorFacts.
Import Py Mempool MempoolMonitor.
Local Open Scope Q_scope.

Lemma store_well_formed (p : Pending) (d : t) :
  well_formed p ->
  exists h tx,
    p_hash p = Some h /\ make_transaction h (p_tx p) (p_seen p) = Some tx /\
    store p d = (Val tt, match dict_get h d with
                         | Some _ => d
                         | None => dict_set h tx d
                         end).
Proof.
  intros (h & Hh & Hm).
  destruct (make_transaction h (p_tx p) (p_seen p)) as [tx|] eqn:E; [|congruence].
  exists h, tx. split; [exact Hh|]. split; [exact E|].
  unfold store, bind, subscript, gets, ret, or_raise, modify. rewrite Hh.
  destruct (dict_get h d); [reflexivity|]. rewrite E. reflexivity.
Qed.

Lemma store_all (pending : list Pending) (d : t) :
  List.Forall well_formed pending ->
  List.NoDup (List.map fst d) ->
  exists d1,
    for_each store pending d = (Val tt, d1) /\
    List.NoDup (List.map fst d1) /\
    forall h tx, dict_get h d = Some tx -> dict_get h d1 = Some tx.
Proof.
  intros H. revert d. induction H as [|p rest Hp _ IH]; intros d Hn.
  - exists d. simpl. auto.
  - destruct (store_well_formed d Hp) as (h & tx & _ & _ & Hs).
    set (d0 := match dict_get h d with Some _ => d | None => dict_set h tx d end) in *.
    assert (Hn0 : List.NoDup (List.map fst d0)).
    { unfold d0. destruct (dict_get h d); [exact Hn|].
      apply StoreFacts.dict_set_nodup. exact Hn. }
    assert (Hk0 : forall h0 tx0, dict_get h0 d = Some tx0 -> dict_get h0 d0 = Some tx0).
    { intros h0 tx0 H0. unfold d0. destruct (dict_get h d) eqn:E; [exact H0|].
      rewrite MempoolFacts.dict_get_set_ne; [exact H0|]. congruence. }
    destruct (IH d0 Hn0) as (d1 & E1 & Hn1 & Hk1).
    exists d1. cbn [for_each]. unfold bind. rewrite Hs, E1. auto.
Qed.

Lemma del_other (k h : string) (v : Transaction) (d : t) :
  h <> k ->
  del h ((k, v) :: d) = (fst (del h d), (k, v) :: snd (del h d)).
Proof.
  intros Hne. apply String.eqb_neq in Hne.
  unfold del, bind, gets, modify, raise. simpl. rewrite Hne.
  destruct (dict_get h d); simpl; rewrite ?Hne; reflexivity.
Qed.

Lemma for_each_del_other (k : string) (v : Transaction) (hs : list string) (d : t) :
  ~ In k hs ->
  for_each del hs ((k, v) :: d)
  = (fst (for_each del hs d), (k, v) :: snd (for_each del hs d)).
Proof.
  revert d. induction hs as [|h hs IH]; intros d Hn; [reflexivity|].
  cbn [for_each]. unfold bind.
  rewrite del_other by (intros ->; apply Hn; left; reflexivity).
  destruct (del h d) as [[[]|e] d']; simpl; [|reflexivity].
  apply IH. intros C. apply Hn. right. exact C.
Qed.

Lemma clean_up_filters (current_time : Q) (d : t) :
  List.NoDup (List.map fst d) ->
  for_each del (List.map fst (List.filter (is_old current_time) d)) d
  = (Val tt, List.filter (fun kv => negb (is_old current_time kv)) d).
Proof.
  induction d as [|[k v] rest IH]; intros Hn; [reflexivity|].
  inversion Hn as [|? ? Hk Hrest]; subst.
  cbn [List.filter]. destruct (is_old current_time (k, v)) eqn:E; cbn [negb List.map fst].
  - cbn [for_each]. unfold bind at 1, del, bind at 1, gets, modify. simpl.
    rewrite String.eqb_refl. simpl. rewrite String.eqb_refl. apply IH. exact Hrest.
  - rewrite for_each_del_other.
    + rewrite (IH Hrest). reflexivity.
    + intros C. apply Hk. apply List.in_map_iff in C as ([k' v'] & <- & Hin).
      apply List.filter_In in Hin as [Hin _].
      apply List.in_map_iff. exists (k', v'). auto.
Qed.

Lemma dict_get_filter (f : string * Transaction -> bool) (h : string)
    (tx : Transaction) (d : t) :
  dict_get h d = Some tx -> f (h, tx) = true ->
  (forall k v v', In (k, v) d -> In (k, v') d -> v = v') ->
  dict_get h (List.filter f d) = Some tx.
Proof.
  induction d as [|[k v] rest IH]; intros Hg Hf Hu; [discriminate|].
  simpl in Hg. destruct (String.eqb_spec h k) as [->|Hne].
  - inversion Hg; subst v. simpl. rewrite Hf. simpl. rewrite String.eqb_refl. reflexivity.
  - assert (IH' : dict_get h (List.filter f rest) = Some tx).
    { apply IH; [exact Hg | exact Hf|].
      intros k0 v0 v0' H1 H2. apply (Hu k0); right; assumption. }
    simpl. destruct (f (k, v)); [|exact IH'].
    simpl. destruct (String.eqb_spec h k) as [->|_]; [congruence | exact IH'].
Qed.

Lemma nodup_keys_unique {A} (d : list (string * A)) :
  List.NoDup (List.map fst d) ->
  forall k v v', In (k, v) d -> In (k, v') d -> v = v'.
Proof.
  induction d as [|[k0 v0] rest IH]; intros Hn k v v' H1 H2; [destruct H1|].
  inversion Hn as [|? ? Hk Hrest]; subst.
  assert (Hin : forall w, In (k0, w) rest -> False).
  { intros w Hw. apply Hk. apply List.in_map_iff. exists (k0, w). auto. }
  destruct H1 as [H1|H1], H2 as [H2|H2].
  - congruence.
  - inversion H1; subst. exfalso. exact (Hin _ H2).
  - inversion H2; subst. exfalso. exact (Hin _ H1).
  - exact (IH Hrest k v v' H1 H2).
Qed.

(** X25.  One iteration of the monitor.  When every pending transaction
    has the keys that the monitor reads, the iteration ends with a table
    in which no entry is older than 300 seconds and no hash occurs twice.
    A transaction that was already stored is not refreshed by being seen
    again: as long as it is not older than 300 seconds it stays as it was
    stored, first timestamp included. *)
Theorem monitor_iteration_fresh (pending : list Pending) (current_time : Q) (d : t) :
  List.Forall well_formed pending ->
  List.NoDup (List.map fst d) ->
  List.NoDup (List.map fst (_monitor_iteration pending current_time d)) /\
  List.Forall (fun kv => current_time - timestamp (snd kv) <= 300)
    (_monitor_iteration pending current_time d) /\
  (forall h tx,
     dict_get h d = Some tx -> current_time - timestamp tx <= 300 ->
     dict_get h (_monitor_iteration pending current_time d) = Some tx).
Proof.
  intros Hw Hn.
  destruct (store_all Hw Hn) as (d1 & E1 & Hn1 & Hk1).
  assert (E : _monitor_iteration pending current_time d
              = List.filter (fun kv => negb (is_old current_time kv)) d1).
  { unfold _monitor_iteration, try_except, bind at 1. rewrite E1.
    unfold clean_up, bind at 1, gets, id. rewrite (clean_up_filters current_time Hn1).
    reflexivity. }
  rewrite E. split; [|split].
  - clear -Hn1. induction d1 as [|[k v] rest IH]; [constructor|].
    inversion Hn1 as [|? ? Hk Hrest]; subst. simpl.
    destruct (negb (is_old current_time (k, v))); [|auto].
    simpl. constructor; [|auto].
    intros C. apply Hk. apply List.in_map_iff in C as ([k' v'] & <- & Hin).
    apply List.filter_In in Hin as [Hin _]. apply List.in_map_iff. exists (k', v'). auto.
  - apply List.Forall_forall. intros kv Hin. apply List.filter_In in Hin as [_ Hf].
    apply negb_true_iff in Hf. unfold is_old, Qgtb in Hf.
    apply negb_false_iff in Hf. apply Qle_bool_iff. exact Hf.
  - intros h tx Hg Hf. apply dict_get_filter.
    + apply Hk1. exact Hg.
    + unfold is_old, Qgtb. rewrite negb_involutive. apply Qle_bool_iff. exact Hf.
    + apply nodup_keys_unique. exact Hn1.
Qed.

Lemma monitor_iteration_fresh_witness :
  List.Forall (fun kv => 2 - timestamp (snd kv) <= 300)
    (_monitor_iteration [test_pending] 2 []).
Proof.
  refine (proj1 (proj2 (@monitor_iteration_fresh [test_pending] 2 [] _ _))).
  - constructor; [|constructor].
    exists "0xaa"%string. split; [reflexivity|]. vm_compute. discriminate.
  - constructor.
Defined.

End MonitorFacts.

